(** * The PostgreSQL projection of the ledger (plugins/postgres_plugin/evt_pg.cpp)

    A shallow embedding of the write pipeline of [evt::pg]: the start-up
    gates, the two per-block buffers (copy context and trx context), and the
    translators that turn ledger actions into lines of the statement log.

    Text is [string]; a [fmt::memory_buffer] is the text appended so far;
    every [fmt::format_to] is an append.  Functions that can raise return a
    [result] next to the state they leave behind, so that what was already
    written when an exception escapes stays visible. *)

From Stdlib Require Import String Ascii List ZArith Lia Bool DecimalString DecimalPos.
Import ListNotations.
Open Scope string_scope.

(** ** Characters that a Rocq literal cannot hold *)

Definition TAB : string := String (ascii_of_nat 9) EmptyString.
Definition LF : string := String (ascii_of_nat 10) EmptyString.
Definition DQUOTE : string := String (ascii_of_nat 34) EmptyString.
Definition squote : ascii := ascii_of_nat 39.

(** [fmt]'s [{}] and [{:d}] on an integer: its decimal digits, with a leading
    minus sign when negative. *)
Definition fmt_d (z : Z) : string := NilZero.string_of_int (Z.to_int z).

(** A C++ cast to [int32_t]: the value modulo 2^32, read as two's complement. *)
Definition to_int32 (z : Z) : Z := ((z + 2 ^ 31) mod 2 ^ 32 - 2 ^ 31)%Z.

(** ** Exceptions and the state-and-exception monad *)

Inductive exception : Type :=
| postgres_connection_exception
| postgres_exec_exception
| postgres_version_exception
| postgres_sync_exception
| bad_lexical_cast.

Inductive result (A : Type) : Type :=
| Ok (a : A)
| Throw (e : exception).
Arguments Ok {A} a.
Arguments Throw {A} e.

(** A computation over the mutable objects [S] it holds references to. *)
Definition M (S A : Type) : Type := S -> S * result A.

Definition ret {S A} (a : A) : M S A := fun s => (s, Ok a).
Definition throw {S A} (e : exception) : M S A := fun s => (s, Throw e).
Definition bind {S A B} (m : M S A) (k : A -> M S B) : M S B :=
  fun s => match m s with
           | (s', Ok a) => k a s'
           | (s', Throw e) => (s', Throw e)
           end.

Notation "x <- m ;; k" := (bind m (fun x => k))
  (at level 61, m at next level, right associativity).
Notation "m ;;; k" := (bind m (fun _ => k))
  (at level 61, right associativity).

(** [EVT_ASSERT(cond, exc, ...)] *)
Definition EVT_ASSERT {S} (cond : bool) (e : exception) : M S unit :=
  if cond then ret tt else throw e.

(** [EVT_THROW(exc, ...)] *)
Definition EVT_THROW {S A} (e : exception) : M S A := throw e.

(** Modelled from the spec: the header evt_pg.hpp, which defines the two
    return codes, is not among the sources.  Every caller tests the code as a
    truth value ([if(!read_stat(..))] reports an absent stat), so the failure
    code is zero and the success code is not. *)
Definition PG_OK : Z := 1%Z.
Definition PG_FAIL : Z := 0%Z.

(** A C++ [int] used as a condition. *)
Definition truthy (rc : Z) : bool := negb (rc =? 0)%Z.

Definition pg_version : string := "1.0.0".

(** ** [std::string] comparison

    [operator>=] on [std::string] is [compare(..) >= 0]; [compare] runs
    [char_traits<char>::compare] (unsigned bytes) over the common length and
    breaks a tie by the lengths. *)

Fixpoint traits_compare (n : nat) (a b : string) : comparison :=
  match n, a, b with
  | S n', String x a', String y b' =>
      match Ascii.compare x y with
      | Eq => traits_compare n' a' b'
      | c => c
      end
  | _, _, _ => Eq
  end.

Definition basic_string_compare (a b : string) : comparison :=
  match traits_compare (Nat.min (String.length a) (String.length b)) a b with
  | Eq => Nat.compare (String.length a) (String.length b)
  | c => c
  end.

Definition string_ge (a b : string) : bool :=
  match basic_string_compare a b with
  | Lt => false
  | _ => true
  end.

(** ** The client library (libpq) and the store behind it

    The store keeps the two tables the read queries look at, the statements
    prepared on this session, and the requests sent so far.  [server_accepts]
    is the server's verdict on a request: a lost connection or a rejected
    statement answers [false]. *)

Inductive ExecStatusType : Type :=
| PGRES_EMPTY_QUERY
| PGRES_COMMAND_OK
| PGRES_TUPLES_OK
| PGRES_COPY_OUT
| PGRES_COPY_IN
| PGRES_BAD_RESPONSE
| PGRES_NONFATAL_ERROR
| PGRES_FATAL_ERROR.

Definition status_eqb (a b : ExecStatusType) : bool :=
  match a, b with
  | PGRES_EMPTY_QUERY, PGRES_EMPTY_QUERY
  | PGRES_COMMAND_OK, PGRES_COMMAND_OK
  | PGRES_TUPLES_OK, PGRES_TUPLES_OK
  | PGRES_COPY_OUT, PGRES_COPY_OUT
  | PGRES_COPY_IN, PGRES_COPY_IN
  | PGRES_BAD_RESPONSE, PGRES_BAD_RESPONSE
  | PGRES_NONFATAL_ERROR, PGRES_NONFATAL_ERROR
  | PGRES_FATAL_ERROR, PGRES_FATAL_ERROR => true
  | _, _ => false
  end.

Record PGresult : Type := mkResult {
  PQresultStatus : ExecStatusType;
  tuples : list (list string)
}.

Definition PQntuples (r : PGresult) : nat := List.length (tuples r).
Definition PQgetvalue (r : PGresult) (row col : nat) : string :=
  nth col (nth row (tuples r) []) "".

Inductive request : Type :=
| ReqExec (stmt : string)
| ReqPrepare (name sql : string)
| ReqExecPrepared (name : string) (params : list string)
| ReqPutCopyData (data : string)
| ReqPutCopyEnd
| ReqGetResult.

(** A row of [public.stats], reduced to [key] and [value]. *)
Definition stat_row : Type := (string * string)%type.

(** A row of [public.blocks], reduced to [block_id] and [block_num]. *)
Record block_row : Type := mkBlockRow {
  row_block_id : string;
  row_block_num : Z
}.

Record PGconn : Type := mkConn {
  stats : list stat_row;
  blocks : list block_row;
  prepared : list (string * string);
  server_accepts : request -> bool;
  wire : list request
}.

Definition sent (c : PGconn) (r : request) : PGconn :=
  mkConn (stats c) (blocks c) (prepared c) (server_accepts c) (wire c ++ [r]).

Definition with_prepared (c : PGconn) (name sql : string) : PGconn :=
  mkConn (stats c) (blocks c) ((name, sql) :: prepared c) (server_accepts c) (wire c).

Fixpoint lookup (name : string) (l : list (string * string)) : option string :=
  match l with
  | [] => None
  | (n, v) :: l' => if String.eqb n name then Some v else lookup name l'
  end.

Definition fatal : PGresult := mkResult PGRES_FATAL_ERROR [].

(** [ORDER BY block_num DESC LIMIT 1]: a row with the greatest block number
    (the earliest such row stands for the one the server picks). *)
Fixpoint latest_row (rows : list block_row) : option block_row :=
  match rows with
  | [] => None
  | r :: rest =>
      match latest_row rest with
      | None => Some r
      | Some m => if (row_block_num r <? row_block_num m)%Z then Some m else Some r
      end
  end.

(** What the server answers when a prepared statement is executed: the
    two read queries of this file are evaluated on the tables; any other
    statement is a command whose effect on the tables is not interpreted. *)
Definition run_plan (c : PGconn) (sql : string) (params : list string) : PGresult :=
  if String.eqb sql "SELECT value FROM stats WHERE key = $1" then
    mkResult PGRES_TUPLES_OK
      (map (fun kv => [snd kv])
           (filter (fun kv => String.eqb (fst kv) (nth 0 params "")) (stats c)))
  else if String.eqb sql "SELECT block_id FROM blocks ORDER BY block_num DESC LIMIT 1;" then
    mkResult PGRES_TUPLES_OK
      (match latest_row (blocks c) with
       | Some r => [[row_block_id r]]
       | None => []
       end)
  else mkResult PGRES_COMMAND_OK [].

Definition PQprepare (c : PGconn) (name sql : string) : PGconn * PGresult :=
  let req := ReqPrepare name sql in
  let c' := sent c req in
  match server_accepts c req, lookup name (prepared c) with
  | true, None => (with_prepared c' name sql, mkResult PGRES_COMMAND_OK [])
  | _, _ => (c', fatal)
  end.

Definition PQexecPrepared (c : PGconn) (name : string) (params : list string)
  : PGconn * PGresult :=
  let req := ReqExecPrepared name params in
  let c' := sent c req in
  match server_accepts c req, lookup name (prepared c) with
  | true, Some sql => (c', run_plan c sql params)
  | _, _ => (c', fatal)
  end.

Definition PQexec (c : PGconn) (stmt : string) : PGconn * PGresult :=
  let req := ReqExec stmt in
  let c' := sent c req in
  if server_accepts c req then
    (c', mkResult (if String.prefix "COPY " stmt then PGRES_COPY_IN
                   else PGRES_COMMAND_OK) [])
  else (c', fatal).

Definition PQputCopyData (c : PGconn) (data : string) : PGconn * Z :=
  let req := ReqPutCopyData data in
  (sent c req, if server_accepts c req then 1%Z else (-1)%Z).

Definition PQputCopyEnd (c : PGconn) : PGconn * Z :=
  (sent c ReqPutCopyEnd, if server_accepts c ReqPutCopyEnd then 1%Z else (-1)%Z).

Definition PQgetResult (c : PGconn) : PGconn * PGresult :=
  (sent c ReqGetResult,
   if server_accepts c ReqGetResult then mkResult PGRES_COMMAND_OK [] else fatal).

(** ** The [pg] object

    [once_flags] holds the [std::once_flag]s that have fired; they are
    function-local statics in the source, one per [PREPARE_SQL_ONCE] site. *)

Record pg : Type := mkPg {
  conn_ : PGconn;
  last_sync_block_id_ : string;
  once_flags : list string
}.

Definition set_conn (p : pg) (c : PGconn) : pg :=
  mkPg c (last_sync_block_id_ p) (once_flags p).
Definition set_last_sync_block_id (p : pg) (id : string) : pg :=
  mkPg (conn_ p) id (once_flags p).
Definition raise_flag (p : pg) (flag : string) : pg :=
  mkPg (conn_ p) (last_sync_block_id_ p) (flag :: once_flags p).

Definition flag_set (flag : string) (p : pg) : bool :=
  existsb (String.eqb flag) (once_flags p).

(** A libpq call on [conn_]. *)
Definition on_conn {A} (f : PGconn -> PGconn * A) : M pg A :=
  fun p => let (c, a) := f (conn_ p) in (set_conn p c, Ok a).

(** [std::call_once]: the body runs unless the flag has fired; the flag fires
    when the body returns, not when it throws. *)
Definition call_once (flag : string) (body : M pg unit) : M pg unit :=
  fun p =>
    if flag_set flag p then (p, Ok tt)
    else match body p with
         | (p', Ok _) => (raise_flag p' flag, Ok tt)
         | (p', Throw e) => (p', Throw e)
         end.

(** The body shared by [PREPARE_SQL_ONCE] and by [add_meta]'s [prepare]. *)
Definition prepare (name sql : string) : M pg unit :=
  r <- on_conn (fun c => PQprepare c name sql) ;;
  EVT_ASSERT (status_eqb (PQresultStatus r) PGRES_COMMAND_OK) postgres_exec_exception.

Definition PREPARE_SQL_ONCE (name sql : string) : M pg unit :=
  call_once ("__" ++ name ++ "_flag") (prepare name sql).

(** ** Stats and the start-up gates *)

(** [read_stat(key, value)]: the code, and the out-parameter as it is left. *)
Definition read_stat (key : string) (value : string) : M pg (Z * string) :=
  PREPARE_SQL_ONCE "rs_plan" "SELECT value FROM stats WHERE key = $1" ;;;
  r <- on_conn (fun c => PQexecPrepared c "rs_plan" [key]) ;;
  EVT_ASSERT (status_eqb (PQresultStatus r) PGRES_TUPLES_OK) postgres_exec_exception ;;;
  if (PQntuples r =? 0)%nat then ret (PG_FAIL, value)
  else ret (PG_OK, PQgetvalue r 0 0).

Definition get_latest_block_id (block_id : string) : M pg (Z * string) :=
  PREPARE_SQL_ONCE "glb_plan"
    "SELECT block_id FROM blocks ORDER BY block_num DESC LIMIT 1;" ;;;
  r <- on_conn (fun c => PQexecPrepared c "glb_plan" []) ;;
  EVT_ASSERT (status_eqb (PQresultStatus r) PGRES_TUPLES_OK) postgres_exec_exception ;;;
  if (PQntuples r =? 0)%nat then ret (PG_FAIL, block_id)
  else ret (PG_OK, PQgetvalue r 0 0).

Definition check_version : M pg Z :=
  let cur_ver := "" in
  rv <- read_stat "version" cur_ver ;;
  let (rc, cur_ver) := (rv : Z * string) in
  (if negb (truthy rc) then EVT_THROW postgres_version_exception else ret tt) ;;;
  EVT_ASSERT (string_ge cur_ver pg_version) postgres_version_exception ;;;
  ret PG_OK.

Definition check_last_sync_block : M pg Z :=
  let sync_block_id := "" in
  rv <- read_stat "last_sync_block_id" sync_block_id ;;
  let (rc, sync_block_id) := (rv : Z * string) in
  (if negb (truthy rc) then EVT_THROW postgres_sync_exception else ret tt) ;;;
  let last_block_id := "" in
  rv2 <- get_latest_block_id last_block_id ;;
  let (rc2, last_block_id) := (rv2 : Z * string) in
  if truthy rc2 then
    EVT_ASSERT (String.eqb sync_block_id last_block_id) postgres_sync_exception ;;;
    (fun p => (set_last_sync_block_id p last_block_id, Ok tt)) ;;;
    ret PG_OK
  else EVT_THROW postgres_sync_exception.

(** ** The two per-block buffers *)

Record copy_context : Type := mkCopy {
  blocks_copy_ : string;
  trxs_copy_ : string;
  actions_copy_ : string
}.

Record trx_context : Type := mkTrx {
  trx_buf_ : string
}.

Definition new_copy_context : copy_context := mkCopy "" "" "".
Definition new_trx_context : trx_context := mkTrx "".

Definition chain_id_type : Type := string.

Record add_context : Type := mkAdd {
  cctx : copy_context;
  block_id : string;
  block_num : Z;
  ts : string;
  chain_id : chain_id_type
}.

Definition set_cctx (actx : add_context) (c : copy_context) : add_context :=
  mkAdd c (block_id actx) (block_num actx) (ts actx) (chain_id actx).

Definition format_to_blocks_copy (actx : add_context) (text : string) : add_context :=
  set_cctx actx (mkCopy (blocks_copy_ (cctx actx) ++ text)
                        (trxs_copy_ (cctx actx)) (actions_copy_ (cctx actx))).

Definition format_to_trxs_copy (actx : add_context) (text : string) : add_context :=
  set_cctx actx (mkCopy (blocks_copy_ (cctx actx))
                        (trxs_copy_ (cctx actx) ++ text) (actions_copy_ (cctx actx))).

(** *** Flushing *)

Definition block_copy_to (table data : string) : M pg Z :=
  let stmt := "COPY " ++ table ++ " FROM STDIN;" in
  r <- on_conn (fun c => PQexec c stmt) ;;
  EVT_ASSERT (status_eqb (PQresultStatus r) PGRES_COPY_IN) postgres_exec_exception ;;;
  nr <- on_conn (fun c => PQputCopyData c data) ;;
  EVT_ASSERT (nr =? 1)%Z postgres_exec_exception ;;;
  nr2 <- on_conn PQputCopyEnd ;;
  (* the source tests [nr] here, not [nr2] *)
  EVT_ASSERT (nr =? 1)%Z postgres_exec_exception ;;;
  r2 <- on_conn PQgetResult ;;
  EVT_ASSERT (status_eqb (PQresultStatus r2) PGRES_COMMAND_OK) postgres_exec_exception ;;;
  ret PG_OK.

Definition when {S} (cond : bool) (m : M S Z) : M S unit :=
  if cond then m ;;; ret tt else ret tt.

Definition commit_copy_context (cctx : copy_context) : M pg unit :=
  when (0 <? String.length (blocks_copy_ cctx))%nat
       (block_copy_to "blocks" (blocks_copy_ cctx)) ;;;
  when (0 <? String.length (trxs_copy_ cctx))%nat
       (block_copy_to "transactions" (trxs_copy_ cctx)) ;;;
  when (0 <? String.length (actions_copy_ cctx))%nat
       (block_copy_to "actions" (actions_copy_ cctx)).

Definition commit_trx_context (tctx : trx_context) : M pg unit :=
  if (String.length (trx_buf_ tctx) =? 0)%nat then ret tt
  else
    let stmts := trx_buf_ tctx in
    r <- on_conn (fun c => PQexec c stmts) ;;
    EVT_ASSERT (status_eqb (PQresultStatus r) PGRES_COMMAND_OK) postgres_exec_exception.

(** *** Appending rows *)

(** An array column, as the bulk-ingest format and the array literals of the
    statement log write it: the quoted elements, comma-separated, in braces. *)
Definition array_text (l : list string) : string :=
  "{" ++ String.concat "," (map (fun v => DQUOTE ++ v ++ DQUOTE) l) ++ "}".

(** A bulk-ingest row: tab-separated fields and a closing newline. *)
Definition copy_row (fields : list string) : string :=
  String.concat TAB fields ++ LF.

Record block_ptr : Type := mkBlock {
  header_previous : string;
  header_transaction_mroot : string;
  transactions_size : Z;
  header_producer : string
}.

Definition add_block (actx : add_context) (block : block_ptr) : add_context * Z :=
  (format_to_blocks_copy actx
     (block_id actx ++ TAB ++ fmt_d (block_num actx) ++ TAB
      ++ header_previous block ++ TAB ++ ts actx ++ TAB
      ++ header_transaction_mroot block ++ TAB
      ++ fmt_d (transactions_size block) ++ TAB
      ++ header_producer block ++ TAB ++ "f" ++ TAB ++ "now" ++ LF),
   PG_OK).

Record trx_recept_t : Type := mkReceipt {
  trx_type : string;
  trx_status : string
}.

Record trx_t : Type := mkSignedTrx {
  trx_id : string;
  actions_size : Z;
  expiration : string;
  max_charge : Z;
  payer : string;
  signatures : list string;
  transaction_extensions : list (Z * string)
}.

(** The text written by a loop of [format_to] calls over [l]. *)
Definition each (f : string -> string) (l : list string) : string :=
  String.concat "" (map f l).

(** The element a C++ index [size()-1] reaches in a non-empty sequence. *)
Definition back (l : list string) : string := nth (List.length l - 1) l "".

(** The elements a loop [for(i = 0u; i < size() - 1; i++)] visits. *)
Definition but_last (l : list string) : list string := firstn (List.length l - 1) l.

Section RowOfTransaction.

(** [signed_transaction::get_signature_keys] and the numeric value of
    [transaction_ext::suspend_name] live in the chain library. *)
Variable get_signature_keys : trx_t -> chain_id_type -> list string.
Variable suspend_name : Z.

(** [None] stands for undefined behaviour: [*keys.nth(keys.size()-1)] on an
    empty key set. *)
Definition add_trx (actx : add_context) (trx : trx_recept_t) (strx : trx_t)
           (seq_num elapsed charge : Z) : option (add_context * Z) :=
  let a1 := format_to_trxs_copy actx
     (trx_id strx ++ TAB ++ fmt_d seq_num ++ TAB ++ block_id actx ++ TAB
      ++ fmt_d (block_num actx) ++ TAB ++ fmt_d (to_int32 (actions_size strx)) ++ TAB
      ++ ts actx ++ TAB ++ expiration strx ++ TAB
      ++ fmt_d (to_int32 (max_charge strx)) ++ TAB ++ payer strx ++ TAB ++ "f" ++ TAB
      ++ trx_type trx ++ TAB ++ trx_status trx ++ TAB) in
  (* signatures *)
  let a2 := format_to_trxs_copy a1 "{" in
  let a3 :=
    match signatures strx with
    | [] => a2
    | _ =>
        let a := format_to_trxs_copy a2
                   (each (fun sig => DQUOTE ++ sig ++ DQUOTE ++ ",")
                         (but_last (signatures strx))) in
        format_to_trxs_copy a (DQUOTE ++ back (signatures strx) ++ DQUOTE)
    end in
  let a4 := format_to_trxs_copy a3 ("}" ++ TAB) in
  (* keys *)
  let a5 := format_to_trxs_copy a4 "{" in
  let a6 :=
    match signatures strx with
    | [] => Some a5
    | _ =>
        let keys := get_signature_keys strx (chain_id actx) in
        let a := format_to_trxs_copy a5
                   (each (fun key => DQUOTE ++ key ++ DQUOTE ++ ",") keys) in
        match keys with
        | [] => None
        | _ => Some (format_to_trxs_copy a (DQUOTE ++ back keys ++ DQUOTE))
        end
    end in
  match a6 with
  | None => None
  | Some a6 =>
      let a7 := format_to_trxs_copy a6 ("}" ++ TAB) in
      (* traces *)
      let a8 := format_to_trxs_copy a7 (fmt_d elapsed ++ TAB ++ fmt_d charge ++ TAB) in
      (* extensions *)
      let (a9, has_ext) :=
        match find (fun ext => (fst ext =? suspend_name)%Z) (transaction_extensions strx) with
        | Some ext => (format_to_trxs_copy a8 (snd ext ++ TAB), 1%Z)
        | None => (a8, 0%Z)
        end in
      if truthy has_ext
      then Some (format_to_trxs_copy a9 ("now" ++ LF), PG_OK)
      else Some (format_to_trxs_copy a9 ("\N" ++ TAB ++ "now" ++ LF), PG_OK)
  end.

(** The suspend-name column: the name carried by the first extension of that
    kind, or the null marker. *)
Definition suspend_field (strx : trx_t) : string :=
  match find (fun ext => (fst ext =? suspend_name)%Z) (transaction_extensions strx) with
  | Some ext => snd ext
  | None => "\N"
  end.

End RowOfTransaction.

(** ** Entity mutation translators

    A translator holds references to the [pg] object and to the statement log
    it appends to. *)

Definition on_pg {A} (m : M pg A) : M (pg * trx_context) A :=
  fun s => let (p, r) := m (fst s) in ((p, snd s), r).

Definition format_to_trx_buf (text : string) : M (pg * trx_context) unit :=
  fun s => ((fst s, mkTrx (trx_buf_ (snd s) ++ text)), Ok tt).

Definition set_block_irreversible (block_id : string) : M (pg * trx_context) Z :=
  on_pg (PREPARE_SQL_ONCE "sbi_plan"
           "UPDATE blocks SET pending = false WHERE block_id = $1") ;;;
  format_to_trx_buf ("EXECUTE sbi_plan('" ++ block_id ++ "');" ++ LF) ;;;
  ret PG_OK.

Definition add_stat (key value : string) : M (pg * trx_context) Z :=
  on_pg (PREPARE_SQL_ONCE "as_plan" "INSERT INTO stats VALUES($1, $2, now(), now())") ;;;
  format_to_trx_buf ("EXECUTE as_plan('" ++ key ++ "','" ++ value ++ "');" ++ LF) ;;;
  ret PG_OK.

Definition upd_stat (key value : string) : M (pg * trx_context) Z :=
  on_pg (PREPARE_SQL_ONCE "us_plan" "UPDATE stats SET value = $1 WHERE key = $2") ;;;
  format_to_trx_buf ("EXECUTE us_plan('" ++ value ++ "','" ++ key ++ "');" ++ LF) ;;;
  ret PG_OK.

(** The decimal digits [boost::lexical_cast<int64_t>] reads. *)
Definition digit_value (c : ascii) : option Z :=
  let n := nat_of_ascii c in
  if ((48 <=? n) && (n <=? 57))%nat then Some (Z.of_nat (n - 48)) else None.

Fixpoint read_digits (acc : Z) (s : string) : option Z :=
  match s with
  | EmptyString => Some acc
  | String c s' =>
      match digit_value c with
      | Some d => read_digits (10 * acc + d)%Z s'
      | None => None
      end
  end.

(** [boost::lexical_cast<int64_t>(std::string)]: an optional sign, at least
    one digit, nothing else, and a value that fits; [None] is
    [bad_lexical_cast]. *)
Definition lexical_cast_int64 (s : string) : option Z :=
  let signed (neg : bool) (digits : string) : option Z :=
    match digits with
    | EmptyString => None
    | _ =>
        match read_digits 0%Z digits with
        | Some v =>
            let v' := if neg then (- v)%Z else v in
            if ((- 2 ^ 63 <=? v') && (v' <=? 2 ^ 63 - 1))%Z then Some v' else None
        | None => None
        end
    end in
  match s with
  | EmptyString => None
  | String c rest =>
      if Ascii.eqb c "-" then signed true rest
      else if Ascii.eqb c "+" then signed false rest
      else signed false s
  end.

(** The [N128] sentinels [add_meta] compares against; a [name128] is held as
    the text it casts to. *)
Definition name128 : Type := string.
Definition N128_fungible : name128 := ".fungible".
Definition N128_group : name128 := ".group".
Definition N128_meta : name128 := ".meta".

Record issuetoken : Type := mkIssueToken {
  it_domain : name128;
  it_names : list name128;
  it_owner : list string
}.

Record transfer : Type := mkTransfer {
  tf_domain : name128;
  tf_name : name128;
  tf_to : list string;
  tf_memo : string
}.

Record destroytoken : Type := mkDestroyToken {
  dt_domain : name128;
  dt_name : name128
}.

Record addmeta : Type := mkAddMeta {
  am_key : name128;
  am_value : string;
  am_creator : string
}.

(** An action whose payload [data_as<const addmeta&>()] yields [act_data]. *)
Record action_t : Type := mkAction {
  act_name : string;
  act_domain : name128;
  act_key : name128;
  act_data : addmeta
}.

(** The owner array shared by [add_tokens] and [upd_token]. *)
Definition owners_text (owner : list string) : string :=
  "{"
  ++ match owner with
     | [] => ""
     | _ => each (fun o => DQUOTE ++ o ++ DQUOTE ++ ",") (but_last owner)
            ++ DQUOTE ++ back owner ++ DQUOTE
     end
  ++ "}".

(** A range-for that appends one line per element. *)
Fixpoint for_each_name (names : list name128) (body : name128 -> M (pg * trx_context) unit)
  : M (pg * trx_context) unit :=
  match names with
  | [] => ret tt
  | name :: rest => body name ;;; for_each_name rest body
  end.

Definition add_tokens (it : issuetoken) : M (pg * trx_context) Z :=
  on_pg (PREPARE_SQL_ONCE "it_plan"
           "INSERT INTO tokens VALUES($1, $2, $3, $4, '{}', now());") ;;;
  (* cache owners *)
  let owners := owners_text (it_owner it) in
  let domain := it_domain it in
  for_each_name (it_names it) (fun name =>
    format_to_trx_buf ("EXECUTE it_plan('" ++ domain ++ ":" ++ name ++ "','" ++ domain
                       ++ "','" ++ name ++ "','" ++ owners ++ "');" ++ LF)) ;;;
  ret PG_OK.

Definition upd_token (tf : transfer) : M (pg * trx_context) Z :=
  on_pg (PREPARE_SQL_ONCE "tf_plan" "UPDATE tokens SET(owner) = ($1) WHERE id = $2;") ;;;
  format_to_trx_buf ("EXECUTE tf_plan('" ++ owners_text (tf_to tf) ++ "','"
                     ++ tf_domain tf ++ ":" ++ tf_name tf ++ "');") ;;;
  ret PG_OK.

Definition del_token (dt : destroytoken) : M (pg * trx_context) Z :=
  on_pg (PREPARE_SQL_ONCE "dt_plan"
           ("UPDATE tokens SET(owner) = ('{" ++ DQUOTE
            ++ "EVT00000000000000000000000000000000000000000000000000"
            ++ DQUOTE ++ "}') WHERE id = $1;")) ;;;
  format_to_trx_buf ("EXECUTE dt_plan('" ++ dt_domain dt ++ ":" ++ dt_name dt ++ "');") ;;;
  ret PG_OK.

(** The block [add_meta] runs once, behind its own flag: five statements. *)
Definition prepare_meta_plans : M pg unit :=
  call_once "__flag"
    (prepare "am_plan" "INSERT INTO metas VALUES(DEFAULT, $1, $2, $3, now());" ;;;
     prepare "amd_plan" "UPDATE domains SET metas = array_append(metas, $1) WHERE name = $2;" ;;;
     prepare "amt_plan" "UPDATE tokens SET metas = array_append(metas, $1) WHERE id = $2;" ;;;
     prepare "amg_plan" "UPDATE groups SET metas = array_append(metas, $1) WHERE name = $2;" ;;;
     prepare "amf_plan"
       "UPDATE fungibles SET metas = array_append(metas, $1) WHERE sym_id = $2;").

Definition add_meta (act : action_t) : M (pg * trx_context) Z :=
  on_pg prepare_meta_plans ;;;
  let am := act_data act in
  format_to_trx_buf ("EXECUTE am_plan('" ++ am_key am ++ "','" ++ am_value am ++ "','"
                     ++ am_creator am ++ "');" ++ LF) ;;;
  (if String.eqb (act_domain act) N128_fungible then
     (* fungibles *)
     match lexical_cast_int64 (act_key act) with
     | Some sym_id =>
         format_to_trx_buf ("EXECUTE amf_plan(lastval()," ++ fmt_d sym_id ++ ");" ++ LF)
     | None => throw bad_lexical_cast
     end
   else if String.eqb (act_domain act) N128_group then
     (* groups *)
     format_to_trx_buf ("EXECUTE amg_plan(lastval(),'" ++ act_key act ++ "');" ++ LF)
   else if String.eqb (act_key act) N128_meta then
     (* domains *)
     format_to_trx_buf ("EXECUTE amd_plan(lastval(),'" ++ act_domain act ++ "');" ++ LF)
   else
     (* tokens *)
     format_to_trx_buf ("EXECUTE amt_plan(lastval(),'" ++ act_domain act ++ ":"
                        ++ act_key act ++ "');" ++ LF)) ;;;
  ret PG_OK.

Set Implicit Arguments.

Section Documents.

(** Serialisation of policy documents is the job of the fc library:
    [fc::to_variant], [variant::operator[]] and [fc::json::to_string]. *)
Variable variant : Type.
Variable permission_def : Type.
Variable group : Type.
Variable permission_to_variant : permission_def -> variant.
Variable group_to_variant : group -> variant.
Variable variant_at : variant -> string -> variant.
Variable json_to_string : variant -> string.
Variable group_key : group -> string.

Record newdomain : Type := mkNewDomain {
  nd_name : name128;
  nd_creator : string;
  nd_issue : permission_def;
  nd_transfer : permission_def;
  nd_manage : permission_def
}.

Record updatedomain : Type := mkUpdateDomain {
  ud_name : name128;
  ud_issue : option permission_def;
  ud_transfer : option permission_def;
  ud_manage : option permission_def
}.

Record newgroup : Type := mkNewGroup {
  ng_name : name128;
  ng_group : group
}.

Record updategroup : Type := mkUpdateGroup {
  ug_name : name128;
  ug_group : group
}.

Record symbol : Type := mkSymbol {
  symbol_text : string;
  symbol_id : Z
}.

Record newfungible : Type := mkNewFungible {
  nf_name : string;
  nf_sym_name : string;
  nf_sym : symbol;
  nf_creator : string;
  nf_issue : permission_def;
  nf_manage : permission_def
}.

Record updfungible : Type := mkUpdFungible {
  uf_sym_id : Z;
  uf_issue : option permission_def;
  uf_manage : option permission_def
}.

Definition permission_json (p : permission_def) : string :=
  json_to_string (permission_to_variant p).

(** The text an optional document replaces when it is [valid()]. *)
Definition json_or (default : string) (p : option permission_def) : string :=
  match p with
  | Some v => permission_json v
  | None => default
  end.

Definition add_domain (nd : newdomain) : M (pg * trx_context) Z :=
  on_pg (PREPARE_SQL_ONCE "nd_plan"
           "INSERT INTO domains VALUES($1, $2, $3, $4, $5, '{}', now());") ;;;
  let issue := permission_to_variant (nd_issue nd) in
  let transfer := permission_to_variant (nd_transfer nd) in
  let manage := permission_to_variant (nd_manage nd) in
  format_to_trx_buf ("EXECUTE nd_plan('" ++ nd_name nd ++ "','" ++ nd_creator nd ++ "','"
                     ++ json_to_string issue ++ "','" ++ json_to_string transfer ++ "','"
                     ++ json_to_string manage ++ "');" ++ LF) ;;;
  ret PG_OK.

Definition upd_domain (ud : updatedomain) : M (pg * trx_context) Z :=
  on_pg (PREPARE_SQL_ONCE "ud_plan"
           "UPDATE domains SET(issue, transfer, manage) = ($1, $2, $3) WHERE name = $4;") ;;;
  let i := json_or "issue" (ud_issue ud) in
  let t := json_or "transfer" (ud_transfer ud) in
  let m := json_or "manage" (ud_manage ud) in
  format_to_trx_buf ("EXECUTE up_plan('" ++ i ++ "','" ++ t ++ "','" ++ m ++ "', '"
                     ++ ud_name ud ++ "');" ++ LF) ;;;
  ret PG_OK.

Definition add_group (ng : newgroup) : M (pg * trx_context) Z :=
  on_pg (PREPARE_SQL_ONCE "ng_plan" "INSERT INTO groups VALUES($1, $2, $3, '{}', now());") ;;;
  let def := group_to_variant (ng_group ng) in
  format_to_trx_buf ("EXECUTE ng_plan('" ++ ng_name ng ++ "','" ++ group_key (ng_group ng)
                     ++ "','" ++ json_to_string (variant_at def "root") ++ "');" ++ LF) ;;;
  ret PG_OK.

Definition upd_group (ug : updategroup) : M (pg * trx_context) Z :=
  on_pg (PREPARE_SQL_ONCE "ug_plan" "UPDATE groups SET(def) = ($1) WHERE name = $2;") ;;;
  let u := group_to_variant (ug_group ug) in
  format_to_trx_buf ("EXECUTE ug_plan('" ++ ug_name ug ++ "','"
                     ++ json_to_string (variant_at u "root") ++ "');") ;;;
  ret PG_OK.

Definition add_fungible (nf : newfungible) : M (pg * trx_context) Z :=
  on_pg (PREPARE_SQL_ONCE "nf_plan"
           "INSERT INTO fungibles VALUES($1, $2, $3, $4, $5, $6, $7, '{}', now());") ;;;
  let issue := permission_to_variant (nf_issue nf) in
  let manage := permission_to_variant (nf_manage nf) in
  format_to_trx_buf ("EXECUTE nf_plan('" ++ nf_name nf ++ "','" ++ nf_sym_name nf ++ "','"
                     ++ symbol_text (nf_sym nf) ++ "'," ++ fmt_d (symbol_id (nf_sym nf))
                     ++ ",'" ++ nf_creator nf ++ "','" ++ json_to_string issue ++ "','"
                     ++ json_to_string manage ++ "');" ++ LF) ;;;
  ret PG_OK.

Definition upd_fungible (uf : updfungible) : M (pg * trx_context) Z :=
  on_pg (PREPARE_SQL_ONCE "uf_plan"
           "UPDATE fungibles SET(issue, manage) = ($1, $2) WHERE sym_id = $3;") ;;;
  let i := json_or "issue" (uf_issue uf) in
  let m := json_or "manage" (uf_manage uf) in
  format_to_trx_buf ("EXECUTE uf_plan('" ++ i ++ "','" ++ m ++ "'," ++ fmt_d (uf_sym_id uf)
                     ++ ");" ++ LF) ;;;
  ret PG_OK.

(** The line [upd_domain] appends. *)
Definition domain_update_line (ud : updatedomain) : string :=
  "EXECUTE up_plan('" ++ json_or "issue" (ud_issue ud)
  ++ "','" ++ json_or "transfer" (ud_transfer ud)
  ++ "','" ++ json_or "manage" (ud_manage ud)
  ++ "', '" ++ ud_name ud ++ "');" ++ LF.

End Documents.

Unset Implicit Arguments.

(** [tctx.commit()] *)
Definition commit : M (pg * trx_context) unit :=
  fun s => let (p, r) := commit_trx_context (snd s) (fst s) in ((p, snd s), r).

Definition prepare_stats : M pg Z :=
  fun p =>
    let tctx := new_trx_context in
    let (s, r) := (add_stat "version" pg_version ;;;
                   add_stat "last_sync_block_id" "" ;;;
                   commit ;;;
                   ret PG_OK) (p, tctx) in
    (fst s, r).

(** ** Vocabulary of the specification *)

(** The requests of one bulk-ingest round trip. *)
Definition copy_round_trip (table data : string) : list request :=
  [ReqExec ("COPY " ++ table ++ " FROM STDIN;"); ReqPutCopyData data;
   ReqPutCopyEnd; ReqGetResult].

(** The streams of a copy context, in flush order, with their tables. *)
Definition streams (cctx : copy_context) : list (string * string) :=
  [("blocks", blocks_copy_ cctx); ("transactions", trxs_copy_ cctx);
   ("actions", actions_copy_ cctx)].

Definition non_empty (stream : string * string) : bool :=
  negb (String.eqb (snd stream) "").

(** *** Reading a statement-log line back

    The store's reader for [EXECUTE name('a','b',...);] under the standard
    quoting convention: a literal runs from a quote to the next quote that is
    not doubled, a doubled quote stands for one quote, and every other
    character, backslash included, stands for itself. *)

Inductive scan_state : Type :=
| Expect
| InLiteral (acc : string)
| AfterQuote (acc : string).

Fixpoint scan_args (st : scan_state) (done : list string) (s : string)
  : option (list string * string) :=
  match s with
  | EmptyString => None
  | String c rest =>
      match st with
      | Expect =>
          if Ascii.eqb c squote then scan_args (InLiteral "") done rest
          else if Ascii.eqb c " " then scan_args Expect done rest
          else None
      | InLiteral acc =>
          if Ascii.eqb c squote then scan_args (AfterQuote acc) done rest
          else scan_args (InLiteral (acc ++ String c EmptyString)) done rest
      | AfterQuote acc =>
          if Ascii.eqb c squote
          then scan_args (InLiteral (acc ++ String squote EmptyString)) done rest
          else if Ascii.eqb c "," then scan_args Expect (done ++ [acc])%list rest
          else if Ascii.eqb c ")" then Some ((done ++ [acc])%list, rest)
          else None
      end
  end.

Fixpoint strip_prefix (pre s : string) : option string :=
  match pre, s with
  | EmptyString, _ => Some s
  | String a pre', String b s' => if Ascii.eqb a b then strip_prefix pre' s' else None
  | String _ _, EmptyString => None
  end.

(** The text before the first [sep] and the text after it. *)
Fixpoint split_at (sep : ascii) (s : string) : option (string * string) :=
  match s with
  | EmptyString => None
  | String c rest =>
      if Ascii.eqb c sep then Some (EmptyString, rest)
      else match split_at sep rest with
           | Some (before, after) => Some (String c before, after)
           | None => None
           end
  end.

(** The statement a line invokes. *)
Definition invoked_plan (line : string) : option string :=
  match strip_prefix "EXECUTE " line with
  | Some rest => option_map fst (split_at "(" rest)
  | None => None
  end.

(** The statement a line invokes and the values of its arguments. *)
Definition parse_execute (line : string) : option (string * list string) :=
  match strip_prefix "EXECUTE " line with
  | Some rest =>
      match split_at "(" rest with
      | Some (name, after) =>
          match scan_args Expect [] after with
          | Some (args, tail) =>
              if String.eqb tail (";" ++ LF) || String.eqb tail ";"
              then Some (name, args) else None
          | None => None
          end
      | None => None
      end
  | None => None
  end.

Fixpoint no_quote (s : string) : bool :=
  match s with
  | EmptyString => true
  | String c rest => negb (Ascii.eqb c squote) && no_quote rest
  end.

(** *** Lines of the statement log *)

Definition stat_line (key value : string) : string :=
  "EXECUTE as_plan('" ++ key ++ "','" ++ value ++ "');" ++ LF.

(** The insert line of one issued token. *)
Definition token_line (domain owners : string) (name : name128) : string :=
  "EXECUTE it_plan('" ++ domain ++ ":" ++ name ++ "','" ++ domain ++ "','" ++ name
  ++ "','" ++ owners ++ "');" ++ LF.

(** The metadata-insert line. *)
Definition meta_insert_line (am : addmeta) : string :=
  "EXECUTE am_plan('" ++ am_key am ++ "','" ++ am_value am ++ "','" ++ am_creator am
  ++ "');" ++ LF.

(** The line that appends the just-inserted id to the owner's list. *)
Definition owner_line (plan key : string) : string :=
  "EXECUTE " ++ plan ++ "(lastval()," ++ key ++ ");" ++ LF.

(** *** The statements of a log

    The store's reader cuts a log after every semicolon that is outside a
    literal.  A quote opens or closes a literal (a doubled quote closes and
    reopens it, so it stays inside), and a line end outside a literal
    separates statements and belongs to none. *)
Fixpoint statements_from (in_literal : bool) (current s : string) : list string :=
  match s with
  | EmptyString => if String.eqb current "" then [] else [current]
  | String c rest =>
      let current' := current ++ String c EmptyString in
      if in_literal then statements_from (negb (Ascii.eqb c squote)) current' rest
      else if Ascii.eqb c squote then statements_from true current' rest
      else if Ascii.eqb c ";" then current' :: statements_from false "" rest
      else if Ascii.eqb c (ascii_of_nat 10) then statements_from false current rest
      else statements_from false current' rest
  end.

Definition statements (log : string) : list string := statements_from false "" log.

(** Text that holds no quote, no semicolon and no line end. *)
Fixpoint plain (s : string) : bool :=
  match s with
  | EmptyString => true
  | String c rest =>
      negb (Ascii.eqb c squote) && negb (Ascii.eqb c ";")
      && negb (Ascii.eqb c (ascii_of_nat 10)) && plain rest
  end.

(** The statement of an owner-update line. *)
Definition owner_statement (plan key : string) : string :=
  "EXECUTE " ++ plan ++ "(lastval()," ++ key ++ ");".

(** The five statements [add_meta] registers behind its single flag. *)
Definition meta_plans : list (string * string) :=
  [("am_plan", "INSERT INTO metas VALUES(DEFAULT, $1, $2, $3, now());");
   ("amd_plan", "UPDATE domains SET metas = array_append(metas, $1) WHERE name = $2;");
   ("amt_plan", "UPDATE tokens SET metas = array_append(metas, $1) WHERE id = $2;");
   ("amg_plan", "UPDATE groups SET metas = array_append(metas, $1) WHERE name = $2;");
   ("amf_plan", "UPDATE fungibles SET metas = array_append(metas, $1) WHERE sym_id = $2;")].

(** The arguments of a line, each between quotes, separated by commas. *)
Fixpoint quoted_args (args : list string) : string :=
  match args with
  | [] => ""
  | [a] => "'" ++ a ++ "'"
  | a :: rest => "'" ++ a ++ "'," ++ quoted_args rest
  end.

Definition execute_line (name : string) (args : list string) (tail : string) : string :=
  "EXECUTE " ++ name ++ "(" ++ quoted_args args ++ ")" ++ tail.

Fixpoint no_paren (s : string) : bool :=
  match s with
  | EmptyString => true
  | String c rest => negb (Ascii.eqb c "(") && no_paren rest
  end.

(** *** States in which the translators run

    Every [PREPARE_SQL_ONCE] site of this file, with the flag that guards it. *)
Definition prepare_sites : list (string * string * string) :=
  [("__glb_plan_flag", "glb_plan",
    "SELECT block_id FROM blocks ORDER BY block_num DESC LIMIT 1;");
   ("__sbi_plan_flag", "sbi_plan", "UPDATE blocks SET pending = false WHERE block_id = $1");
   ("__as_plan_flag", "as_plan", "INSERT INTO stats VALUES($1, $2, now(), now())");
   ("__rs_plan_flag", "rs_plan", "SELECT value FROM stats WHERE key = $1");
   ("__us_plan_flag", "us_plan", "UPDATE stats SET value = $1 WHERE key = $2");
   ("__nd_plan_flag", "nd_plan",
    "INSERT INTO domains VALUES($1, $2, $3, $4, $5, '{}', now());");
   ("__ud_plan_flag", "ud_plan",
    "UPDATE domains SET(issue, transfer, manage) = ($1, $2, $3) WHERE name = $4;");
   ("__it_plan_flag", "it_plan", "INSERT INTO tokens VALUES($1, $2, $3, $4, '{}', now());");
   ("__tf_plan_flag", "tf_plan", "UPDATE tokens SET(owner) = ($1) WHERE id = $2;");
   ("__dt_plan_flag", "dt_plan",
    "UPDATE tokens SET(owner) = ('{" ++ DQUOTE
    ++ "EVT00000000000000000000000000000000000000000000000000"
    ++ DQUOTE ++ "}') WHERE id = $1;");
   ("__ng_plan_flag", "ng_plan", "INSERT INTO groups VALUES($1, $2, $3, '{}', now());");
   ("__ug_plan_flag", "ug_plan", "UPDATE groups SET(def) = ($1) WHERE name = $2;");
   ("__nf_plan_flag", "nf_plan",
    "INSERT INTO fungibles VALUES($1, $2, $3, $4, $5, $6, $7, '{}', now());");
   ("__uf_plan_flag", "uf_plan",
    "UPDATE fungibles SET(issue, manage) = ($1, $2) WHERE sym_id = $3;");
   ("__flag", "am_plan", "INSERT INTO metas VALUES(DEFAULT, $1, $2, $3, now());");
   ("__flag", "amd_plan",
    "UPDATE domains SET metas = array_append(metas, $1) WHERE name = $2;");
   ("__flag", "amt_plan",
    "UPDATE tokens SET metas = array_append(metas, $1) WHERE id = $2;");
   ("__flag", "amg_plan",
    "UPDATE groups SET metas = array_append(metas, $1) WHERE name = $2;");
   ("__flag", "amf_plan",
    "UPDATE fungibles SET metas = array_append(metas, $1) WHERE sym_id = $2;")].

Definition option_eqb (a b : option string) : bool :=
  match a, b with
  | Some x, Some y => String.eqb x y
  | None, None => true
  | _, _ => false
  end.

(** A statement is prepared on the session exactly when its flag has fired. *)
Definition site_consistent (p : pg) (site : string * string * string) : bool :=
  let '(flag, name, sql) := site in
  option_eqb (lookup name (prepared (conn_ p)))
             (if flag_set flag p then Some sql else None).

Definition once_consistent (p : pg) : bool := forallb (site_consistent p) prepare_sites.

(** The server answers every request of the session. *)
Definition healthy (c : PGconn) : Prop := forall r, server_accepts c r = true.

Definition ready (p : pg) : Prop := healthy (conn_ p) /\ once_consistent p = true.

(** A site that owns its flag: [PREPARE_SQL_ONCE(name, sql)]. *)
Definition own_site (name sql : string) : bool :=
  existsb (fun '(f, n, s) => String.eqb n name) prepare_sites
  && forallb (fun '(f, n, s) =>
                Bool.eqb (String.eqb n name) (String.eqb f ("__" ++ name ++ "_flag"))
                && implb (String.eqb n name) (String.eqb s sql)) prepare_sites.

(** *** What an operation keeps, sends and registers *)

(** What an operation leaves alone in the store and in the object. *)
Definition same_store (p p' : pg) : Prop :=
  stats (conn_ p') = stats (conn_ p)
  /\ blocks (conn_ p') = blocks (conn_ p)
  /\ last_sync_block_id_ p' = last_sync_block_id_ p.

(** The value stored under a key of the stats table. *)
Definition stat_value (p : pg) (key : string) : option string :=
  lookup key (stats (conn_ p)).

(** What a flush of [cctx] sends when nothing fails: one round trip per
    non-empty stream, in the order of [streams]. *)
Definition flush_requests (cctx : copy_context) : list request :=
  flat_map (fun s => copy_round_trip (fst s) (snd s)) (filter non_empty (streams cctx)).

(** [sent_now] is a beginning of [expected]. *)
Definition starts (sent_now expected : list request) : Prop :=
  exists rest, expected = (sent_now ++ rest)%list.

(** [m] sends a beginning of [expected], and all of it when it returns
    normally. *)
Definition sends {A} (m : M pg A) (expected : list request) : Prop :=
  forall p,
    exists sent_now,
      wire (conn_ (fst (m p))) = (wire (conn_ p) ++ sent_now)%list
      /\ starts sent_now expected
      /\ (forall a, snd (m p) = Ok a -> sent_now = expected).

(** [m] appends one line, and the statement the line invokes by name is
    registered on the session when [m] returns. *)
Definition invokes_registered (m : M (pg * trx_context) Z) : Prop :=
  forall p tctx,
    ready p ->
    exists p' line name sql,
      m (p, tctx) = ((p', mkTrx (trx_buf_ tctx ++ line)), Ok PG_OK)
      /\ invoked_plan line = Some name
      /\ lookup name (prepared (conn_ p')) = Some sql
      /\ ready p'.

(** *** Sample states *)

Definition answering : request -> bool := fun _ => true.

(** A process that has just connected: nothing prepared, nothing sent. *)
Definition connected (st : list stat_row) (bl : list block_row) : pg :=
  mkPg (mkConn st bl [] answering []) "" [].

Definition block_a : block_row := mkBlockRow "00000001aa" 1.
Definition block_b : block_row := mkBlockRow "00000002bb" 2.

Definition synced : pg :=
  connected [("version", "1.0.0"); ("last_sync_block_id", "00000002bb")] [block_a; block_b].

Definition diverged : pg :=
  connected [("version", "1.0.0"); ("last_sync_block_id", "00000001aa")] [block_a; block_b].

Definition uninitialized : pg := connected [] [].

Definition obsolete : pg := connected [("version", "0.9.9")] [].

Definition meta_of_fungible : action_t :=
  mkAction "addmeta" ".fungible" "3" (mkAddMeta "logo" "png" "creator").

Definition meta_of_word_key : action_t :=
  mkAction "addmeta" ".fungible" "abc" (mkAddMeta "logo" "png" "creator").

(** A metadata value that closes its literal and carries statements of its
    own. *)
Definition meta_of_quoted_value : action_t :=
  mkAction "addmeta" "d1" "t1"
    (mkAddMeta "k"
       ("v','c');" ++ LF ++ "EXECUTE amd_plan(lastval(),'victim');" ++ LF
        ++ "EXECUTE am_plan('k2','v2")
       "c").

(** The identity serialisation, for documents that are already text. *)
Definition text_of (s : string) : string := s.
Definition first_of (v : string) (key : string) : string := v.

Definition sample_domain : newdomain string :=
  mkNewDomain "dom" "EVT5creator" "{issue}" "{transfer}" "{manage}".

Definition sample_group_update : updategroup string :=
  mkUpdateGroup "g1" "{threshold:1}".

Definition one_key : trx_t -> chain_id_type -> list string := fun _ _ => ["EVT6key"].

Definition one_signature : trx_t :=
  mkSignedTrx "trx1" 1 "2019-01-01T00:00:00" 1000000 "EVT6payer" ["SIG_K1_sig"] [].

Definition block_seven : add_context := mkAdd new_copy_context "00000007cc" 7 "ts" "chain".

(** ** Schema operations *)

Definition drop_table (table : string) : M pg Z :=
  let stmt := "DROP TABLE IF EXISTS " ++ table ++ ";" in
  r <- on_conn (fun c => PQexec c stmt) ;;
  EVT_ASSERT (status_eqb (PQresultStatus r) PGRES_COMMAND_OK) postgres_exec_exception ;;;
  ret PG_OK.

Definition drop_all_tables : M pg Z :=
  drop_table "stats" ;;;
  drop_table "blocks" ;;;
  drop_table "transactions" ;;;
  drop_table "metas" ;;;
  drop_table "actions" ;;;
  drop_table "domains" ;;;
  drop_table "tokens" ;;;
  drop_table "groups" ;;;
  drop_table "fungibles" ;;;
  ret PG_OK.

(** The table definitions, character for character. *)

Definition create_stats_table : string :=
"CREATE TABLE IF NOT EXISTS public.stats
                                (
                                    key         character varying(21)    NOT NULL,
                                    value       character varying(64)    NOT NULL,
                                    created_at  timestamp with time zone NOT NULL DEFAULT now(),
                                    updated_at  timestamp with time zone NOT NULL DEFAULT now(),
                                    CONSTRAINT  stats_pkey PRIMARY KEY (key)
                                )
                                WITH (
                                    OIDS = FALSE
                                )
                                TABLESPACE pg_default;".

Definition create_blocks_table : string :=
"CREATE TABLE IF NOT EXISTS public.blocks
                                 (
                                     block_id        character(64)            NOT NULL,
                                     block_num       integer                  NOT NULL,
                                     prev_block_id   character(64)            NOT NULL,
                                     timestamp       timestamp with time zone NOT NULL,
                                     trx_merkle_root character(64)            NOT NULL,
                                     trx_count       integer                  NOT NULL,
                                     producer        character varying(21)    NOT NULL,
                                     pending         boolean                  NOT NULL DEFAULT true,
                                     created_at      timestamp with time zone NOT NULL DEFAULT now()
                                 )
                                 WITH (
                                     OIDS = FALSE
                                 )
                                 TABLESPACE pg_default;
 
                                 CREATE INDEX IF NOT EXISTS block_id_index
                                     ON public.blocks USING btree
                                     (block_id)
                                     TABLESPACE pg_default;
 
                                 CREATE INDEX IF NOT EXISTS block_num_index
                                     ON public.blocks USING btree
                                     (block_num)
                                     TABLESPACE pg_default;".

Definition create_trxs_table : string :=
"CREATE TABLE IF NOT EXISTS public.transactions
                               (
                                   trx_id        character(64)            NOT NULL,
                                   seq_num       integer                  NOT NULL,
                                   block_id      character(64)            NOT NULL,
                                   block_num     integer                  NOT NULL,
                                   action_count  integer                  NOT NULL,
                                   timestamp     timestamp with time zone NOT NULL,
                                   expiration    timestamp with time zone NOT NULL,
                                   max_charge    integer                  NOT NULL,
                                   payer         character(53)            NOT NULL,
                                   pending       boolean                  NOT NULL DEFAULT true,
                                   type          character varying(7)     NOT NULL,
                                   status        character varying(9)     NOT NULL,
                                   signatures    character(120)[]         NOT NULL,
                                   keys          character(53)[]          NOT NULL,
                                   elapsed       integer                  NOT NULL,
                                   charge        integer                  NOT NULL,
                                   suspend_name  character varying(21),
                                   created_at    timestamp with time zone NOT NULL DEFAULT now()
                               )
                               WITH (
                                   OIDS = FALSE
                               )
                               TABLESPACE pg_default;
                               CREATE INDEX IF NOT EXISTS block_num_index
                                   ON public.transactions USING btree
                                   (block_num)
                                   TABLESPACE pg_default;".

Definition create_actions_table : string :=
"CREATE TABLE IF NOT EXISTS public.actions
                                  (
                                      block_id   character(64)            NOT NULL,
                                      block_num  integer                  NOT NULL,
                                      trx_id     character varying(64)    NOT NULL,
                                      seq_num    integer                  NOT NULL,
                                      name       character varying(13)    NOT NULL,
                                      domain     character varying(21)    NOT NULL,
                                      key        character varying(21)    NOT NULL,
                                      data       jsonb                    NOT NULL,
                                      created_at timestamp with time zone NOT NULL DEFAULT now()
                                  )
                                  WITH (
                                      OIDS = FALSE
                                  )
                                  TABLESPACE pg_default;
                                  CREATE INDEX IF NOT EXISTS trx_id_index
                                      ON public.actions USING btree
                                      (trx_id)
                                      TABLESPACE pg_default;".

Definition create_metas_table : string :=
"CREATE SEQUENCE IF NOT EXISTS metas_id_seq;
                                CREATE TABLE IF NOT EXISTS metas
                                (
                                    id         integer                   NOT NULL  DEFAULT nextval('metas_id_seq'),
                                    key        character varying(21)     NOT NULL,
                                    value      text                      NOT NULL,
                                    creator    character varying(57)     NOT NULL,
                                    created_at timestamp with time zone  NOT NULL  DEFAULT now(),
                                    CONSTRAINT metas_pkey PRIMARY KEY (id)
                                )
                                WITH (
                                    OIDS = FALSE
                                )
                                TABLESPACE pg_default;".

Definition create_domains_table : string :=
"CREATE TABLE IF NOT EXISTS public.domains
                                  (
                                      name       character varying(21)       NOT NULL,
                                      creator    character(53)               NOT NULL,
                                      issue      jsonb                       NOT NULL,
                                      transfer   jsonb                       NOT NULL,
                                      manage     jsonb                       NOT NULL,
                                      metas      integer[]                   NOT NULL,
                                      created_at timestamp with time zone    NOT NULL  DEFAULT now(),
                                      CONSTRAINT domains_pkey PRIMARY KEY (name)
                                  )
                                  WITH (
                                      OIDS = FALSE
                                  )
                                  TABLESPACE pg_default;
                                  CREATE INDEX IF NOT EXISTS creator_index
                                      ON public.domains USING btree
                                      (creator)
                                      TABLESPACE pg_default;".

Definition create_tokens_table : string :=
"CREATE TABLE IF NOT EXISTS public.tokens
                                 (
                                     id         character varying(42)       NOT NULL,
                                     domain     character varying(21)       NOT NULL,
                                     name       character varying(21)       NOT NULL,
                                     owner      character(53)[]             NOT NULL,
                                     metas      integer[]                   NOT NULL,
                                     created_at timestamp with time zone    NOT NULL  DEFAULT now(),
                                     CONSTRAINT tokens_pkey PRIMARY KEY (id)
                                 )
                                 WITH (
                                     OIDS = FALSE
                                 )
                                 TABLESPACE pg_default;
                                 CREATE INDEX IF NOT EXISTS owner_index
                                     ON public.tokens USING btree
                                     (owner)
                                     TABLESPACE pg_default;".

Definition create_groups_table : string :=
"CREATE TABLE IF NOT EXISTS public.groups
                                 (
                                     name       character varying(21)       NOT NULL,
                                     key        character(53)               NOT NULL,
                                     def        jsonb                       NOT NULL,
                                     metas      integer[]                   NOT NULL,
                                     created_at timestamp with time zone    NOT NULL  DEFAULT now(),
                                     CONSTRAINT groups_pkey PRIMARY KEY (name)
                                 )
                                 WITH (
                                     OIDS = FALSE
                                 )
                                 TABLESPACE pg_default;
                                 CREATE INDEX IF NOT EXISTS creator_index
                                     ON public.groups USING btree
                                     (key)
                                     TABLESPACE pg_default;".

Definition create_fungibles_table : string :=
"CREATE TABLE IF NOT EXISTS public.fungibles
                                    (
                                        name       character varying(21)       NOT NULL,
                                        sym_name   character varying(21)       NOT NULL,
                                        sym        character varying(21)       NOT NULL,
                                        sym_id     bigint                      NOT NULL,
                                        creator    character(53)               NOT NULL,
                                        issue      jsonb                       NOT NULL,
                                        manage     jsonb                       NOT NULL,
                                        metas      integer[]                   NOT NULL,
                                        created_at timestamp with time zone    NOT NULL  DEFAULT now(),
                                        CONSTRAINT fungibles_pkey PRIMARY KEY (sym_id)
                                    )
                                    WITH (
                                        OIDS = FALSE
                                    )
                                    TABLESPACE pg_default;
                                    CREATE INDEX IF NOT EXISTS creator_index
                                        ON public.fungibles USING btree
                                        (creator)
                                        TABLESPACE pg_default;".

(** The range-for of [prepare_tables]: execute, assert, next. *)
Fixpoint for_each_stmt (stmts : list string) : M pg unit :=
  match stmts with
  | [] => ret tt
  | stmt :: rest =>
      r <- on_conn (fun c => PQexec c stmt) ;;
      EVT_ASSERT (status_eqb (PQresultStatus r) PGRES_COMMAND_OK) postgres_exec_exception ;;;
      for_each_stmt rest
  end.

Definition prepare_tables : M pg Z :=
  let stmts := [create_stats_table; create_blocks_table; create_trxs_table;
                create_metas_table; create_actions_table; create_domains_table;
                create_tokens_table; create_groups_table; create_fungibles_table] in
  for_each_stmt stmts ;;;
  ret PG_OK.

(** ** More vocabulary *)

(** The tables [drop_all_tables] names, in its order. *)
Definition dropped_tables : list string :=
  ["stats"; "blocks"; "transactions"; "metas"; "actions"; "domains"; "tokens"; "groups";
   "fungibles"].

(** [m] only ever adds text at the end of the statement log. *)
Definition appends {A} (m : M (pg * trx_context) A) : Prop :=
  forall s, exists text,
    trx_buf_ (snd (fst (m s))) = trx_buf_ (snd s) ++ text.

(** [m] leaves a ready state ready, however it returns. *)
Definition keeps_ready {A} (m : M pg A) : Prop :=
  forall p, ready p -> ready (fst (m p)).

Definition translator_keeps_ready {A} (m : M (pg * trx_context) A) : Prop :=
  forall p tctx, ready p -> ready (fst (fst (m (p, tctx)))).

(** On a server that answers, [m] returns [a] and the server still answers. *)
Definition succeeds (m : M pg Z) (a : Z) : Prop :=
  forall p, healthy (conn_ p) -> exists p', m p = (p', Ok a) /\ healthy (conn_ p').

(** What a row-append operation may change in a context: the text of the
    transaction stream grows at its end, nothing else moves. *)
Definition grows_trxs_only (before after : add_context) : Prop :=
  blocks_copy_ (cctx after) = blocks_copy_ (cctx before)
  /\ actions_copy_ (cctx after) = actions_copy_ (cctx before)
  /\ (exists text, trxs_copy_ (cctx after) = trxs_copy_ (cctx before) ++ text)
  /\ block_id after = block_id before /\ block_num after = block_num before
  /\ ts after = ts before /\ chain_id after = chain_id before.

(** The 64-bit range of [int64_t]. *)
Definition in_int64 (z : Z) : bool := ((- 2 ^ 63 <=? z) && (z <=? 2 ^ 63 - 1))%Z.

(** A server that answers everything but the end-of-data message. *)
Definition deaf_to_copy_end : request -> bool :=
  fun r => match r with ReqPutCopyEnd => false | _ => true end.

(** A server that refuses to prepare [amd_plan], and only that. *)
Definition refuses_amd_plan : request -> bool :=
  fun r => match r with
           | ReqPrepare name _ => negb (String.eqb name "amd_plan")
           | _ => true
           end.

Definition served_by (server : request -> bool) : pg :=
  mkPg (mkConn [] [] [] server []) "" [].


(** Requests that register a statement. *)
Definition is_prepare (r : request) : bool :=
  match r with
  | ReqPrepare _ _ => true
  | _ => false
  end.

(** [m] sends nothing but registrations, however it returns. *)
Definition prepares_only {A} (m : M pg A) : Prop :=
  forall p, exists reqs,
    wire (conn_ (fst (m p))) = (wire (conn_ p) ++ reqs)%list
    /\ forallb is_prepare reqs = true.

Definition registers_only {A} (m : M (pg * trx_context) A) : Prop :=
  forall s, exists reqs,
    wire (conn_ (fst (fst (m s)))) = (wire (conn_ (fst s)) ++ reqs)%list
    /\ forallb is_prepare reqs = true.

(** The registration a [PREPARE_SQL_ONCE] site sends: none once its flag has
    fired. *)
Definition registration (name sql : string) (p : pg) : list request :=
  if flag_set ("__" ++ name ++ "_flag") p then [] else [ReqPrepare name sql].

(** What a flush of the statement log sends: the whole log in one request,
    nothing for an empty log. *)
Definition trx_requests (tctx : trx_context) : list request :=
  if (String.length (trx_buf_ tctx) =? 0)%nat then [] else [ReqExec (trx_buf_ tctx)].


(** * Theorems *)

(** ** Text *)

Lemma append_assoc (a b c : string) : (a ++ b) ++ c = a ++ (b ++ c).
Proof. induction a as [|x a IH]; simpl; [reflexivity | now rewrite IH]. Qed.

Lemma append_nil_r (a : string) : a ++ "" = a.
Proof. induction a as [|x a IH]; simpl; [reflexivity | now rewrite IH]. Qed.

(** [std::string]'s three-way comparison is the lexicographic order on
    unsigned bytes. *)
Lemma traits_compare_lexicographic (a b : string) :
  basic_string_compare a b = String.compare a b.
Proof.
  unfold basic_string_compare. revert b.
  induction a as [|x a IH]; intros [|y b]; simpl; try reflexivity.
  destruct (Ascii.compare x y); try reflexivity. apply IH.
Qed.

Lemma string_ge_ltb (a b : string) : string_ge a b = negb (String.ltb a b).
Proof.
  unfold string_ge, String.ltb. rewrite traits_compare_lexicographic.
  destruct (String.compare a b); reflexivity.
Qed.

(** ** The prepare-once discipline *)

Lemma option_eqb_eq (a b : option string) : option_eqb a b = true <-> a = b.
Proof.
  destruct a, b; simpl; split; intros H; try discriminate; try reflexivity.
  - apply String.eqb_eq in H. now subst.
  - injection H as ->. apply String.eqb_refl.
Qed.

Lemma once_consistent_site (p : pg) (flag name sql : string) :
  once_consistent p = true -> In (flag, name, sql) prepare_sites ->
  lookup name (prepared (conn_ p)) = if flag_set flag p then Some sql else None.
Proof.
  intros H Hin. unfold once_consistent in H. rewrite forallb_forall in H.
  specialize (H _ Hin). now apply option_eqb_eq in H.
Qed.

Lemma own_site_listed (name sql : string) :
  own_site name sql = true -> In ("__" ++ name ++ "_flag", name, sql) prepare_sites.
Proof.
  unfold own_site. intros H. apply andb_prop in H as [Hex Hall].
  apply existsb_exists in Hex as [[[f n] s] [Hin Hn]].
  rewrite forallb_forall in Hall. specialize (Hall _ Hin). cbv beta iota in Hall.
  rewrite Hn in Hall.
  apply andb_prop in Hall as [Hf Hs]. simpl in Hs.
  apply String.eqb_eq in Hn. apply String.eqb_eq in Hs.
  apply Bool.eqb_prop in Hf. symmetry in Hf. apply String.eqb_eq in Hf.
  now subst.
Qed.

Lemma same_store_refl (p : pg) : same_store p p.
Proof. repeat split. Qed.

Lemma same_store_trans (p q r : pg) : same_store p q -> same_store q r -> same_store p r.
Proof.
  unfold same_store. intros (A & B & C) (D & E & F).
  repeat split; congruence.
Qed.

(** In a ready state [PREPARE_SQL_ONCE] returns normally, leaves the state
    ready, and the statement is registered under its name afterwards. *)
Lemma prepare_once_ready (name sql : string) (p : pg) :
  own_site name sql = true -> ready p ->
  exists p', PREPARE_SQL_ONCE name sql p = (p', Ok tt)
             /\ ready p' /\ same_store p p'
             /\ lookup name (prepared (conn_ p')) = Some sql.
Proof.
  intros Hown [Hh Hc].
  pose proof (once_consistent_site p _ _ _ Hc (own_site_listed _ _ Hown)) as Hl.
  unfold PREPARE_SQL_ONCE, call_once.
  destruct (flag_set ("__" ++ name ++ "_flag") p) eqn:Hflag.
  - exists p. repeat split; auto.
  - unfold prepare, bind, on_conn, PQprepare.
    rewrite Hh, Hl. simpl.
    eexists. split; [reflexivity|]. split; [|split].
    + split; [exact Hh|].
      unfold once_consistent. apply forallb_forall. intros [[f n] s] Hin.
      unfold site_consistent, flag_set. simpl.
      pose proof (once_consistent_site p _ _ _ Hc Hin) as Hn.
      unfold own_site in Hown. apply andb_prop in Hown as [_ Hall].
      rewrite forallb_forall in Hall. specialize (Hall _ Hin). cbv beta iota in Hall.
      apply andb_prop in Hall as [Hf Hs]. apply Bool.eqb_prop in Hf.
      simpl in Hf. rewrite (String.eqb_sym name n), <- Hf.
      destruct (String.eqb n name) eqn:E; simpl in Hs |- *.
      * rewrite String.eqb_sym. exact Hs.
      * rewrite Hn. unfold flag_set. apply option_eqb_eq. reflexivity.
    + repeat split.
    + simpl. now rewrite String.eqb_refl.
Qed.

(** A session that has just connected is ready, whatever its tables hold. *)
Lemma connected_ready (st : list stat_row) (bl : list block_row) : ready (connected st bl).
Proof. split; [intros r; reflexivity | reflexivity]. Qed.

(** ** Reading the store *)

Lemma ready_sent (p : pg) (r : request) :
  ready p -> ready (set_conn p (sent (conn_ p) r)).
Proof. intros [Hh Hc]. split; [exact Hh | exact Hc]. Qed.

Lemma exec_prepared_ready (p : pg) (name sql : string) (params : list string) :
  healthy (conn_ p) -> lookup name (prepared (conn_ p)) = Some sql ->
  on_conn (fun c => PQexecPrepared c name params) p
  = (set_conn p (sent (conn_ p) (ReqExecPrepared name params)),
     Ok (run_plan (conn_ p) sql params)).
Proof.
  intros Hh Hl. unfold on_conn, PQexecPrepared. now rewrite Hh, Hl.
Qed.

Lemma run_plan_stat (c : PGconn) (key : string) :
  run_plan c "SELECT value FROM stats WHERE key = $1" [key]
  = mkResult PGRES_TUPLES_OK
      (map (fun kv => [snd kv]) (filter (fun kv => String.eqb (fst kv) key) (stats c))).
Proof. reflexivity. Qed.

Lemma run_plan_latest (c : PGconn) :
  run_plan c "SELECT block_id FROM blocks ORDER BY block_num DESC LIMIT 1;" []
  = mkResult PGRES_TUPLES_OK
      (match latest_row (blocks c) with
       | Some r => [[row_block_id r]]
       | None => []
       end).
Proof. reflexivity. Qed.

(** The first tuple of the stats query is the value stored under the key. *)
Lemma stat_query_lookup (key : string) (rows : list stat_row) (value : string) :
  let r := mkResult PGRES_TUPLES_OK
             (map (fun kv => [snd kv])
                  (filter (fun kv => String.eqb (fst kv) key) rows)) in
  (if (PQntuples r =? 0)%nat then (PG_FAIL, value) else (PG_OK, PQgetvalue r 0 0))
  = match lookup key rows with
    | Some x => (PG_OK, x)
    | None => (PG_FAIL, value)
    end.
Proof.
  induction rows as [|[k v] rows IH]; simpl; [reflexivity|].
  destruct (String.eqb k key); simpl; [reflexivity | exact IH].
Qed.

Lemma read_stat_ready (key value : string) (p : pg) :
  ready p ->
  exists p', read_stat key value p
             = (p', Ok (match lookup key (stats (conn_ p)) with
                        | Some x => (PG_OK, x)
                        | None => (PG_FAIL, value)
                        end))
             /\ ready p' /\ same_store p p'.
Proof.
  intros Hr.
  destruct (prepare_once_ready "rs_plan" "SELECT value FROM stats WHERE key = $1" p)
    as (p1 & E1 & R1 & S1 & L1); [reflexivity | exact Hr |].
  unfold read_stat, bind. rewrite E1.
  rewrite (exec_prepared_ready p1 _ _ [key] (proj1 R1) L1).
  rewrite run_plan_stat. cbn [PQresultStatus status_eqb EVT_ASSERT ret].
  eexists. split; [|split].
  - destruct S1 as (Hs & _). rewrite <- Hs.
    rewrite <- (stat_query_lookup key (stats (conn_ p1)) value).
    cbv zeta. destruct (PQntuples _ =? 0)%nat; reflexivity.
  - now apply ready_sent.
  - destruct S1 as (A & B & C). repeat split; assumption.
Qed.

Lemma get_latest_block_id_ready (block_id : string) (p : pg) :
  ready p ->
  exists p', get_latest_block_id block_id p
             = (p', Ok (match latest_row (blocks (conn_ p)) with
                        | Some r => (PG_OK, row_block_id r)
                        | None => (PG_FAIL, block_id)
                        end))
             /\ ready p' /\ same_store p p'.
Proof.
  intros Hr.
  destruct (prepare_once_ready "glb_plan"
              "SELECT block_id FROM blocks ORDER BY block_num DESC LIMIT 1;" p)
    as (p1 & E1 & R1 & S1 & L1); [reflexivity | exact Hr |].
  unfold get_latest_block_id, bind. rewrite E1.
  rewrite (exec_prepared_ready p1 _ _ [] (proj1 R1) L1).
  rewrite run_plan_latest. cbn [PQresultStatus status_eqb EVT_ASSERT ret].
  eexists. split; [|split].
  - destruct S1 as (_ & Hb & _). rewrite <- Hb.
    destruct (latest_row (blocks (conn_ p1))); reflexivity.
  - now apply ready_sent.
  - destruct S1 as (A & B & C). repeat split; assumption.
Qed.

(** The row [latest_row] answers carries the greatest block number. *)
Lemma latest_row_greatest (rows : list block_row) (row : block_row) :
  latest_row rows = Some row ->
  In row rows /\ forall r, In r rows -> (row_block_num r <= row_block_num row)%Z.
Proof.
  revert row. induction rows as [|x rows IH]; intros row H; simpl in H; [discriminate|].
  destruct (latest_row rows) as [m|] eqn:E.
  - destruct (IH m eq_refl) as [Hin Hmax].
    destruct (row_block_num x <? row_block_num m)%Z eqn:C; injection H as <-.
    + apply Z.ltb_lt in C. split; [now right|].
      intros r [<-|Hr]; [lia | now apply Hmax].
    + apply Z.ltb_ge in C. split; [now left|].
      intros r [<-|Hr]; [lia | specialize (Hmax r Hr); lia].
  - injection H as <-. destruct rows; [|simpl in E; destruct (latest_row rows); 
      [destruct (_ <? _)%Z|]; discriminate].
    split; [now left|]. intros r [<-|[]]. lia.
Qed.

Lemma latest_row_none (rows : list block_row) : latest_row rows = None <-> rows = [].
Proof.
  destruct rows as [|x rows]; simpl; split; intros H; try reflexivity; try discriminate.
  destruct (latest_row rows); [destruct (_ <? _)%Z|]; discriminate.
Qed.

Lemma stat_value_absent (p : pg) (key : string) :
  stat_value p key = None <-> forall v, ~ In (key, v) (stats (conn_ p)).
Proof.
  unfold stat_value. induction (stats (conn_ p)) as [|[k x] rows IH]; simpl.
  - split; [intros _ v [] | reflexivity].
  - destruct (String.eqb k key) eqn:E.
    + apply String.eqb_eq in E. subst k. split; [discriminate|].
      intros H. exfalso. apply (H x). now left.
    + apply String.eqb_neq in E. rewrite IH. split.
      * intros H v [Heq|Hin]; [injection Heq as -> _; now apply E | now apply (H v)].
      * intros H v Hin. apply (H v). now right.
Qed.

Lemma check_last_sync_block_run (p : pg) :
  ready p ->
  exists p1,
    same_store p p1
    /\ check_last_sync_block p
       = match stat_value p "last_sync_block_id" with
         | None => (p1, Throw postgres_sync_exception)
         | Some v =>
             match latest_row (blocks (conn_ p)) with
             | None => (p1, Throw postgres_sync_exception)
             | Some row =>
                 if String.eqb v (row_block_id row)
                 then (set_last_sync_block_id p1 (row_block_id row), Ok PG_OK)
                 else (p1, Throw postgres_sync_exception)
             end
         end.
Proof.
  intros Hr. unfold check_last_sync_block, stat_value.
  destruct (read_stat_ready "last_sync_block_id" "" p Hr) as (p1 & E1 & R1 & S1).
  unfold bind at 1. rewrite E1.
  destruct (lookup "last_sync_block_id" (stats (conn_ p))) as [v|] eqn:Hv.
  - destruct (get_latest_block_id_ready "" p1 R1) as (p2 & E2 & R2 & S2).
    exists p2. split; [now apply (same_store_trans p p1 p2)|].
    cbn [truthy PG_OK Z.eqb negb bind ret]. unfold bind at 1. rewrite E2.
    destruct S1 as (_ & Hb & _). rewrite Hb.
    destruct (latest_row (blocks (conn_ p))) as [row|].
    + cbn [truthy PG_OK Z.eqb negb]. unfold EVT_ASSERT, bind, ret, throw.
      destruct (String.eqb v (row_block_id row)); reflexivity.
    + reflexivity.
  - exists p1. split; [exact S1 | reflexivity].
Qed.

(** C1.  In a ready state the start-up sync check raises the sync error when
    the stat [last_sync_block_id] is absent, and when its value differs from
    the block id of the latest row of the block table (a row with the greatest
    block number); when the value equals that id the check returns [PG_OK]
    and the object records the id as the last synced block. *)
Theorem check_last_sync_block_gate (p : pg) :
  ready p ->
  (stat_value p "last_sync_block_id" = None ->
   snd (check_last_sync_block p) = Throw postgres_sync_exception)
  /\ (forall v row,
        stat_value p "last_sync_block_id" = Some v ->
        latest_row (blocks (conn_ p)) = Some row ->
        (In row (blocks (conn_ p))
         /\ forall r, In r (blocks (conn_ p)) -> (row_block_num r <= row_block_num row)%Z)
        /\ (v <> row_block_id row ->
            snd (check_last_sync_block p) = Throw postgres_sync_exception)
        /\ (v = row_block_id row ->
            snd (check_last_sync_block p) = Ok PG_OK
            /\ last_sync_block_id_ (fst (check_last_sync_block p)) = row_block_id row)).
Proof.
  intros Hr. destruct (check_last_sync_block_run p Hr) as (p1 & S1 & E).
  split.
  - intros Habs. rewrite E, Habs. reflexivity.
  - intros v row Hv Hrow. rewrite E, Hv, Hrow.
    split; [now apply latest_row_greatest|]. split.
    + intros Hne. apply String.eqb_neq in Hne. rewrite Hne. reflexivity.
    + intros ->. rewrite String.eqb_refl. split; reflexivity.
Qed.

Lemma check_last_sync_block_gate_witness :
  snd (check_last_sync_block synced) = Ok PG_OK
  /\ last_sync_block_id_ (fst (check_last_sync_block synced)) = "00000002bb".
Proof.
  assert (R : ready synced) by (split; [intros r; reflexivity | reflexivity]).
  exact (proj2 (proj2 (proj2 (check_last_sync_block_gate synced R)
                         "00000002bb" block_b eq_refl eq_refl)) eq_refl).
Defined.

(** A stat that lags behind the block table is reported, not accepted. *)
Example check_last_sync_block_diverged :
  snd (check_last_sync_block diverged) = Throw postgres_sync_exception.
Proof. reflexivity. Qed.

(** An empty block table fails the check as well. *)
Example check_last_sync_block_no_block :
  snd (check_last_sync_block (connected [("last_sync_block_id", "")] []))
  = Throw postgres_sync_exception.
Proof. reflexivity. Qed.

Lemma check_version_run (p : pg) :
  ready p ->
  exists p1,
    same_store p p1
    /\ check_version p
       = match stat_value p "version" with
         | None => (p1, Throw postgres_version_exception)
         | Some cur_ver =>
             if String.ltb cur_ver pg_version
             then (p1, Throw postgres_version_exception)
             else (p1, Ok PG_OK)
         end.
Proof.
  intros Hr. unfold check_version, stat_value.
  destruct (read_stat_ready "version" "" p Hr) as (p1 & E1 & R1 & S1).
  exists p1. split; [exact S1|].
  unfold bind at 1. rewrite E1.
  destruct (lookup "version" (stats (conn_ p))) as [v|].
  - cbn [truthy PG_OK Z.eqb negb bind ret]. rewrite string_ge_ltb.
    destruct (String.ltb v pg_version); reflexivity.
  - reflexivity.
Qed.

(** C5.  In a ready state the version gate raises the version error when the
    stat [version] is absent or its text is lexicographically less than the
    running version, and returns [PG_OK] when the text is lexicographically
    equal to or greater than it. *)
Theorem check_version_gate (p : pg) :
  ready p ->
  (stat_value p "version" = None ->
   snd (check_version p) = Throw postgres_version_exception)
  /\ (forall cur_ver,
        stat_value p "version" = Some cur_ver ->
        (String.compare cur_ver pg_version = Lt ->
         snd (check_version p) = Throw postgres_version_exception)
        /\ (String.compare cur_ver pg_version <> Lt ->
            snd (check_version p) = Ok PG_OK)).
Proof.
  intros Hr. destruct (check_version_run p Hr) as (p1 & S1 & E).
  split.
  - intros Habs. rewrite E, Habs. reflexivity.
  - intros v Hv. rewrite E, Hv. unfold String.ltb. split.
    + intros ->. reflexivity.
    + intros Hge. destruct (String.compare v pg_version); try reflexivity.
      now elim Hge.
Qed.

Lemma check_version_gate_witness :
  snd (check_version obsolete) = Throw postgres_version_exception.
Proof.
  assert (R : ready obsolete) by (split; [intros r; reflexivity | reflexivity]).
  exact (proj1 (proj2 (check_version_gate obsolete R) "0.9.9" eq_refl) eq_refl).
Defined.

Example check_version_current : snd (check_version synced) = Ok PG_OK.
Proof. reflexivity. Qed.

Example check_version_newer :
  snd (check_version (connected [("version", "1.0.1")] [])) = Ok PG_OK.
Proof. reflexivity. Qed.

Example check_version_absent :
  snd (check_version uninitialized) = Throw postgres_version_exception.
Proof. reflexivity. Qed.

(** ** Flushing the buffers *)

Lemma prefix_nil (s : string) : String.prefix "" s = true.
Proof. destruct s; reflexivity. Qed.

Lemma size_positive (s : string) : (0 <? String.length s)%nat = non_empty ("", s).
Proof. destruct s; reflexivity. Qed.

Lemma sends_ret {A} (a : A) : sends (ret a) [].
Proof.
  intros p. exists []. cbn [ret fst snd]. rewrite app_nil_r.
  repeat split. now exists [].
Qed.

Lemma sends_bind {A B} (m : M pg A) (k : A -> M pg B) (e1 e2 : list request) :
  sends m e1 -> (forall a, sends (k a) e2) -> sends (bind m k) (e1 ++ e2)%list.
Proof.
  intros Hm Hk p. destruct (Hm p) as (n1 & W1 & S1 & O1).
  unfold bind. destruct (m p) as [p1 [a|e]]; cbn [fst snd] in *.
  - destruct (Hk a p1) as (n2 & W2 & S2 & O2).
    rewrite (O1 a eq_refl) in W1.
    exists (e1 ++ n2)%list. rewrite W2, W1, <- app_assoc. split; [reflexivity|]. split.
    + destruct S2 as [rest ->]. exists rest. now rewrite <- app_assoc.
    + intros b Hb. now rewrite (O2 b Hb).
  - exists n1. split; [exact W1|]. split; [|intros a H; discriminate H].
    destruct S1 as [rest ->]. exists (rest ++ e2)%list. now rewrite <- app_assoc.
Qed.

(** A bulk-ingest round trip sends its four requests in order and stops at
    the first failure it notices; it returns normally only after all four. *)
Lemma sends_block_copy_to (table data : string) :
  sends (block_copy_to table data) (copy_round_trip table data).
Proof.
  intros p.
  unfold block_copy_to, bind, on_conn, PQexec, PQputCopyData, PQputCopyEnd, PQgetResult,
    copy_round_trip.
  cbn [conn_ set_conn sent server_accepts wire fst snd].
  destruct (server_accepts (conn_ p) (ReqExec ("COPY " ++ table ++ " FROM STDIN;"))) eqn:A1;
    cbn [PQresultStatus EVT_ASSERT status_eqb ret throw fatal conn_ set_conn sent
         server_accepts wire fst snd].
  - change (String.prefix "COPY " ("COPY " ++ table ++ " FROM STDIN;"))
      with (String.prefix "" (table ++ " FROM STDIN;")).
    rewrite prefix_nil.
    cbn [PQresultStatus EVT_ASSERT status_eqb ret throw fatal conn_ set_conn sent
         server_accepts wire fst snd].
    destruct (server_accepts (conn_ p) (ReqPutCopyData data)) eqn:A2;
      cbn [Z.eqb Pos.eqb EVT_ASSERT ret throw conn_ set_conn sent server_accepts wire
           fst snd].
    + destruct (server_accepts (conn_ p) ReqPutCopyEnd) eqn:A3;
        cbn [Z.eqb Pos.eqb EVT_ASSERT ret throw conn_ set_conn sent server_accepts wire
             fst snd];
        destruct (server_accepts (conn_ p) ReqGetResult) eqn:A4;
        cbn [PQresultStatus EVT_ASSERT status_eqb ret throw fatal conn_ set_conn sent
             server_accepts wire fst snd];
        (eexists; repeat rewrite <- app_assoc; simpl;
         split; [reflexivity|];
         split; [exists []; reflexivity | intros rc H; first [reflexivity | discriminate]]).
    + eexists; repeat rewrite <- app_assoc; simpl.
      split; [reflexivity|].
      split; [eexists; reflexivity | intros rc H; discriminate].
  - eexists. split; [reflexivity|].
    split; [eexists; reflexivity | intros rc H; discriminate].
Qed.

Lemma sends_when (table data : string) :
  sends (when (0 <? String.length data)%nat (block_copy_to table data))
        (if non_empty (table, data) then copy_round_trip table data else []).
Proof.
  rewrite size_positive. unfold non_empty, when. cbn [snd].
  destruct (negb (data =? "")).
  - rewrite <- (app_nil_r (copy_round_trip table data)).
    apply sends_bind; [apply sends_block_copy_to | intros a; apply sends_ret].
  - apply sends_ret.
Qed.

Lemma flush_requests_streams (cctx : copy_context) :
  flush_requests cctx
  = ((if non_empty ("blocks", blocks_copy_ cctx)
      then copy_round_trip "blocks" (blocks_copy_ cctx) else [])
     ++ (if non_empty ("transactions", trxs_copy_ cctx)
         then copy_round_trip "transactions" (trxs_copy_ cctx) else [])
     ++ (if non_empty ("actions", actions_copy_ cctx)
         then copy_round_trip "actions" (actions_copy_ cctx) else []))%list.
Proof.
  unfold flush_requests, streams. cbn [filter].
  destruct (non_empty ("blocks", blocks_copy_ cctx)),
           (non_empty ("transactions", trxs_copy_ cctx)),
           (non_empty ("actions", actions_copy_ cctx)); reflexivity.
Qed.

(** A flush sends a beginning of [flush_requests], all of it when it returns
    normally; nothing is sent for an empty stream. *)
Lemma commit_copy_context_sends (cctx : copy_context) :
  sends (commit_copy_context cctx) (flush_requests cctx).
Proof.
  rewrite flush_requests_streams. unfold commit_copy_context.
  apply sends_bind; [apply sends_when | intros _].
  apply sends_bind; [apply sends_when | intros _].
  apply sends_when.
Qed.

(** With a server that answers, the flush returns normally. *)
Lemma commit_copy_context_healthy (cctx : copy_context) (p : pg) :
  healthy (conn_ p) -> snd (commit_copy_context cctx p) = Ok tt.
Proof.
  intros Hh.
  assert (step : forall table data q, healthy (conn_ q) ->
            exists q', when (0 <? String.length data)%nat (block_copy_to table data) q
                       = (q', Ok tt) /\ healthy (conn_ q')).
  { intros table data q Hq. unfold when.
    destruct (0 <? String.length data)%nat.
    - unfold block_copy_to, bind, on_conn, PQexec, PQputCopyData, PQputCopyEnd, PQgetResult.
      cbn. rewrite Hq, prefix_nil. cbn. rewrite Hq. cbn. rewrite !Hq. cbn.
      eexists. split; [reflexivity|]. exact Hq.
    - exists q. split; [reflexivity | exact Hq]. }
  unfold commit_copy_context.
  destruct (step "blocks" (blocks_copy_ cctx) p Hh) as (p1 & E1 & H1).
  unfold bind at 1. rewrite E1.
  destruct (step "transactions" (trxs_copy_ cctx) p1 H1) as (p2 & E2 & H2).
  unfold bind at 1. rewrite E2.
  destruct (step "actions" (actions_copy_ cctx) p2 H2) as (p3 & E3 & H3).
  rewrite E3. reflexivity.
Qed.

(** C10.  Committing an empty buffer talks to nobody: an empty statement log
    returns at once with the object untouched, and so does a copy context
    whose three buffers are empty.  In general a copy context sends the
    round trips of its non-empty streams only, blocks first, then
    transactions, then actions: what it sends is a beginning of that
    sequence, and the whole of it when the flush returns normally (as it does
    whenever the server answers). *)
Theorem commit_skips_empty_buffers :
  (forall (p : pg) (tctx : trx_context),
      trx_buf_ tctx = "" -> commit_trx_context tctx p = (p, Ok tt))
  /\ (forall (p : pg) (cctx : copy_context),
        blocks_copy_ cctx = "" -> trxs_copy_ cctx = "" -> actions_copy_ cctx = "" ->
        commit_copy_context cctx p = (p, Ok tt))
  /\ (forall (p : pg) (cctx : copy_context),
        exists sent_now,
          wire (conn_ (fst (commit_copy_context cctx p))) = (wire (conn_ p) ++ sent_now)%list
          /\ starts sent_now (flush_requests cctx)
          /\ (snd (commit_copy_context cctx p) = Ok tt -> sent_now = flush_requests cctx)
          /\ (healthy (conn_ p) -> snd (commit_copy_context cctx p) = Ok tt)).
Proof.
  split; [|split].
  - intros p tctx H. unfold commit_trx_context. rewrite H. reflexivity.
  - intros p cctx Hb Ht Ha. unfold commit_copy_context. rewrite Hb, Ht, Ha. reflexivity.
  - intros p cctx.
    destruct (commit_copy_context_sends cctx p) as (now & W & S & O).
    exists now. split; [exact W|]. split; [exact S|].
    split; [exact (O tt) | apply commit_copy_context_healthy].
Qed.

Lemma commit_skips_empty_buffers_witness :
  commit_trx_context new_trx_context synced = (synced, Ok tt)
  /\ commit_copy_context new_copy_context synced = (synced, Ok tt).
Proof.
  split.
  - exact (proj1 commit_skips_empty_buffers synced new_trx_context eq_refl).
  - exact (proj1 (proj2 commit_skips_empty_buffers) synced new_copy_context
             eq_refl eq_refl eq_refl).
Defined.

(** Only the transaction stream holds rows: one round trip, for its table. *)
Example commit_copy_context_one_stream :
  wire (conn_ (fst (commit_copy_context (mkCopy "" ("row" ++ LF) "") synced)))
  = [ReqExec "COPY transactions FROM STDIN;"; ReqPutCopyData ("row" ++ LF);
     ReqPutCopyEnd; ReqGetResult].
Proof. reflexivity. Qed.

(** ** Translators *)

(** The common shape of a translator: register the statement once, append one
    line, return [PG_OK]. *)
Lemma translate_one_line (name sql line : string) (p : pg) (tctx : trx_context) :
  own_site name sql = true -> ready p ->
  exists p',
    (on_pg (PREPARE_SQL_ONCE name sql) ;;; format_to_trx_buf line ;;; ret PG_OK) (p, tctx)
    = ((p', mkTrx (trx_buf_ tctx ++ line)), Ok PG_OK)
    /\ ready p' /\ same_store p p'
    /\ lookup name (prepared (conn_ p')) = Some sql.
Proof.
  intros Hown Hr.
  destruct (prepare_once_ready name sql p Hown Hr) as (p' & E & R & S & L).
  exists p'. split; [|auto].
  unfold bind, on_pg. cbn [fst snd]. rewrite E. reflexivity.
Qed.

Lemma each_cons (f : string -> string) (x : string) (l : list string) :
  each f (x :: l) = f x ++ each f l.
Proof.
  unfold each. destruct l; simpl; [now rewrite append_nil_r | reflexivity].
Qed.

Lemma concat_cons (sep x y : string) (l : list string) :
  String.concat sep (x :: y :: l) = x ++ sep ++ String.concat sep (y :: l).
Proof. reflexivity. Qed.

Lemma but_last_cons (x y : string) (l : list string) :
  but_last (x :: y :: l) = x :: but_last (y :: l).
Proof. unfold but_last. simpl. now rewrite Nat.sub_0_r. Qed.

Lemma back_cons (x y : string) (l : list string) : back (x :: y :: l) = back (y :: l).
Proof. unfold back. simpl. now rewrite Nat.sub_0_r. Qed.

(** The loop over all elements but the last, followed by the last one, writes
    the comma-separated list. *)
Lemma loop_then_back (f q : string -> string) (l : list string) :
  (forall o, f o = q o ++ ",") -> l <> [] ->
  each f (but_last l) ++ q (back l) = String.concat "," (map q l).
Proof.
  intros Hf. induction l as [|x [|y l] IH]; intros Hne.
  - now elim Hne.
  - reflexivity.
  - rewrite but_last_cons, back_cons, each_cons, append_assoc, IH by discriminate.
    cbn [map]. rewrite concat_cons, Hf. now rewrite append_assoc.
Qed.

Lemma quoted_then_comma (o : string) :
  DQUOTE ++ o ++ DQUOTE ++ "," = (DQUOTE ++ o ++ DQUOTE) ++ ",".
Proof. now rewrite !append_assoc. Qed.

(** The owner array of the source is the array literal of the owner list. *)
Lemma owners_text_array (owner : list string) : owners_text owner = array_text owner.
Proof.
  unfold owners_text, array_text. destruct owner as [|x l]; [reflexivity|].
  change (DQUOTE ++ back (x :: l) ++ DQUOTE)
    with ((fun v => DQUOTE ++ v ++ DQUOTE) (back (x :: l))).
  rewrite <- append_assoc.
  now rewrite (loop_then_back _ (fun v => DQUOTE ++ v ++ DQUOTE))
    by (try discriminate; exact quoted_then_comma).
Qed.

Lemma for_each_name_lines (f : name128 -> string) (names : list name128)
      (p : pg) (tctx : trx_context) :
  for_each_name names (fun name => format_to_trx_buf (f name)) (p, tctx)
  = ((p, mkTrx (trx_buf_ tctx ++ each f names)), Ok tt).
Proof.
  revert tctx. induction names as [|n names IH]; intros tctx.
  - cbn [for_each_name ret]. unfold each. cbn. rewrite append_nil_r. now destruct tctx.
  - cbn [for_each_name]. unfold bind, format_to_trx_buf at 1. cbn [fst snd].
    rewrite IH. cbn [trx_buf_]. now rewrite each_cons, append_assoc.
Qed.

(** C6.  In a ready state the token-issuance translator appends, for an
    action carrying N names, exactly N insert lines and nothing else: one per
    name, in the order of the names, each with the id domain:name and each
    with the same array literal of the action's owner list. *)
Theorem add_tokens_one_line_per_name (p : pg) (tctx : trx_context) (it : issuetoken) :
  ready p ->
  exists p' lines,
    add_tokens it (p, tctx)
    = ((p', mkTrx (trx_buf_ tctx ++ String.concat "" lines)), Ok PG_OK)
    /\ List.length lines = List.length (it_names it)
    /\ lines = map (token_line (it_domain it) (array_text (it_owner it))) (it_names it).
Proof.
  intros Hr.
  destruct (prepare_once_ready "it_plan"
              "INSERT INTO tokens VALUES($1, $2, $3, $4, '{}', now());" p)
    as (p' & E & R & S & L); [reflexivity | exact Hr |].
  exists p', (map (token_line (it_domain it) (array_text (it_owner it))) (it_names it)).
  split; [|split; [apply length_map | reflexivity]].
  unfold add_tokens. unfold bind at 1. unfold on_pg. cbn [fst snd]. rewrite E.
  unfold bind. rewrite for_each_name_lines. rewrite owners_text_array. reflexivity.
Qed.

Lemma add_tokens_one_line_per_name_witness :
  exists p' lines,
    add_tokens (mkIssueToken "dom" ["t1"; "t2"] ["o1"; "o2"]) (synced, new_trx_context)
    = ((p', mkTrx ("" ++ String.concat "" lines)), Ok PG_OK)
    /\ List.length lines = 2%nat
    /\ lines = map (token_line "dom" (array_text ["o1"; "o2"])) ["t1"; "t2"].
Proof.
  assert (R : ready synced) by (split; [intros r; reflexivity | reflexivity]).
  exact (add_tokens_one_line_per_name synced new_trx_context
           (mkIssueToken "dom" ["t1"; "t2"] ["o1"; "o2"]) R).
Defined.

(** An action without names appends nothing. *)
Example add_tokens_no_name :
  trx_buf_ (snd (fst (add_tokens (mkIssueToken "dom" [] ["o1"]) (synced, new_trx_context))))
  = "".
Proof. reflexivity. Qed.

(** *** Metadata attachment *)

Ltac listed := simpl; tauto.

Lemma prepare_fresh (name sql : string) (p : pg) :
  healthy (conn_ p) -> lookup name (prepared (conn_ p)) = None ->
  prepare name sql p
  = (set_conn p (with_prepared (sent (conn_ p) (ReqPrepare name sql)) name sql), Ok tt).
Proof.
  intros Hh Hl. unfold prepare, bind, on_conn, PQprepare. now rewrite Hh, Hl.
Qed.

Lemma prepare_meta_plans_ready (p : pg) :
  ready p ->
  exists p', prepare_meta_plans p = (p', Ok tt)
             /\ ready p' /\ same_store p p'
             /\ forall name sql, In (name, sql) meta_plans ->
                                 lookup name (prepared (conn_ p')) = Some sql.
Proof.
  intros [Hh Hc]. unfold prepare_meta_plans, call_once.
  assert (Hsite : forall name sql, In (name, sql) meta_plans ->
            lookup name (prepared (conn_ p))
            = if flag_set "__flag" p then Some sql else None).
  { intros name sql Hin. apply (once_consistent_site p "__flag" name sql Hc).
    simpl in Hin.
    repeat (destruct Hin as [Hin|Hin]; [injection Hin as <- <-; listed |]).
    destruct Hin. }
  destruct (flag_set "__flag" p) eqn:Hflag.
  - exists p. repeat split; auto.
  - pose proof (Hsite "am_plan" _ ltac:(listed)) as L1.
    pose proof (Hsite "amd_plan" _ ltac:(listed)) as L2.
    pose proof (Hsite "amt_plan" _ ltac:(listed)) as L3.
    pose proof (Hsite "amg_plan" _ ltac:(listed)) as L4.
    pose proof (Hsite "amf_plan" _ ltac:(listed)) as L5.
    unfold bind.
    rewrite (prepare_fresh "am_plan") by assumption. cbv beta iota.
    rewrite (prepare_fresh "amd_plan") by assumption. cbv beta iota.
    rewrite (prepare_fresh "amt_plan") by assumption. cbv beta iota.
    rewrite (prepare_fresh "amg_plan") by assumption. cbv beta iota.
    rewrite (prepare_fresh "amf_plan") by assumption. cbv beta iota.
    eexists. split; [reflexivity|]. split; [|split].
    + split; [exact Hh|].
      unfold once_consistent. apply forallb_forall. intros [[f n] s] Hin.
      pose proof (once_consistent_site p f n s Hc Hin) as Hn.
      unfold site_consistent, flag_set.
      simpl in Hin.
      repeat (destruct Hin as [Hin|Hin];
              [injection Hin as <- <- <-;
               cbn [conn_ raise_flag set_conn sent with_prepared prepared once_flags
                    existsb lookup String.eqb Ascii.eqb Bool.eqb orb];
               try (rewrite Hn; apply option_eqb_eq; reflexivity);
               apply option_eqb_eq; reflexivity |]).
      destruct Hin.
    + repeat split.
    + intros name sql Hin. simpl in Hin.
      repeat (destruct Hin as [Hin|Hin]; [injection Hin as <- <-; reflexivity |]).
      destruct Hin.
Qed.

Lemma add_meta_run (p : pg) (tctx : trx_context) (act : action_t) :
  ready p ->
  exists p',
    ready p' /\ same_store p p'
    /\ (forall name sql, In (name, sql) meta_plans ->
                         lookup name (prepared (conn_ p')) = Some sql)
    /\ add_meta act (p, tctx)
       = let inserted := mkTrx (trx_buf_ tctx ++ meta_insert_line (act_data act)) in
         let updated (line : string) :=
           ((p', mkTrx (trx_buf_ inserted ++ line)), Ok PG_OK) in
         if String.eqb (act_domain act) N128_fungible then
           match lexical_cast_int64 (act_key act) with
           | Some sym_id => updated (owner_line "amf_plan" (fmt_d sym_id))
           | None => ((p', inserted), Throw bad_lexical_cast)
           end
         else if String.eqb (act_domain act) N128_group then
           updated (owner_line "amg_plan" ("'" ++ act_key act ++ "'"))
         else if String.eqb (act_key act) N128_meta then
           updated (owner_line "amd_plan" ("'" ++ act_domain act ++ "'"))
         else
           updated (owner_line "amt_plan" ("'" ++ act_domain act ++ ":" ++ act_key act ++ "'")).
Proof.
  intros Hr. destruct (prepare_meta_plans_ready p Hr) as (p' & E & R & S & L).
  exists p'. split; [exact R|]. split; [exact S|]. split; [exact L|].
  unfold add_meta.
  unfold bind at 1. unfold on_pg. cbn [fst snd]. rewrite E.
  unfold bind at 1. unfold format_to_trx_buf at 1. cbn [fst snd].
  cbv zeta. unfold meta_insert_line, owner_line.
  destruct (String.eqb (act_domain act) N128_fungible).
  - destruct (lexical_cast_int64 (act_key act)); unfold bind, format_to_trx_buf, throw, ret;
      cbn [fst snd trx_buf_]; rewrite ?append_assoc; reflexivity.
  - destruct (String.eqb (act_domain act) N128_group);
      [|destruct (String.eqb (act_key act) N128_meta)];
      unfold bind, format_to_trx_buf, throw, ret;
      cbn [fst snd trx_buf_]; rewrite ?append_assoc; reflexivity.
Qed.

(** *** Reading lines back *)

Lemma scan_literal (v acc : string) (done : list string) (rest : string) :
  no_quote v = true ->
  scan_args (InLiteral acc) done (v ++ String squote rest)
  = scan_args (AfterQuote (acc ++ v)) done rest.
Proof.
  revert acc. induction v as [|c v IH]; intros acc Hq.
  - rewrite append_nil_r. reflexivity.
  - simpl in Hq. apply andb_prop in Hq as [Hc Hv].
    cbn [append scan_args]. apply negb_true_iff in Hc. rewrite Hc.
    rewrite IH by exact Hv. rewrite append_assoc. reflexivity.
Qed.

Lemma scan_quoted_args (args done : list string) (tail : string) :
  args <> [] -> forallb no_quote args = true ->
  scan_args Expect done (quoted_args args ++ ")" ++ tail) = Some ((done ++ args)%list, tail).
Proof.
  revert done. induction args as [|a [|b args] IH]; intros done Hne Hq.
  - now elim Hne.
  - cbn [forallb] in Hq. apply andb_prop in Hq as [Ha _].
    cbn [quoted_args]. rewrite !append_assoc. cbn [append scan_args Ascii.eqb Bool.eqb].
    change (String "'" (")" ++ tail)) with (String squote (String ")" tail)).
    rewrite scan_literal by exact Ha. reflexivity.
  - cbn [forallb] in Hq. apply andb_prop in Hq as [Ha Hrest].
    cbn [quoted_args]. rewrite !append_assoc. cbn [append scan_args Ascii.eqb Bool.eqb].
    change (String "'" ("," ++ quoted_args (b :: args) ++ ")" ++ tail))
      with (String squote (String "," (quoted_args (b :: args) ++ ")" ++ tail))).
    rewrite scan_literal by exact Ha.
    cbn [scan_args Ascii.eqb Bool.eqb].
    rewrite IH by (try discriminate; exact Hrest).
    now rewrite <- app_assoc.
Qed.

Lemma strip_prefix_append (pre s : string) : strip_prefix pre (pre ++ s) = Some s.
Proof.
  induction pre as [|c pre IH]; [now destruct s|].
  cbn [append strip_prefix]. now rewrite Ascii.eqb_refl.
Qed.

Lemma split_at_append (name rest : string) :
  no_paren name = true -> split_at "(" (name ++ String "(" rest) = Some (name, rest).
Proof.
  induction name as [|c name IH]; intros Hn.
  - reflexivity.
  - simpl in Hn. apply andb_prop in Hn as [Hc Hn]. apply negb_true_iff in Hc.
    cbn [append split_at]. rewrite Hc, IH by exact Hn. reflexivity.
Qed.

(** A line whose arguments hold no quote reads back as those arguments. *)
Lemma parse_execute_line (name : string) (args : list string) (tail : string) :
  no_paren name = true -> args <> [] -> forallb no_quote args = true ->
  tail = ";" ++ LF \/ tail = ";" ->
  parse_execute (execute_line name args tail) = Some (name, args).
Proof.
  intros Hn Hne Hq Ht. unfold parse_execute, execute_line.
  rewrite strip_prefix_append.
  change ("(" ++ quoted_args args ++ ")" ++ tail)
    with (String "(" (quoted_args args ++ ")" ++ tail)).
  rewrite split_at_append by exact Hn.
  rewrite scan_quoted_args by assumption. cbn [app].
  destruct Ht as [-> | ->]; reflexivity.
Qed.

(** *** The statements of the text [add_meta] appends *)

Lemma no_quote_append (a b : string) : no_quote (a ++ b) = no_quote a && no_quote b.
Proof.
  induction a as [|c a IH]; cbn [append no_quote]; [reflexivity|].
  now rewrite IH, andb_assoc.
Qed.

Lemma statements_plain (t current rest : string) :
  plain t = true ->
  statements_from false current (t ++ rest) = statements_from false (current ++ t) rest.
Proof.
  revert current. induction t as [|c t IH]; intros current Hp.
  - now rewrite append_nil_r.
  - cbn [plain] in Hp. rewrite !andb_true_iff, !negb_true_iff in Hp.
    destruct Hp as (((Hq & Hs) & Hl) & Ht).
    cbn [append statements_from]. cbv zeta. rewrite Hq, Hs, Hl.
    rewrite IH by exact Ht. now rewrite append_assoc.
Qed.

Lemma statements_literal (v current rest : string) :
  no_quote v = true ->
  statements_from true current (v ++ String squote rest)
  = statements_from false (current ++ v ++ String squote EmptyString) rest.
Proof.
  revert current. induction v as [|c v IH]; intros current Hq.
  - cbn [append statements_from]. cbv zeta. now rewrite Ascii.eqb_refl.
  - cbn [no_quote] in Hq. apply andb_prop in Hq as [Hc Hv]. apply negb_true_iff in Hc.
    cbn [append statements_from]. cbv zeta. rewrite Hc. cbn [negb].
    rewrite IH by exact Hv. now rewrite append_assoc.
Qed.

Lemma plain_digits (d : Decimal.uint) : plain (NilEmpty.string_of_uint d) = true.
Proof. induction d; cbn [NilEmpty.string_of_uint plain]; [reflexivity | exact IHd ..]. Qed.

Lemma plain_fmt_d (n : Z) : plain (fmt_d n) = true.
Proof.
  unfold fmt_d. destruct n as [|q|q]; [reflexivity | |];
    cbn [Z.to_int NilZero.string_of_int]; unfold NilZero.string_of_uint.
  - pose proof (plain_digits (Pos.to_uint q)) as H.
    now destruct (Pos.to_uint q).
  - pose proof (plain_digits (Pos.to_uint q)) as H.
    cbn [plain]. now destruct (Pos.to_uint q).
Qed.

Lemma statements_open (current rest : string) :
  statements_from false current (String squote rest)
  = statements_from true (current ++ String squote EmptyString) rest.
Proof. reflexivity. Qed.

Lemma statements_cut (current rest : string) :
  statements_from false current (String ";" rest)
  = (current ++ ";") :: statements_from false "" rest.
Proof. reflexivity. Qed.

Lemma statements_line_end (current rest : string) :
  statements_from false current (LF ++ rest) = statements_from false current rest.
Proof. reflexivity. Qed.

(** One quoted argument, read from its opening quote. *)
Lemma statements_argument (v current rest : string) :
  no_quote v = true ->
  statements_from false current (String squote (v ++ String squote rest))
  = statements_from false (current ++ String squote (v ++ String squote EmptyString)) rest.
Proof.
  intros Hq. rewrite statements_open, statements_literal by exact Hq.
  now rewrite append_assoc.
Qed.

(** The insert line is one statement, whatever follows it. *)
Lemma statements_insert_line (am : addmeta) (rest : string) :
  forallb no_quote [am_key am; am_value am; am_creator am] = true ->
  statements_from false "" (meta_insert_line am ++ rest)
  = execute_line "am_plan" [am_key am; am_value am; am_creator am] ";"
    :: statements_from false "" rest.
Proof.
  intros Hq. cbn [forallb] in Hq. rewrite !andb_true_iff in Hq.
  destruct Hq as (Hk & Hv & Hc & _).
  replace (meta_insert_line am ++ rest)
    with ("EXECUTE am_plan("
          ++ String squote (am_key am ++ String squote (","
          ++ String squote (am_value am ++ String squote (","
          ++ String squote (am_creator am ++ String squote (")"
          ++ String ";" (LF ++ rest))))))))
    by (unfold meta_insert_line; rewrite !append_assoc; reflexivity).
  rewrite statements_plain by reflexivity.
  rewrite statements_argument by exact Hk.
  rewrite statements_plain by reflexivity.
  rewrite statements_argument by exact Hv.
  rewrite statements_plain by reflexivity.
  rewrite statements_argument by exact Hc.
  rewrite statements_plain by reflexivity.
  rewrite statements_cut, statements_line_end.
  f_equal. unfold execute_line. cbn [quoted_args].
  repeat first [rewrite append_assoc | progress cbn [append]]. reflexivity.
Qed.

(** An owner-update line whose key is plain text, or one quoted argument, is
    one statement. *)
Lemma statements_owner_plain (plan key : string) :
  plain plan = true -> plain key = true ->
  statements_from false "" (owner_line plan key) = [owner_statement plan key].
Proof.
  intros Hp Hk.
  replace (owner_line plan key)
    with ("EXECUTE " ++ plan ++ "(lastval()," ++ key ++ ")" ++ String ";" (LF ++ ""))
    by (unfold owner_line; rewrite ?append_assoc; reflexivity).
  rewrite statements_plain by reflexivity.
  rewrite statements_plain by exact Hp.
  rewrite statements_plain by reflexivity.
  rewrite statements_plain by exact Hk.
  rewrite statements_plain by reflexivity.
  rewrite statements_cut, statements_line_end. cbn [statements_from String.eqb].
  f_equal. unfold owner_statement.
  repeat first [rewrite append_assoc | progress cbn [append]]. reflexivity.
Qed.

Lemma statements_owner_quoted (plan v : string) :
  plain plan = true -> no_quote v = true ->
  statements_from false "" (owner_line plan ("'" ++ v ++ "'"))
  = [owner_statement plan ("'" ++ v ++ "'")].
Proof.
  intros Hp Hv.
  replace (owner_line plan ("'" ++ v ++ "'"))
    with ("EXECUTE " ++ plan ++ "(lastval(),"
          ++ String squote (v ++ String squote (")" ++ String ";" (LF ++ ""))))
    by (unfold owner_line; rewrite ?append_assoc; reflexivity).
  rewrite statements_plain by reflexivity.
  rewrite statements_plain by exact Hp.
  rewrite statements_plain by reflexivity.
  rewrite statements_argument by exact Hv.
  rewrite statements_plain by reflexivity.
  rewrite statements_cut, statements_line_end. cbn [statements_from String.eqb].
  f_equal. unfold owner_statement.
  repeat first [rewrite append_assoc | progress cbn [append]]. reflexivity.
Qed.

Lemma invoked_owner_statement (plan key : string) :
  no_paren plan = true -> invoked_plan (owner_statement plan key) = Some plan.
Proof.
  intros Hp. unfold invoked_plan, owner_statement.
  rewrite strip_prefix_append.
  change ("(lastval()," ++ key ++ ");") with (String "(" ("lastval()," ++ key ++ ");")).
  now rewrite split_at_append.
Qed.

(** C4, as amended.  In a ready state, for every add-meta action whose texts
    hold no quote and whose key reads as a 64-bit integer when its domain is
    the fungible sentinel, the translator appends the metadata-insert line
    followed by one owner-update line, and the store reads the appended text
    as exactly two statements: the insert with the three values of the
    payload, then one update that passes [lastval()], the id just inserted:
    on [amf_plan] (fungibles, keyed by the number the key reads as) when the
    domain is the fungible sentinel; on [amg_plan] (groups, keyed by the key)
    when the domain is the group sentinel; otherwise on [amd_plan] (domains,
    keyed by the domain) when the key is the meta sentinel; otherwise on
    [amt_plan] (tokens, keyed by domain:key).  No other statement is
    appended, so the three other owner tables are not addressed. *)
Theorem add_meta_routes (p : pg) (tctx : trx_context) (act : action_t) :
  ready p ->
  (act_domain act = N128_fungible -> lexical_cast_int64 (act_key act) <> None) ->
  forallb no_quote [am_key (act_data act); am_value (act_data act);
                    am_creator (act_data act); act_domain act; act_key act] = true ->
  exists p' update plan key,
    add_meta act (p, tctx)
    = ((p', mkTrx (trx_buf_ tctx ++ meta_insert_line (act_data act) ++ update)), Ok PG_OK)
    /\ (forall name sql, In (name, sql) meta_plans ->
                         lookup name (prepared (conn_ p')) = Some sql)
    /\ update = owner_line plan key
    /\ statements (meta_insert_line (act_data act) ++ update)
       = [execute_line "am_plan"
            [am_key (act_data act); am_value (act_data act); am_creator (act_data act)] ";";
          owner_statement plan key]
    /\ parse_execute
         (execute_line "am_plan"
            [am_key (act_data act); am_value (act_data act); am_creator (act_data act)] ";")
       = Some ("am_plan",
               [am_key (act_data act); am_value (act_data act); am_creator (act_data act)])
    /\ invoked_plan (owner_statement plan key) = Some plan
    /\ (act_domain act = N128_fungible ->
        exists sym_id, lexical_cast_int64 (act_key act) = Some sym_id
                       /\ plan = "amf_plan" /\ key = fmt_d sym_id)
    /\ (act_domain act = N128_group ->
        plan = "amg_plan" /\ key = "'" ++ act_key act ++ "'")
    /\ (act_domain act <> N128_fungible -> act_domain act <> N128_group ->
        act_key act = N128_meta ->
        plan = "amd_plan" /\ key = "'" ++ act_domain act ++ "'")
    /\ (act_domain act <> N128_fungible -> act_domain act <> N128_group ->
        act_key act <> N128_meta ->
        plan = "amt_plan" /\ key = "'" ++ act_domain act ++ ":" ++ act_key act ++ "'").
Proof.
  intros Hr Hkey Hq. destruct (add_meta_run p tctx act Hr) as (p' & R & S & L & E).
  assert (Hq3 : forallb no_quote [am_key (act_data act); am_value (act_data act);
                                  am_creator (act_data act)] = true).
  { cbn [forallb] in *. rewrite !andb_true_iff in *. tauto. }
  assert (Hd : no_quote (act_domain act) = true)
    by (cbn [forallb] in Hq; rewrite !andb_true_iff in Hq; tauto).
  assert (Hk : no_quote (act_key act) = true)
    by (cbn [forallb] in Hq; rewrite !andb_true_iff in Hq; tauto).
  assert (Hi : parse_execute
                 (execute_line "am_plan"
                    [am_key (act_data act); am_value (act_data act);
                     am_creator (act_data act)] ";")
               = Some ("am_plan",
                       [am_key (act_data act); am_value (act_data act);
                        am_creator (act_data act)])).
  { apply parse_execute_line; [reflexivity | discriminate | exact Hq3 | now right]. }
  assert (two : forall plan key,
            statements_from false "" (owner_line plan key) = [owner_statement plan key] ->
            statements (meta_insert_line (act_data act) ++ owner_line plan key)
            = [execute_line "am_plan"
                 [am_key (act_data act); am_value (act_data act);
                  am_creator (act_data act)] ";";
               owner_statement plan key]).
  { intros plan key H. unfold statements.
    rewrite statements_insert_line by exact Hq3. now rewrite H. }
  exists p'. rewrite E. cbv zeta. cbn [trx_buf_].
  destruct (String.eqb (act_domain act) N128_fungible) eqn:Df.
  - apply String.eqb_eq in Df.
    destruct (lexical_cast_int64 (act_key act)) as [sym_id|] eqn:Hc;
      [|now elim (Hkey Df)].
    exists (owner_line "amf_plan" (fmt_d sym_id)), "amf_plan", (fmt_d sym_id).
    rewrite append_assoc. split; [reflexivity|]. split; [exact L|].
    split; [reflexivity|].
    split; [apply two, statements_owner_plain; [reflexivity | apply plain_fmt_d]|].
    split; [exact Hi|]. split; [now apply invoked_owner_statement|].
    split; [intros _; now exists sym_id|].
    split; [intros Hg; rewrite Df in Hg; discriminate Hg|].
    split; intros Hnf; now elim Hnf.
  - apply String.eqb_neq in Df.
    destruct (String.eqb (act_domain act) N128_group) eqn:Dg.
    + apply String.eqb_eq in Dg.
      exists (owner_line "amg_plan" ("'" ++ act_key act ++ "'")), "amg_plan",
        ("'" ++ act_key act ++ "'").
      rewrite append_assoc. split; [reflexivity|]. split; [exact L|].
      split; [reflexivity|].
      split; [apply two, statements_owner_quoted; [reflexivity | exact Hk]|].
      split; [exact Hi|]. split; [now apply invoked_owner_statement|].
      split; [intros Hf; now elim Df|]. split; [now split|].
      split; intros _ Hng; now elim Hng.
    + apply String.eqb_neq in Dg.
      destruct (String.eqb (act_key act) N128_meta) eqn:Km.
      * apply String.eqb_eq in Km.
        exists (owner_line "amd_plan" ("'" ++ act_domain act ++ "'")), "amd_plan",
          ("'" ++ act_domain act ++ "'").
        rewrite append_assoc. split; [reflexivity|]. split; [exact L|].
        split; [reflexivity|].
        split; [apply two, statements_owner_quoted; [reflexivity | exact Hd]|].
        split; [exact Hi|]. split; [now apply invoked_owner_statement|].
        split; [intros Hf; now elim Df|]. split; [intros Hg; now elim Dg|].
        split; [now split | intros _ _ Hk'; now elim Hk'].
      * apply String.eqb_neq in Km.
        exists (owner_line "amt_plan" ("'" ++ act_domain act ++ ":" ++ act_key act ++ "'")),
          "amt_plan", ("'" ++ act_domain act ++ ":" ++ act_key act ++ "'").
        rewrite append_assoc. split; [reflexivity|]. split; [exact L|].
        split; [reflexivity|].
        split.
        { apply two.
          replace ("'" ++ act_domain act ++ ":" ++ act_key act ++ "'")
            with ("'" ++ (act_domain act ++ ":" ++ act_key act) ++ "'")
            by (rewrite !append_assoc; reflexivity).
          apply statements_owner_quoted; [reflexivity|].
          rewrite !no_quote_append, Hd, Hk. reflexivity. }
        split; [exact Hi|]. split; [now apply invoked_owner_statement|].
        split; [intros Hf; now elim Df|]. split; [intros Hg; now elim Dg|].
        split; [intros _ _ Hk'; now elim Km | now split].
Qed.

Lemma add_meta_routes_witness :
  exists p' update,
    add_meta meta_of_fungible (synced, new_trx_context)
    = ((p', mkTrx ("" ++ meta_insert_line (act_data meta_of_fungible) ++ update)), Ok PG_OK)
    /\ update = owner_line "amf_plan" "3"
    /\ statements (meta_insert_line (act_data meta_of_fungible) ++ update)
       = ["EXECUTE am_plan('logo','png','creator');"; "EXECUTE amf_plan(lastval(),3);"].
Proof.
  assert (R : ready synced) by (split; [intros r; reflexivity | reflexivity]).
  assert (K : act_domain meta_of_fungible = N128_fungible ->
              lexical_cast_int64 (act_key meta_of_fungible) <> None)
    by (intros _; discriminate).
  destruct (add_meta_routes synced new_trx_context meta_of_fungible R K eq_refl)
    as (p' & update & plan & key & E & _ & U & T & _ & _ & F & _).
  destruct (F eq_refl) as (sym_id & Hs & -> & ->).
  injection Hs as <-.
  exists p', update. split; [exact E|]. split; [exact U|]. exact T.
Defined.

(** A fungible-domain action whose key is not a number: the insert line is
    appended, the conversion raises, and no owner-update line follows. *)
Lemma add_meta_word_key_raises :
  snd (add_meta meta_of_word_key (synced, new_trx_context)) = Throw bad_lexical_cast
  /\ trx_buf_ (snd (fst (add_meta meta_of_word_key (synced, new_trx_context))))
     = meta_insert_line (act_data meta_of_word_key).
Proof. split; reflexivity. Qed.

Example add_meta_group :
  trx_buf_ (snd (fst (add_meta (mkAction "addmeta" ".group" "g1" (mkAddMeta "k" "v" "c"))
                               (synced, new_trx_context))))
  = "EXECUTE am_plan('k','v','c');" ++ LF ++ "EXECUTE amg_plan(lastval(),'g1');" ++ LF.
Proof. reflexivity. Qed.

Example add_meta_domain :
  trx_buf_ (snd (fst (add_meta (mkAction "addmeta" "d1" ".meta" (mkAddMeta "k" "v" "c"))
                               (synced, new_trx_context))))
  = "EXECUTE am_plan('k','v','c');" ++ LF ++ "EXECUTE amd_plan(lastval(),'d1');" ++ LF.
Proof. reflexivity. Qed.

Example add_meta_token :
  trx_buf_ (snd (fst (add_meta (mkAction "addmeta" "d1" "t1" (mkAddMeta "k" "v" "c"))
                               (synced, new_trx_context))))
  = "EXECUTE am_plan('k','v','c');" ++ LF ++ "EXECUTE amt_plan(lastval(),'d1:t1');" ++ LF.
Proof. reflexivity. Qed.

(** A value that holds a quote closes its literal: the text appended for one
    action reads as four statements, one of them an update of the domains
    table that the action does not address. *)
Example add_meta_quoted_value_adds_statements :
  map invoked_plan
      (statements (trx_buf_ (snd (fst (add_meta meta_of_quoted_value
                                         (synced, new_trx_context))))))
  = [Some "am_plan"; Some "amd_plan"; Some "am_plan"; Some "amt_plan"].
Proof. vm_compute. reflexivity. Qed.

(** *** Lines and the statements they invoke *)

Ltac one_line :=
  let p := fresh "p" in
  let tctx := fresh "tctx" in
  let Hr := fresh "Hr" in
  intros p tctx Hr; cbv zeta;
  lazymatch goal with
  | |- exists _ _ _ _,
      (on_pg (PREPARE_SQL_ONCE ?n ?s) ;;; format_to_trx_buf ?l ;;; ret PG_OK) _ = _ /\ _ =>
      let p' := fresh "p'" in
      let E := fresh "E" in
      let R := fresh "R" in
      let S := fresh "S" in
      let L := fresh "L" in
      destruct (translate_one_line n s l p tctx eq_refl Hr) as (p' & E & R & S & L);
      exists p', l, n, s;
      split; [exact E|]; split; [reflexivity|]; split; [exact L | exact R]
  end.

Lemma set_block_irreversible_registered (block_id : string) :
  invokes_registered (set_block_irreversible block_id).
Proof. unfold set_block_irreversible. one_line. Qed.

Lemma add_stat_registered (key value : string) : invokes_registered (add_stat key value).
Proof. unfold add_stat. one_line. Qed.

Lemma upd_stat_registered (key value : string) : invokes_registered (upd_stat key value).
Proof. unfold upd_stat. one_line. Qed.

Lemma upd_token_registered (tf : transfer) : invokes_registered (upd_token tf).
Proof. unfold upd_token. one_line. Qed.

Lemma del_token_registered (dt : destroytoken) : invokes_registered (del_token dt).
Proof. unfold del_token. one_line. Qed.

(** Two texts that differ in the grouping of their appends only. *)
Ltac same_text :=
  unfold execute_line; cbn [quoted_args]; rewrite ?append_assoc; reflexivity.

Lemma add_stat_run (key value : string) (p : pg) (tctx : trx_context) :
  ready p ->
  exists p', add_stat key value (p, tctx)
             = ((p', mkTrx (trx_buf_ tctx ++ stat_line key value)), Ok PG_OK)
             /\ ready p' /\ same_store p p'.
Proof.
  intros Hr.
  destruct (translate_one_line "as_plan" "INSERT INTO stats VALUES($1, $2, now(), now())"
              (stat_line key value) p tctx eq_refl Hr) as (p' & E & R & S & L).
  exists p'. split; [exact E|]. split; assumption.
Qed.

Section DocumentFacts.

Variable variant : Type.
Variable permission_def : Type.
Variable group : Type.
Variable permission_to_variant : permission_def -> variant.
Variable group_to_variant : group -> variant.
Variable variant_at : variant -> string -> variant.
Variable json_to_string : variant -> string.
Variable group_key : group -> string.

Local Abbreviation json := (permission_json permission_to_variant json_to_string).
Local Abbreviation root_json g := (json_to_string (variant_at (group_to_variant g) "root")).
Local Abbreviation update_line := (domain_update_line permission_to_variant json_to_string).

Lemma add_domain_registered (nd : newdomain permission_def) :
  invokes_registered (add_domain permission_to_variant json_to_string nd).
Proof. unfold add_domain. one_line. Qed.

Lemma add_group_registered (ng : newgroup group) :
  invokes_registered (add_group group_to_variant variant_at json_to_string group_key ng).
Proof. unfold add_group. one_line. Qed.

Lemma upd_group_registered (ug : updategroup group) :
  invokes_registered (upd_group group_to_variant variant_at json_to_string ug).
Proof. unfold upd_group. one_line. Qed.

Lemma add_fungible_registered (nf : newfungible permission_def) :
  invokes_registered (add_fungible permission_to_variant json_to_string nf).
Proof. unfold add_fungible. one_line. Qed.

Lemma upd_fungible_registered (uf : updfungible permission_def) :
  invokes_registered (upd_fungible permission_to_variant json_to_string uf).
Proof. unfold upd_fungible. one_line. Qed.

(** What [upd_domain] does in a ready state: it registers [ud_plan], leaves
    whatever the session holds under [up_plan] as it was, and appends a line
    that invokes [up_plan]. *)
Lemma upd_domain_run (ud : updatedomain permission_def) (p : pg) (tctx : trx_context) :
  ready p ->
  exists p',
    upd_domain permission_to_variant json_to_string ud (p, tctx)
    = ((p', mkTrx (trx_buf_ tctx ++ update_line ud)), Ok PG_OK)
    /\ invoked_plan (update_line ud) = Some "up_plan"
    /\ lookup "ud_plan" (prepared (conn_ p'))
       = Some "UPDATE domains SET(issue, transfer, manage) = ($1, $2, $3) WHERE name = $4;"
    /\ lookup "up_plan" (prepared (conn_ p')) = lookup "up_plan" (prepared (conn_ p)).
Proof.
  intros Hr.
  destruct (translate_one_line "ud_plan"
              "UPDATE domains SET(issue, transfer, manage) = ($1, $2, $3) WHERE name = $4;"
              (update_line ud) p tctx eq_refl Hr) as (p' & E & R & S & L).
  exists p'. split; [exact E|]. split; [reflexivity|]. split; [exact L|].
  assert (Hp : p' = fst (PREPARE_SQL_ONCE "ud_plan"
              "UPDATE domains SET(issue, transfer, manage) = ($1, $2, $3) WHERE name = $4;" p)).
  { unfold bind, on_pg in E. cbn [fst snd] in E.
    destruct (PREPARE_SQL_ONCE "ud_plan" _ p) as [q [[]|e]]; cbn in E;
      [injection E as <- | discriminate E]; reflexivity. }
  rewrite Hp. unfold PREPARE_SQL_ONCE, call_once, prepare, bind, on_conn, PQprepare.
  destruct (flag_set _ p); [reflexivity|].
  destruct (server_accepts (conn_ p) _); [|reflexivity].
  destruct (lookup "ud_plan" (prepared (conn_ p))); reflexivity.
Qed.

(** For no update-domain action does the translator invoke, in every ready
    state, a statement the session holds. *)
Lemma upd_domain_never_registered (ud : updatedomain permission_def) :
  ~ invokes_registered (upd_domain permission_to_variant json_to_string ud).
Proof.
  intros H.
  assert (R : ready uninitialized) by (split; [intros r; reflexivity | reflexivity]).
  destruct (H uninitialized new_trx_context R) as (p' & line & name & sql & E & I & L & _).
  destruct (upd_domain_run ud uninitialized new_trx_context R) as (q & E' & I' & _ & L').
  rewrite E' in E. injection E as Hq Hline. subst q line.
  rewrite I' in I. injection I as <-.
  rewrite L' in L. discriminate L.
Qed.

(** C8, refuted for the update-domain translator.  On a session that has
    just connected, for every update-domain action, the translator returns
    normally, the one statement registered on the session is [ud_plan], and
    the line it appended invokes [up_plan], which the session does not hold.
    Every sibling translator invokes the name it registers (the [_registered]
    lemmas above). *)
Theorem upd_domain_invokes_unregistered (ud : updatedomain permission_def)
        (st : list stat_row) (bl : list block_row) :
  let s := upd_domain permission_to_variant json_to_string ud
             (connected st bl, new_trx_context) in
  snd s = Ok PG_OK
  /\ trx_buf_ (snd (fst s)) = update_line ud
  /\ invoked_plan (trx_buf_ (snd (fst s))) = Some "up_plan"
  /\ map fst (prepared (conn_ (fst (fst s)))) = ["ud_plan"]
  /\ lookup "up_plan" (prepared (conn_ (fst (fst s)))) = None.
Proof.
  cbv zeta.
  destruct (upd_domain_run ud (connected st bl) new_trx_context (connected_ready st bl))
    as (p' & E & I & _ & L).
  rewrite E. cbn [fst snd trx_buf_ new_trx_context append].
  split; [reflexivity|]. split; [reflexivity|]. split; [exact I|].
  split; [|rewrite L; reflexivity].
  replace p' with (fst (fst (upd_domain permission_to_variant json_to_string ud
                               (connected st bl, new_trx_context))))
    by (rewrite E; reflexivity).
  reflexivity.
Qed.

(** C9, refuted.  The statement registered as [ug_plan] stores its first
    parameter in the [def] column of the row whose name is its second
    parameter; the line [upd_group] appends passes the group name first and
    the serialized definition second. *)
Theorem upd_group_passes_name_first (ug : updategroup group) (p : pg) (tctx : trx_context) :
  ready p ->
  exists p',
    upd_group group_to_variant variant_at json_to_string ug (p, tctx)
    = ((p', mkTrx (trx_buf_ tctx
                   ++ "EXECUTE ug_plan('" ++ ug_name ug ++ "','" ++ root_json (ug_group ug)
                   ++ "');")),
       Ok PG_OK)
    /\ lookup "ug_plan" (prepared (conn_ p'))
       = Some "UPDATE groups SET(def) = ($1) WHERE name = $2;"
    /\ (no_quote (ug_name ug) = true -> no_quote (root_json (ug_group ug)) = true ->
        parse_execute ("EXECUTE ug_plan('" ++ ug_name ug ++ "','" ++ root_json (ug_group ug)
                       ++ "');")
        = Some ("ug_plan", [ug_name ug; root_json (ug_group ug)])).
Proof.
  intros Hr.
  destruct (translate_one_line "ug_plan" "UPDATE groups SET(def) = ($1) WHERE name = $2;"
              ("EXECUTE ug_plan('" ++ ug_name ug ++ "','" ++ root_json (ug_group ug) ++ "');")
              p tctx eq_refl Hr) as (p' & E & R & S & L).
  exists p'. split; [exact E|]. split; [exact L|].
  intros Hn Hj.
  replace ("EXECUTE ug_plan('" ++ ug_name ug ++ "','" ++ root_json (ug_group ug) ++ "');")
    with (execute_line "ug_plan" [ug_name ug; root_json (ug_group ug)] ";") by same_text.
  apply parse_execute_line; [reflexivity | discriminate | | now right].
  cbn [forallb]. now rewrite Hn, Hj.
Qed.

(** C2, as amended.  Values are appended verbatim between quotes, nothing is
    escaped.  In a ready state, for values that hold no quote character
    (backslash, tab and newline are allowed), the line appended by
    [add_stat], by [add_domain], and the insert line of [add_meta], read back
    under the standard quoting convention, yield the statement name and
    exactly the original values. *)
Theorem quote_free_values_read_back :
  (forall (p : pg) (tctx : trx_context) (key value : string),
      ready p -> forallb no_quote [key; value] = true ->
      exists p' line,
        add_stat key value (p, tctx) = ((p', mkTrx (trx_buf_ tctx ++ line)), Ok PG_OK)
        /\ parse_execute line = Some ("as_plan", [key; value]))
  /\ (forall (p : pg) (tctx : trx_context) (nd : newdomain permission_def),
        let values := [nd_name nd; nd_creator nd; json (nd_issue nd);
                       json (nd_transfer nd); json (nd_manage nd)] in
        ready p -> forallb no_quote values = true ->
        exists p' line,
          add_domain permission_to_variant json_to_string nd (p, tctx)
          = ((p', mkTrx (trx_buf_ tctx ++ line)), Ok PG_OK)
          /\ parse_execute line = Some ("nd_plan", values))
  /\ (forall am : addmeta,
        forallb no_quote [am_key am; am_value am; am_creator am] = true ->
        parse_execute (meta_insert_line am)
        = Some ("am_plan", [am_key am; am_value am; am_creator am])).
Proof.
  split; [|split].
  - intros p tctx key value Hr Hq.
    destruct (add_stat_run key value p tctx Hr) as (p' & E & _).
    exists p', (stat_line key value). split; [exact E|].
    replace (stat_line key value) with (execute_line "as_plan" [key; value] (";" ++ LF))
      by (unfold stat_line; same_text).
    apply parse_execute_line; [reflexivity | discriminate | exact Hq | now left].
  - intros p tctx nd values Hr Hq.
    set (line := "EXECUTE nd_plan('" ++ nd_name nd ++ "','" ++ nd_creator nd ++ "','"
                 ++ json (nd_issue nd) ++ "','" ++ json (nd_transfer nd) ++ "','"
                 ++ json (nd_manage nd) ++ "');" ++ LF).
    destruct (translate_one_line "nd_plan"
                "INSERT INTO domains VALUES($1, $2, $3, $4, $5, '{}', now());"
                line p tctx eq_refl Hr) as (p' & E & _).
    exists p', line. split; [exact E|].
    replace line with (execute_line "nd_plan" values (";" ++ LF))
      by (subst values line; same_text).
    apply parse_execute_line; [reflexivity | discriminate | exact Hq | now left].
  - intros am Hq.
    replace (meta_insert_line am)
      with (execute_line "am_plan" [am_key am; am_value am; am_creator am] (";" ++ LF))
      by (unfold meta_insert_line; same_text).
    apply parse_execute_line; [reflexivity | discriminate | exact Hq | now left].
Qed.

End DocumentFacts.

Lemma quote_free_values_read_back_witness :
  (exists p' line,
      add_stat "path" ("c:\dir" ++ TAB ++ "x" ++ LF) (synced, new_trx_context)
      = ((p', mkTrx ("" ++ line)), Ok PG_OK)
      /\ parse_execute line = Some ("as_plan", ["path"; "c:\dir" ++ TAB ++ "x" ++ LF]))
  /\ (exists p' line,
        add_domain text_of text_of sample_domain (synced, new_trx_context)
        = ((p', mkTrx ("" ++ line)), Ok PG_OK)
        /\ parse_execute line
           = Some ("nd_plan", ["dom"; "EVT5creator"; "{issue}"; "{transfer}"; "{manage}"])).
Proof.
  assert (R : ready synced) by (split; [intros r; reflexivity | reflexivity]).
  split.
  - exact (proj1 (quote_free_values_read_back string string text_of text_of)
             synced new_trx_context "path" ("c:\dir" ++ TAB ++ "x" ++ LF) R eq_refl).
  - exact (proj1 (proj2 (quote_free_values_read_back string string text_of text_of))
             synced new_trx_context sample_domain R eq_refl).
Defined.

(** A value that holds a quote is appended as it is: the line no longer
    reads back as the statement with that value, and two different pairs of
    values give one and the same line. *)
Lemma add_stat_quote_not_escaped :
  trx_buf_ (snd (fst (add_stat "k" "it's" (synced, new_trx_context))))
  = "EXECUTE as_plan('k','it's');" ++ LF
  /\ parse_execute (trx_buf_ (snd (fst (add_stat "k" "it's" (synced, new_trx_context)))))
     <> Some ("as_plan", ["k"; "it's"])
  /\ trx_buf_ (snd (fst (add_stat "a','b" "c" (synced, new_trx_context))))
     = trx_buf_ (snd (fst (add_stat "a" "b','c" (synced, new_trx_context))))
  /\ parse_execute (trx_buf_ (snd (fst (add_stat "a','b" "c" (synced, new_trx_context)))))
     = Some ("as_plan", ["a"; "b"; "c"]).
Proof.
  split; [reflexivity|]. split; [discriminate|]. split; reflexivity.
Qed.

(** On a fresh session: the line invokes [up_plan], the session holds
    [ud_plan] only. *)
Example upd_domain_fresh_session :
  let s := upd_domain text_of text_of (mkUpdateDomain "dom" None None None)
             (uninitialized, new_trx_context) in
  trx_buf_ (snd (fst s)) = "EXECUTE up_plan('issue','transfer','manage', 'dom');" ++ LF
  /\ invoked_plan (trx_buf_ (snd (fst s))) = Some "up_plan"
  /\ map fst (prepared (conn_ (fst (fst s)))) = ["ud_plan"].
Proof. cbv zeta. split; [|split]; reflexivity. Qed.

Lemma upd_group_passes_name_first_witness :
  exists p',
    upd_group text_of first_of text_of sample_group_update (synced, new_trx_context)
    = ((p', mkTrx ("" ++ "EXECUTE ug_plan('g1','{threshold:1}');")), Ok PG_OK)
    /\ lookup "ug_plan" (prepared (conn_ p'))
       = Some "UPDATE groups SET(def) = ($1) WHERE name = $2;"
    /\ parse_execute "EXECUTE ug_plan('g1','{threshold:1}');"
       = Some ("ug_plan", ["g1"; "{threshold:1}"]).
Proof.
  assert (R : ready synced) by (split; [intros r; reflexivity | reflexivity]).
  destruct (upd_group_passes_name_first string string text_of first_of text_of sample_group_update
              synced new_trx_context R) as (p' & E & L & P).
  exists p'. split; [exact E|]. split; [exact L|]. exact (P eq_refl eq_refl).
Defined.

(** ** Rows of the copy context *)

Lemma format_to_trxs_copy_twice (actx : add_context) (x y : string) :
  format_to_trxs_copy (format_to_trxs_copy actx x) y = format_to_trxs_copy actx (x ++ y).
Proof.
  unfold format_to_trxs_copy, set_cctx. cbn. now rewrite append_assoc.
Qed.

(** C3, refuted.  For every block the row [add_block] appends is the
    tab-separated, newline-terminated row of block_id, block_num,
    prev_block_id, timestamp, trx_merkle_root, trx_count, producer, pending
    and created_at in which the pending column is the literal [f]: the row is
    inserted with pending = false, not true. *)
Theorem add_block_pending_false (actx : add_context) (block : block_ptr) :
  add_block actx block
  = (format_to_blocks_copy actx
       (copy_row [block_id actx; fmt_d (block_num actx); header_previous block; ts actx;
                  header_transaction_mroot block; fmt_d (transactions_size block);
                  header_producer block; "f"; "now"]),
     PG_OK).
Proof.
  unfold add_block, copy_row. cbn [String.concat].
  rewrite ?append_assoc. reflexivity.
Qed.

(** The row of block 7, as the bulk-ingest stream receives it. *)
Example add_block_row :
  blocks_copy_ (cctx (fst (add_block block_seven
                             (mkBlock "00000006bb" "mroot" 2 "producer1"))))
  = "00000007cc" ++ TAB ++ "7" ++ TAB ++ "00000006bb" ++ TAB ++ "ts" ++ TAB ++ "mroot"
    ++ TAB ++ "2" ++ TAB ++ "producer1" ++ TAB ++ "f" ++ TAB ++ "now" ++ LF.
Proof. reflexivity. Qed.

(** The sibling path: reporting irreversibility registers the update that
    sets pending to false, and appends its invocation for the block id. *)
Lemma set_block_irreversible_run (id : string) (p : pg) (tctx : trx_context) :
  ready p ->
  exists p',
    set_block_irreversible id (p, tctx)
    = ((p', mkTrx (trx_buf_ tctx ++ "EXECUTE sbi_plan('" ++ id ++ "');" ++ LF)), Ok PG_OK)
    /\ lookup "sbi_plan" (prepared (conn_ p'))
       = Some "UPDATE blocks SET pending = false WHERE block_id = $1".
Proof.
  intros Hr.
  destruct (translate_one_line "sbi_plan"
              "UPDATE blocks SET pending = false WHERE block_id = $1"
              ("EXECUTE sbi_plan('" ++ id ++ "');" ++ LF) p tctx eq_refl Hr)
    as (p' & E & _ & _ & L).
  exists p'. split; [exact E | exact L].
Qed.

Section RowFacts.

Variable get_signature_keys : trx_t -> chain_id_type -> list string.
Variable suspend_name : Z.

(** The keys loop visits every key and the last key is written once more. *)
Lemma loop_all_then_back (q : string -> string) (f : string -> string)
      (l : list string) (x : string) :
  (forall o, f o = q o ++ ",") ->
  each f l ++ q x = String.concat "," (map q (l ++ [x])).
Proof.
  intros Hf. induction l as [|y l IH].
  - reflexivity.
  - rewrite each_cons, append_assoc, IH, Hf. cbn [map app].
    destruct (map q (l ++ [x])) as [|z m] eqn:E.
    + destruct l; discriminate E.
    + rewrite concat_cons. now rewrite append_assoc.
Qed.

(** C7, refuted in its keys column.  For a signed transaction the appended
    row is tab-separated and newline-terminated, the signatures column is the
    array literal of the signatures, an absent suspend name is the null
    marker; but the keys column is the array literal of the recovered keys
    followed by the last key once more. *)
Theorem add_trx_repeats_last_key (actx : add_context) (trx : trx_recept_t) (strx : trx_t)
        (seq_num elapsed charge : Z) :
  signatures strx <> [] ->
  get_signature_keys strx (chain_id actx) <> [] ->
  let keys := get_signature_keys strx (chain_id actx) in
  add_trx get_signature_keys suspend_name actx trx strx seq_num elapsed charge
  = Some (format_to_trxs_copy actx
            (copy_row
               [trx_id strx; fmt_d seq_num; block_id actx; fmt_d (block_num actx);
                fmt_d (to_int32 (actions_size strx)); ts actx; expiration strx;
                fmt_d (to_int32 (max_charge strx)); payer strx; "f"; trx_type trx;
                trx_status trx;
                array_text (signatures strx);
                array_text (keys ++ [back keys]);
                fmt_d elapsed; fmt_d charge; suspend_field suspend_name strx; "now"]),
          PG_OK).
Proof.
  intros Hs Hk. cbv zeta. unfold add_trx, suspend_field.
  pose proof (owners_text_array (signatures strx)) as Hsig.
  unfold owners_text in Hsig.
  destruct (signatures strx) as [|s sl] eqn:Es; [now elim Hs|].
  rewrite <- Hsig. unfold array_text.
  rewrite <- (loop_all_then_back (fun v => DQUOTE ++ v ++ DQUOTE)
                (fun key => DQUOTE ++ key ++ DQUOTE ++ ",")
                (get_signature_keys strx (chain_id actx))
                (back (get_signature_keys strx (chain_id actx))) quoted_then_comma).
  destruct (get_signature_keys strx (chain_id actx)) as [|k kl] eqn:Ek; [now elim Hk|].
  cbv zeta.
  destruct (find (fun ext => (fst ext =? suspend_name)%Z) (transaction_extensions strx))
    as [ext|]; cbn [truthy Z.eqb negb];
    rewrite ?format_to_trxs_copy_twice; unfold copy_row; cbn [String.concat];
    rewrite ?append_assoc; reflexivity.
Qed.

End RowFacts.

Lemma add_trx_repeats_last_key_witness :
  add_trx one_key 1 block_seven (mkReceipt "input" "executed") one_signature 0 10 20
  = Some (format_to_trxs_copy block_seven
            (copy_row ["trx1"; "0"; "00000007cc"; "7"; "1"; "ts"; "2019-01-01T00:00:00";
                       "1000000"; "EVT6payer"; "f"; "input"; "executed";
                       array_text ["SIG_K1_sig"]; array_text ["EVT6key"; "EVT6key"];
                       "10"; "20"; "\N"; "now"]), PG_OK).
Proof.
  apply (add_trx_repeats_last_key one_key 1 block_seven (mkReceipt "input" "executed")
           one_signature 0 10 20); simpl; discriminate.
Defined.

(** The row written for the witness input: the single recovered key appears
    twice in the keys column. *)
Example add_trx_row :
  option_map (fun r => trxs_copy_ (cctx (fst r)))
    (add_trx one_key 1 block_seven (mkReceipt "input" "executed") one_signature 0 10 20)
  = Some ("trx1" ++ TAB ++ "0" ++ TAB ++ "00000007cc" ++ TAB ++ "7" ++ TAB ++ "1" ++ TAB
          ++ "ts" ++ TAB ++ "2019-01-01T00:00:00" ++ TAB ++ "1000000" ++ TAB ++ "EVT6payer"
          ++ TAB ++ "f" ++ TAB ++ "input" ++ TAB ++ "executed" ++ TAB
          ++ "{" ++ DQUOTE ++ "SIG_K1_sig" ++ DQUOTE ++ "}" ++ TAB
          ++ "{" ++ DQUOTE ++ "EVT6key" ++ DQUOTE ++ "," ++ DQUOTE ++ "EVT6key" ++ DQUOTE
          ++ "}" ++ TAB ++ "10" ++ TAB ++ "20" ++ TAB ++ "\N" ++ TAB ++ "now" ++ LF).
Proof. reflexivity. Qed.

(** Without signatures both array columns are empty. *)
Example add_trx_unsigned :
  option_map (fun r => trxs_copy_ (cctx (fst r)))
    (add_trx one_key 1 block_seven (mkReceipt "input" "executed")
       (mkSignedTrx "trx0" 0 "exp" 5 "payer" [] [(1%Z, "alice")]) 3 10 20)
  = Some (copy_row ["trx0"; "3"; "00000007cc"; "7"; "0"; "ts"; "exp"; "5"; "payer"; "f";
                    "input"; "executed"; "{}"; "{}"; "10"; "20"; "alice"; "now"]).
Proof. reflexivity. Qed.

(** * Further properties of the file *)

(** ** Bulk ingest *)

(** X1.  [block_copy_to] tests the answer to the data message a second time
    where it means to test the answer to the end-of-data message: when the
    server accepts the COPY statement, the data and the final result, the
    call returns [PG_OK] after all four requests whatever the server said to
    the end-of-data message. *)
Theorem block_copy_to_ignores_copy_end (table data : string) (p : pg) :
  server_accepts (conn_ p) (ReqExec ("COPY " ++ table ++ " FROM STDIN;")) = true ->
  server_accepts (conn_ p) (ReqPutCopyData data) = true ->
  server_accepts (conn_ p) ReqGetResult = true ->
  snd (block_copy_to table data p) = Ok PG_OK
  /\ wire (conn_ (fst (block_copy_to table data p)))
     = (wire (conn_ p) ++ copy_round_trip table data)%list.
Proof.
  intros H1 H2 H3.
  unfold block_copy_to, bind, on_conn, PQexec, PQputCopyData, PQputCopyEnd, PQgetResult,
    copy_round_trip.
  cbn [conn_ set_conn sent server_accepts wire fst snd]. rewrite H1.
  change (String.prefix "COPY " ("COPY " ++ table ++ " FROM STDIN;"))
    with (String.prefix "" (table ++ " FROM STDIN;")).
  rewrite prefix_nil.
  cbn [PQresultStatus EVT_ASSERT status_eqb ret throw fatal conn_ set_conn sent
       server_accepts wire fst snd].
  rewrite H2.
  cbn [Z.eqb Pos.eqb EVT_ASSERT ret throw conn_ set_conn sent server_accepts wire fst snd].
  rewrite H3.
  cbn [PQresultStatus EVT_ASSERT status_eqb ret throw fatal conn_ set_conn sent
       server_accepts wire fst snd].
  split; [reflexivity|]. repeat rewrite <- app_assoc. reflexivity.
Qed.

Lemma block_copy_to_ignores_copy_end_witness :
  snd (block_copy_to "blocks" ("row" ++ LF) (served_by deaf_to_copy_end)) = Ok PG_OK
  /\ wire (conn_ (fst (block_copy_to "blocks" ("row" ++ LF) (served_by deaf_to_copy_end))))
     = ([] ++ copy_round_trip "blocks" ("row" ++ LF))%list.
Proof.
  apply (block_copy_to_ignores_copy_end "blocks" ("row" ++ LF) (served_by deaf_to_copy_end));
    reflexivity.
Defined.

Lemma copy_row_non_empty (fields : list string) : non_empty ("", copy_row fields) = true.
Proof.
  unfold non_empty, copy_row. cbn [snd].
  destruct (String.concat TAB fields); reflexivity.
Qed.

Lemma add_block_appends_row (actx : add_context) (block : block_ptr) :
  fst (add_block actx block)
  = format_to_blocks_copy actx
      (copy_row [block_id actx; fmt_d (block_num actx); header_previous block; ts actx;
                 header_transaction_mroot block; fmt_d (transactions_size block);
                 header_producer block; "f"; "now"]).
Proof.
  unfold add_block, copy_row. cbn [fst String.concat].
  rewrite ?append_assoc. reflexivity.
Qed.

(** X2.  A block appended to a fresh copy context and flushed on a server
    that answers costs one bulk-ingest round trip, to the table [blocks],
    carrying exactly the row of that block; nothing is sent for the two
    streams that stayed empty. *)
Theorem add_block_then_commit (actx : add_context) (block : block_ptr) (p : pg) :
  cctx actx = new_copy_context ->
  healthy (conn_ p) ->
  let flushed := commit_copy_context (cctx (fst (add_block actx block))) p in
  snd flushed = Ok tt
  /\ wire (conn_ (fst flushed))
     = (wire (conn_ p)
        ++ copy_round_trip "blocks"
             (copy_row [block_id actx; fmt_d (block_num actx); header_previous block;
                        ts actx; header_transaction_mroot block;
                        fmt_d (transactions_size block); header_producer block;
                        "f"; "now"]))%list.
Proof.
  intros Hfresh Hh. cbv zeta.
  pose proof (add_block_appends_row actx block) as Hrow.
  set (after := cctx (fst (add_block actx block))) in *.
  pose proof (commit_copy_context_healthy after p Hh) as Hok.
  split; [exact Hok|].
  destruct (commit_copy_context_sends after p) as (sent_now & W & _ & O).
  rewrite W, (O tt Hok), flush_requests_streams.
  assert (Hb : blocks_copy_ after
               = copy_row [block_id actx; fmt_d (block_num actx); header_previous block;
                           ts actx; header_transaction_mroot block;
                           fmt_d (transactions_size block); header_producer block;
                           "f"; "now"]).
  { subst after. rewrite Hrow. unfold format_to_blocks_copy, set_cctx.
    cbn [cctx blocks_copy_]. rewrite Hfresh. reflexivity. }
  assert (Ht : trxs_copy_ after = "")
    by (subst after; unfold add_block, format_to_blocks_copy, set_cctx;
        cbn [fst cctx trxs_copy_]; now rewrite Hfresh).
  assert (Ha : actions_copy_ after = "")
    by (subst after; unfold add_block, format_to_blocks_copy, set_cctx;
        cbn [fst cctx actions_copy_]; now rewrite Hfresh).
  rewrite Hb, Ht, Ha.
  unfold non_empty at 1. cbn [snd].
  change (negb (copy_row ?f =? "")) with (non_empty ("", copy_row f)).
  rewrite copy_row_non_empty. cbn [non_empty snd String.eqb negb app].
  now rewrite app_nil_r.
Qed.

Lemma add_block_then_commit_witness :
  snd (commit_copy_context
         (cctx (fst (add_block block_seven (mkBlock "00000006bb" "mroot" 2 "producer1"))))
         synced) = Ok tt
  /\ wire (conn_ (fst (commit_copy_context
         (cctx (fst (add_block block_seven (mkBlock "00000006bb" "mroot" 2 "producer1"))))
         synced)))
     = ([] ++ copy_round_trip "blocks"
               (copy_row ["00000007cc"; "7"; "00000006bb"; "ts"; "mroot"; "2"; "producer1";
                          "f"; "now"]))%list.
Proof.
  apply (add_block_then_commit block_seven (mkBlock "00000006bb" "mroot" 2 "producer1")
           synced); [reflexivity | intros r; reflexivity].
Defined.

Section StreamFacts.

Variable get_signature_keys : trx_t -> chain_id_type -> list string.
Variable suspend_name : Z.

Lemma format_to_trxs_copy_others (actx : add_context) (text : string) :
  blocks_copy_ (cctx (format_to_trxs_copy actx text)) = blocks_copy_ (cctx actx)
  /\ actions_copy_ (cctx (format_to_trxs_copy actx text)) = actions_copy_ (cctx actx)
  /\ trxs_copy_ (cctx (format_to_trxs_copy actx text)) = trxs_copy_ (cctx actx) ++ text
  /\ block_id (format_to_trxs_copy actx text) = block_id actx
  /\ block_num (format_to_trxs_copy actx text) = block_num actx
  /\ ts (format_to_trxs_copy actx text) = ts actx
  /\ chain_id (format_to_trxs_copy actx text) = chain_id actx.
Proof. repeat split. Qed.

Lemma grows_trxs_only_refl (a : add_context) : grows_trxs_only a a.
Proof.
  repeat split; try reflexivity. exists "". now rewrite append_nil_r.
Qed.

Lemma grows_trxs_only_step (a b : add_context) (text : string) :
  grows_trxs_only a b -> grows_trxs_only a (format_to_trxs_copy b text).
Proof.
  intros (B & A & (t & T) & I & N & S & C).
  repeat split; cbn; try assumption.
  exists (t ++ text). rewrite T. now rewrite append_assoc.
Qed.

(** X3.  Appending a transaction row never touches the rows already
    buffered: whenever [add_trx] returns, the block and action streams and the
    block fields of the context are as before, and the transaction stream is
    its old text followed by new text. *)
Theorem add_trx_grows_own_stream (actx : add_context) (trx : trx_recept_t) (strx : trx_t)
        (seq_num elapsed charge : Z) (after : add_context) (rc : Z) :
  add_trx get_signature_keys suspend_name actx trx strx seq_num elapsed charge
  = Some (after, rc) ->
  rc = PG_OK /\ grows_trxs_only actx after.
Proof.
  unfold add_trx.
  destruct (signatures strx) as [|s sl];
    [|destruct (get_signature_keys strx (chain_id _)) as [|k kl]; [discriminate|]];
    destruct (find _ (transaction_extensions strx)) as [ext|];
    cbn [truthy Z.eqb negb]; intros H; injection H as <- <-;
    (split; [reflexivity|]);
    repeat apply grows_trxs_only_step; apply grows_trxs_only_refl.
Qed.

End StreamFacts.

Lemma add_trx_grows_own_stream_witness :
  exists after,
    add_trx one_key 1 block_seven (mkReceipt "input" "executed") one_signature 0 10 20
    = Some (after, PG_OK)
    /\ grows_trxs_only block_seven after.
Proof.
  destruct (add_trx one_key 1 block_seven (mkReceipt "input" "executed") one_signature
              0 10 20) as [[after rc]|] eqn:E; [|discriminate E].
  destruct (add_trx_grows_own_stream one_key 1 block_seven (mkReceipt "input" "executed")
              one_signature 0 10 20 after rc E) as [-> G].
  exists after. split; [reflexivity | exact G].
Defined.

(** ** Schema operations *)

Lemma sends_exec (stmt : string) : sends (on_conn (fun c => PQexec c stmt)) [ReqExec stmt].
Proof.
  intros p. unfold on_conn, PQexec. exists [ReqExec stmt].
  destruct (server_accepts (conn_ p) _); cbn; repeat split; now exists [].
Qed.

Lemma sends_assert (cond : bool) (e : exception) : sends (@EVT_ASSERT pg cond e) [].
Proof.
  intros p. exists []. unfold EVT_ASSERT.
  destruct cond; cbn; rewrite app_nil_r; repeat split; now exists [].
Qed.

Lemma sends_drop_table (table : string) :
  sends (drop_table table) [ReqExec ("DROP TABLE IF EXISTS " ++ table ++ ";")].
Proof.
  unfold drop_table. cbv zeta.
  change [ReqExec ("DROP TABLE IF EXISTS " ++ table ++ ";")]
    with ([ReqExec ("DROP TABLE IF EXISTS " ++ table ++ ";")] ++ [] ++ [])%list.
  apply sends_bind; [apply sends_exec | intros r].
  apply sends_bind; [apply sends_assert | intros _; apply sends_ret].
Qed.

Lemma sends_for_each_stmt (stmts : list string) :
  sends (for_each_stmt stmts) (map ReqExec stmts).
Proof.
  induction stmts as [|stmt rest IH]; cbn [for_each_stmt map].
  - apply sends_ret.
  - change (ReqExec stmt :: map ReqExec rest)
      with ([ReqExec stmt] ++ [] ++ map ReqExec rest)%list.
    apply sends_bind; [apply sends_exec | intros r].
    apply sends_bind; [apply sends_assert | intros _; exact IH].
Qed.

Lemma succeeds_ret (a : Z) : succeeds (ret a) a.
Proof. intros p Hh. exists p. split; [reflexivity | exact Hh]. Qed.

Lemma succeeds_bind {A} (m : M pg A) (k : A -> M pg Z) (a : A) (b : Z) :
  (forall p, healthy (conn_ p) ->
             exists p', m p = (p', Ok a) /\ healthy (conn_ p')) ->
  succeeds (k a) b -> succeeds (bind m k) b.
Proof.
  intros Hm Hk p Hh. destruct (Hm p Hh) as (p1 & E1 & H1).
  destruct (Hk p1 H1) as (p2 & E2 & H2).
  exists p2. unfold bind. rewrite E1. split; assumption.
Qed.

(** A statement other than COPY, on a server that answers, is a command that
    completes. *)
Lemma exec_command_healthy (stmt : string) (p : pg) :
  String.prefix "COPY " stmt = false -> healthy (conn_ p) ->
  exists p',
    (r <- on_conn (fun c => PQexec c stmt) ;;
     EVT_ASSERT (status_eqb (PQresultStatus r) PGRES_COMMAND_OK) postgres_exec_exception) p
    = (p', Ok tt)
    /\ healthy (conn_ p').
Proof.
  intros Hc Hh. unfold bind, on_conn, PQexec. rewrite Hh, Hc. cbn.
  eexists. split; [reflexivity | exact Hh].
Qed.

Lemma drop_table_healthy (table : string) (p : pg) :
  healthy (conn_ p) ->
  exists p', drop_table table p = (p', Ok PG_OK) /\ healthy (conn_ p').
Proof.
  intros Hh.
  destruct (exec_command_healthy ("DROP TABLE IF EXISTS " ++ table ++ ";") p eq_refl Hh)
    as (p' & E & H').
  exists p'. split; [|exact H'].
  unfold drop_table. cbv zeta. unfold bind in *.
  destruct (on_conn _ p) as [q [r|e]]; [|discriminate E].
  destruct (EVT_ASSERT _ _ q) as [q' [[]|e]]; [|discriminate E].
  now injection E as ->.
Qed.

Lemma for_each_stmt_healthy (stmts : list string) (p : pg) :
  forallb (fun stmt => negb (String.prefix "COPY " stmt)) stmts = true ->
  healthy (conn_ p) ->
  exists p', for_each_stmt stmts p = (p', Ok tt) /\ healthy (conn_ p').
Proof.
  revert p. induction stmts as [|stmt rest IH]; intros p Hs Hh.
  - exists p. split; [reflexivity | exact Hh].
  - cbn [forallb] in Hs. apply andb_prop in Hs as [Hc Hrest].
    apply negb_true_iff in Hc.
    destruct (exec_command_healthy stmt p Hc Hh) as (p1 & E & H1).
    destruct (IH p1 Hrest H1) as (p2 & E2 & H2).
    exists p2. split; [|exact H2].
    cbn [for_each_stmt]. unfold bind in *.
    destruct (on_conn _ p) as [q [r|e]]; [|discriminate E].
    destruct (EVT_ASSERT _ _ q) as [q' [[]|e]]; [|discriminate E].
    injection E as ->. exact E2.
Qed.

(** A schema statement is refused: the exception is the execution error. *)
Lemma for_each_stmt_raises (stmts : list string) (p : pg) (e : exception) :
  snd (for_each_stmt stmts p) = Throw e -> e = postgres_exec_exception.
Proof.
  revert p. induction stmts as [|stmt rest IH]; intros p; cbn [for_each_stmt].
  - discriminate.
  - unfold bind at 1. unfold on_conn at 1.
    destruct (PQexec (conn_ p) stmt) as [c r]. unfold bind at 1.
    destruct (status_eqb (PQresultStatus r) PGRES_COMMAND_OK);
      cbn [EVT_ASSERT ret throw].
    + apply IH.
    + cbn. intros H. now injection H as <-.
Qed.

(** X4.  [prepare_tables] executes the nine table definitions in the order
    stats, blocks, transactions, metas, actions, domains, tokens, groups,
    fungibles, and [drop_all_tables] drops the nine tables in that same
    order; each stops at the first statement the server refuses (what was
    sent is a beginning of the sequence), [prepare_tables] then raising the
    execution error, and both return [PG_OK] on a server that answers. *)
Theorem schema_operations_in_order :
  sends prepare_tables
        (map ReqExec [create_stats_table; create_blocks_table; create_trxs_table;
                      create_metas_table; create_actions_table; create_domains_table;
                      create_tokens_table; create_groups_table; create_fungibles_table])
  /\ sends drop_all_tables
           (map (fun table => ReqExec ("DROP TABLE IF EXISTS " ++ table ++ ";"))
                dropped_tables)
  /\ (forall p e, snd (prepare_tables p) = Throw e -> e = postgres_exec_exception)
  /\ succeeds prepare_tables PG_OK
  /\ succeeds drop_all_tables PG_OK.
Proof.
  split; [|split; [|split; [|split]]].
  - unfold prepare_tables. cbv zeta.
    rewrite <- (app_nil_r (map ReqExec _)).
    apply sends_bind; [apply sends_for_each_stmt | intros _; apply sends_ret].
  - unfold drop_all_tables, dropped_tables. cbn [map].
    repeat (match goal with
            | |- sends (bind (drop_table ?t) _) (?r :: ?rest) =>
                change (r :: rest) with ([r] ++ rest)%list;
                apply sends_bind; [apply sends_drop_table | intros _]
            end).
    apply sends_ret.
  - intros p e. unfold prepare_tables. cbv zeta. unfold bind at 1.
    pose proof (for_each_stmt_raises
                  [create_stats_table; create_blocks_table; create_trxs_table;
                   create_metas_table; create_actions_table; create_domains_table;
                   create_tokens_table; create_groups_table; create_fungibles_table] p) as H.
    destruct (for_each_stmt _ p) as [q [[]|e']]; cbn [snd ret] in *.
    + discriminate.
    + intros E. injection E as <-. now apply H.
  - unfold prepare_tables. cbv zeta.
    apply (succeeds_bind _ _ tt); [|apply succeeds_ret].
    intros p Hh. apply for_each_stmt_healthy; [vm_compute; reflexivity | exact Hh].
  - unfold drop_all_tables.
    repeat (apply (succeeds_bind _ _ PG_OK); [intros p Hh; now apply drop_table_healthy|]).
    apply succeeds_ret.
Qed.

Lemma schema_operations_in_order_witness :
  exists p', drop_all_tables synced = (p', Ok PG_OK) /\ healthy (conn_ p').
Proof.
  apply (proj2 (proj2 (proj2 (proj2 schema_operations_in_order))) synced).
  intros r. reflexivity.
Defined.

(** ** The start-up gates, when they fail *)











(** On a server that answers, a session whose flags have fired while nothing
    is registered (a second connection of the same process) fails the check
    with the execution error. *)
Example check_last_sync_block_stale_flags :
  snd (check_last_sync_block
         (mkPg (mkConn [("last_sync_block_id", "00000001aa")] [block_a] [] answering [])
               "" ["__rs_plan_flag"; "__glb_plan_flag"]))
  = Throw postgres_exec_exception.
Proof. reflexivity. Qed.

(** ** Registering a statement once *)

Lemma flag_set_raised (flag : string) (p : pg) : flag_set flag (raise_flag p flag) = true.
Proof. unfold flag_set, raise_flag. cbn. now rewrite String.eqb_refl. Qed.

(** X6.  [PREPARE_SQL_ONCE] registers at most once: after a call that
    returned normally, a second call for the same statement sends nothing and
    changes nothing.  A call that raises raised the execution error and left
    the flag down, so the registration is tried again by the next call. *)
Theorem prepare_once_is_once (name sql : string) (p : pg) :
  let first := PREPARE_SQL_ONCE name sql p in
  (snd first = Ok tt -> PREPARE_SQL_ONCE name sql (fst first) = (fst first, Ok tt))
  /\ (forall e, snd first = Throw e ->
                e = postgres_exec_exception
                /\ flag_set ("__" ++ name ++ "_flag") (fst first) = false).
Proof.
  cbv zeta. unfold PREPARE_SQL_ONCE, call_once.
  destruct (flag_set ("__" ++ name ++ "_flag") p) eqn:F.
  - cbn [fst snd]. rewrite F. split; [reflexivity | discriminate].
  - unfold prepare, bind, on_conn, PQprepare.
    destruct (server_accepts (conn_ p) (ReqPrepare name sql));
      [destruct (lookup name (prepared (conn_ p)))|];
      cbn [PQresultStatus status_eqb EVT_ASSERT ret throw fatal fst snd];
      (split; [intros H; first [discriminate H | now rewrite flag_set_raised]
              | intros e H;
                first [discriminate H
                      | injection H as <-; split; [reflexivity | exact F]]]).
Qed.

Lemma prepare_once_is_once_witness :
  PREPARE_SQL_ONCE "as_plan" "INSERT INTO stats VALUES($1, $2, now(), now())"
    (fst (PREPARE_SQL_ONCE "as_plan" "INSERT INTO stats VALUES($1, $2, now(), now())"
            synced))
  = (fst (PREPARE_SQL_ONCE "as_plan" "INSERT INTO stats VALUES($1, $2, now(), now())"
            synced), Ok tt).
Proof.
  apply (proj1 (prepare_once_is_once "as_plan"
                  "INSERT INTO stats VALUES($1, $2, now(), now())" synced)).
  reflexivity.
Defined.

(** From a state in which [am_plan] is registered while the flag of
    [add_meta] is down, [add_meta] raises before it appends anything, and
    leaves the flag down and the registered statements as they are. *)
Lemma add_meta_stuck (act : action_t) (p : pg) (tctx : trx_context) :
  flag_set "__flag" p = false ->
  lookup "am_plan" (prepared (conn_ p)) <> None ->
  snd (add_meta act (p, tctx)) = Throw postgres_exec_exception
  /\ snd (fst (add_meta act (p, tctx))) = tctx
  /\ flag_set "__flag" (fst (fst (add_meta act (p, tctx)))) = false
  /\ prepared (conn_ (fst (fst (add_meta act (p, tctx))))) = prepared (conn_ p).
Proof.
  intros F L.
  assert (E : add_meta act (p, tctx)
              = ((set_conn p
                    (sent (conn_ p)
                       (ReqPrepare "am_plan"
                          "INSERT INTO metas VALUES(DEFAULT, $1, $2, $3, now());")),
                  tctx), Throw postgres_exec_exception)).
  { unfold add_meta. unfold bind at 1. unfold on_pg. cbn [fst snd].
    unfold prepare_meta_plans, call_once. rewrite F.
    unfold bind at 1. unfold prepare at 1. unfold bind at 1. unfold on_conn, PQprepare.
    destruct (lookup "am_plan" (prepared (conn_ p))) as [sql|]; [|now elim L].
    destruct (server_accepts (conn_ p) _); reflexivity. }
  rewrite E. cbn [fst snd]. repeat split. exact F.
Qed.

(** X7.  The five registrations of [add_meta] sit behind one flag and are
    not undone when one of them fails: if the server registers [am_plan] and
    refuses [amd_plan], the call raises the execution error with the flag
    still down and [am_plan] registered; from then on, as long as the
    flag is down and the session holds those registrations, every call of
    [add_meta] raises the execution error, appends nothing and leaves the
    flag and the registrations as they are, whatever the server answers. *)
Theorem add_meta_registration_not_atomic (act : action_t) (p : pg) (tctx : trx_context) :
  flag_set "__flag" p = false ->
  lookup "am_plan" (prepared (conn_ p)) = None ->
  server_accepts (conn_ p)
    (ReqPrepare "am_plan" "INSERT INTO metas VALUES(DEFAULT, $1, $2, $3, now());") = true ->
  server_accepts (conn_ p)
    (ReqPrepare "amd_plan"
       "UPDATE domains SET metas = array_append(metas, $1) WHERE name = $2;") = false ->
  let failed := fst (fst (add_meta act (p, tctx))) in
  snd (add_meta act (p, tctx)) = Throw postgres_exec_exception
  /\ flag_set "__flag" failed = false
  /\ lookup "am_plan" (prepared (conn_ failed)) <> None
  /\ forall q act' tctx',
       flag_set "__flag" q = false ->
       prepared (conn_ q) = prepared (conn_ failed) ->
       let again := add_meta act' (q, tctx') in
       snd again = Throw postgres_exec_exception
       /\ snd (fst again) = tctx'
       /\ flag_set "__flag" (fst (fst again)) = false
       /\ prepared (conn_ (fst (fst again))) = prepared (conn_ failed).
Proof.
  intros F L A1 A2. cbv zeta.
  assert (E : add_meta act (p, tctx)
              = ((set_conn p
                    (sent (with_prepared
                             (sent (conn_ p)
                                (ReqPrepare "am_plan"
                                   "INSERT INTO metas VALUES(DEFAULT, $1, $2, $3, now());"))
                             "am_plan"
                             "INSERT INTO metas VALUES(DEFAULT, $1, $2, $3, now());")
                          (ReqPrepare "amd_plan"
                             "UPDATE domains SET metas = array_append(metas, $1) WHERE name = $2;")),
                  tctx), Throw postgres_exec_exception)).
  { unfold add_meta. unfold bind at 1. unfold on_pg. cbn [fst snd].
    unfold prepare_meta_plans, call_once. rewrite F.
    unfold bind at 1. unfold prepare at 1. unfold bind at 1. unfold on_conn at 1.
    unfold PQprepare at 1. rewrite A1, L.
    cbn [PQresultStatus status_eqb EVT_ASSERT ret throw fst snd].
    unfold bind at 1. unfold prepare at 1. unfold bind at 1. unfold on_conn at 1.
    unfold PQprepare at 1.
    cbn [conn_ set_conn sent with_prepared server_accepts]. rewrite A2.
    reflexivity. }
  rewrite E. cbn [fst snd].
  split; [reflexivity|]. split; [exact F|].
  split; [cbn; discriminate|].
  intros q act' tctx' Fq Pq. cbv zeta.
  assert (Lq : lookup "am_plan" (prepared (conn_ q)) <> None)
    by (rewrite Pq; cbn; discriminate).
  destruct (add_meta_stuck act' q tctx' Fq Lq) as (T & B & G & K).
  rewrite K, Pq. repeat split; assumption.
Qed.

Lemma add_meta_registration_not_atomic_witness :
  let failed :=
    fst (fst (add_meta meta_of_fungible (served_by refuses_amd_plan, new_trx_context))) in
  snd (add_meta meta_of_fungible (served_by refuses_amd_plan, new_trx_context))
  = Throw postgres_exec_exception
  /\ flag_set "__flag" failed = false
  /\ lookup "am_plan" (prepared (conn_ failed)) <> None
  /\ forall q act' tctx',
       flag_set "__flag" q = false ->
       prepared (conn_ q) = prepared (conn_ failed) ->
       let again := add_meta act' (q, tctx') in
       snd again = Throw postgres_exec_exception
       /\ snd (fst again) = tctx'
       /\ flag_set "__flag" (fst (fst again)) = false
       /\ prepared (conn_ (fst (fst again))) = prepared (conn_ failed).
Proof.
  apply (add_meta_registration_not_atomic meta_of_fungible (served_by refuses_amd_plan)
           new_trx_context); reflexivity.
Defined.

(** ** The statement log only grows *)

Lemma appends_ret {A} (a : A) : appends (ret a).
Proof. intros s. exists "". cbn. now rewrite append_nil_r. Qed.

Lemma appends_throw {A} (e : exception) : appends (@throw _ A e).
Proof. intros s. exists "". cbn. now rewrite append_nil_r. Qed.

Lemma appends_on_pg {A} (m : M pg A) : appends (on_pg m).
Proof.
  intros s. exists "". unfold on_pg. destruct (m (fst s)). cbn.
  now rewrite append_nil_r.
Qed.

Lemma appends_format (text : string) : appends (format_to_trx_buf text).
Proof. intros s. exists text. reflexivity. Qed.

Lemma appends_bind {A B} (m : M (pg * trx_context) A) (k : A -> M (pg * trx_context) B) :
  appends m -> (forall a, appends (k a)) -> appends (bind m k).
Proof.
  intros Hm Hk s. destruct (Hm s) as (t1 & E1). unfold bind.
  destruct (m s) as [s1 [a|e]]; cbn [fst snd] in *.
  - destruct (Hk a s1) as (t2 & E2). exists (t1 ++ t2).
    now rewrite E2, E1, append_assoc.
  - now exists t1.
Qed.

Lemma appends_for_each_name (names : list name128) (body : name128 -> M (pg * trx_context) unit) :
  (forall name, appends (body name)) -> appends (for_each_name names body).
Proof.
  intros Hb. induction names as [|n names IH]; cbn [for_each_name].
  - apply appends_ret.
  - apply appends_bind; [apply Hb | intros _; exact IH].
Qed.

(** ** The prepare-once invariant is kept *)

Lemma keeps_ready_ret {A} (a : A) : keeps_ready (ret a).
Proof. intros p H. exact H. Qed.

Lemma keeps_ready_throw {A} (e : exception) : keeps_ready (@throw _ A e).
Proof. intros p H. exact H. Qed.

Lemma keeps_ready_bind {A B} (m : M pg A) (k : A -> M pg B) :
  keeps_ready m -> (forall a, keeps_ready (k a)) -> keeps_ready (bind m k).
Proof.
  intros Hm Hk p Hr. specialize (Hm p Hr). unfold bind.
  destruct (m p) as [p1 [a|e]]; cbn [fst] in *; [now apply Hk | exact Hm].
Qed.

Lemma keeps_ready_assert (cond : bool) (e : exception) : keeps_ready (@EVT_ASSERT pg cond e).
Proof. intros p H. unfold EVT_ASSERT. now destruct cond. Qed.

(** A libpq call that only talks: the session holds what it held. *)
Lemma keeps_ready_talk {A} (f : PGconn -> PGconn * A) :
  (forall c, prepared (fst (f c)) = prepared c
             /\ server_accepts (fst (f c)) = server_accepts c) ->
  keeps_ready (on_conn f).
Proof.
  intros Hf p [Hh Hc]. unfold on_conn. destruct (Hf (conn_ p)) as [Hp Hs].
  destruct (f (conn_ p)) as [c a]. cbn [fst] in *. split.
  - intros r. cbn. rewrite Hs. apply Hh.
  - unfold once_consistent, site_consistent, flag_set in *. cbn. now rewrite Hp.
Qed.

Lemma keeps_ready_exec (stmt : string) : keeps_ready (on_conn (fun c => PQexec c stmt)).
Proof.
  apply keeps_ready_talk. intros c. unfold PQexec.
  destruct (server_accepts c _); split; reflexivity.
Qed.

Lemma keeps_ready_exec_prepared (name : string) (params : list string) :
  keeps_ready (on_conn (fun c => PQexecPrepared c name params)).
Proof.
  apply keeps_ready_talk. intros c. unfold PQexecPrepared.
  destruct (server_accepts c _), (lookup name (prepared c)); split; reflexivity.
Qed.

Lemma keeps_ready_prepare_once (name sql : string) :
  own_site name sql = true -> keeps_ready (PREPARE_SQL_ONCE name sql).
Proof.
  intros Ho p Hr. destruct (prepare_once_ready name sql p Ho Hr) as (p' & E & R & _).
  now rewrite E.
Qed.

Lemma keeps_ready_prepare_meta_plans : keeps_ready prepare_meta_plans.
Proof.
  intros p Hr. destruct (prepare_meta_plans_ready p Hr) as (p' & E & R & _).
  now rewrite E.
Qed.

Lemma keeps_ready_read_stat (key value : string) : keeps_ready (read_stat key value).
Proof.
  intros p Hr. destruct (read_stat_ready key value p Hr) as (p' & E & R & _).
  now rewrite E.
Qed.

Lemma keeps_ready_get_latest_block_id (id : string) : keeps_ready (get_latest_block_id id).
Proof.
  intros p Hr. destruct (get_latest_block_id_ready id p Hr) as (p' & E & R & _).
  now rewrite E.
Qed.

Lemma keeps_ready_block_copy_to (table data : string) : keeps_ready (block_copy_to table data).
Proof.
  unfold block_copy_to. cbv zeta.
  apply keeps_ready_bind; [apply keeps_ready_exec | intros r].
  apply keeps_ready_bind; [apply keeps_ready_assert | intros _].
  apply keeps_ready_bind;
    [apply keeps_ready_talk; intros c; split; reflexivity | intros nr].
  apply keeps_ready_bind; [apply keeps_ready_assert | intros _].
  apply keeps_ready_bind;
    [apply keeps_ready_talk; intros c; split; reflexivity | intros nr2].
  apply keeps_ready_bind; [apply keeps_ready_assert | intros _].
  apply keeps_ready_bind;
    [apply keeps_ready_talk; intros c; split; reflexivity | intros r2].
  apply keeps_ready_bind; [apply keeps_ready_assert | intros _].
  apply keeps_ready_ret.
Qed.

Lemma keeps_ready_when (cond : bool) (m : M pg Z) : keeps_ready m -> keeps_ready (when cond m).
Proof.
  intros Hm. unfold when. destruct cond; [|apply keeps_ready_ret].
  apply keeps_ready_bind; [exact Hm | intros _; apply keeps_ready_ret].
Qed.

Lemma keeps_ready_commit_copy_context (cctx : copy_context) :
  keeps_ready (commit_copy_context cctx).
Proof.
  unfold commit_copy_context.
  repeat (apply keeps_ready_bind;
          [apply keeps_ready_when, keeps_ready_block_copy_to | intros _]).
  apply keeps_ready_when, keeps_ready_block_copy_to.
Qed.

Lemma keeps_ready_commit_trx_context (tctx : trx_context) :
  keeps_ready (commit_trx_context tctx).
Proof.
  unfold commit_trx_context.
  destruct (String.length (trx_buf_ tctx) =? 0)%nat; [apply keeps_ready_ret|].
  cbv zeta. apply keeps_ready_bind; [apply keeps_ready_exec | intros r].
  apply keeps_ready_assert.
Qed.

Lemma translator_on_pg {A} (m : M pg A) : keeps_ready m -> translator_keeps_ready (on_pg m).
Proof.
  intros Hm p tctx Hr. unfold on_pg. cbn [fst snd]. specialize (Hm p Hr).
  now destruct (m p).
Qed.

Lemma translator_ret {A} (a : A) : translator_keeps_ready (ret a).
Proof. intros p tctx H. exact H. Qed.

Lemma translator_throw {A} (e : exception) : translator_keeps_ready (@throw _ A e).
Proof. intros p tctx H. exact H. Qed.

Lemma translator_format (text : string) : translator_keeps_ready (format_to_trx_buf text).
Proof. intros p tctx H. exact H. Qed.

Lemma translator_bind {A B} (m : M (pg * trx_context) A) (k : A -> M (pg * trx_context) B) :
  translator_keeps_ready m -> (forall a, translator_keeps_ready (k a)) ->
  translator_keeps_ready (bind m k).
Proof.
  intros Hm Hk p tctx Hr. specialize (Hm p tctx Hr). unfold bind.
  destruct (m (p, tctx)) as [[p1 t1] [a|e]]; cbn [fst] in *; [now apply Hk | exact Hm].
Qed.

Lemma translator_for_each_name (names : list name128)
      (body : name128 -> M (pg * trx_context) unit) :
  (forall name, translator_keeps_ready (body name)) ->
  translator_keeps_ready (for_each_name names body).
Proof.
  intros Hb. induction names as [|n names IH]; cbn [for_each_name].
  - apply translator_ret.
  - apply translator_bind; [apply Hb | intros _; exact IH].
Qed.

Section TranslatorInvariants.

Variable variant : Type.
Variable permission_def : Type.
Variable group : Type.
Variable permission_to_variant : permission_def -> variant.
Variable group_to_variant : group -> variant.
Variable variant_at : variant -> string -> variant.
Variable json_to_string : variant -> string.
Variable group_key : group -> string.

(** X8.  Every translator only adds text at the end of the statement log:
    whatever the action, the state of the session and the answers of the
    server, and also when it raises, the log afterwards is the log before
    followed by new text. *)
Theorem translators_only_append :
  (forall id, appends (set_block_irreversible id))
  /\ (forall key value, appends (add_stat key value))
  /\ (forall key value, appends (upd_stat key value))
  /\ (forall it, appends (add_tokens it))
  /\ (forall tf, appends (upd_token tf))
  /\ (forall dt, appends (del_token dt))
  /\ (forall act, appends (add_meta act))
  /\ (forall nd : newdomain permission_def,
        appends (add_domain permission_to_variant json_to_string nd))
  /\ (forall ud : updatedomain permission_def,
        appends (upd_domain permission_to_variant json_to_string ud))
  /\ (forall ng : newgroup group,
        appends (add_group group_to_variant variant_at json_to_string group_key ng))
  /\ (forall ug : updategroup group,
        appends (upd_group group_to_variant variant_at json_to_string ug))
  /\ (forall nf : newfungible permission_def,
        appends (add_fungible permission_to_variant json_to_string nf))
  /\ (forall uf : updfungible permission_def,
        appends (upd_fungible permission_to_variant json_to_string uf)).
Proof.
  repeat match goal with |- _ /\ _ => split end; intros;
    unfold set_block_irreversible, add_stat, upd_stat, add_tokens, upd_token, del_token,
      add_meta, add_domain, upd_domain, add_group, upd_group, add_fungible, upd_fungible;
    cbv zeta;
    repeat first
      [ apply appends_ret | apply appends_throw | apply appends_on_pg | apply appends_format
      | apply appends_for_each_name; intros ?
      | apply appends_bind; [|intros ?]
      | match goal with |- appends (if ?c then _ else _) => destruct c end
      | match goal with |- appends (match ?c with _ => _ end) => destruct c end ].
Qed.

(** X9.  The prepare-once invariant (a statement is registered on the
    session exactly when its flag has fired, on a server that answers) is
    kept by the start-up gates, by both flushes, by the schema operations and
    by every translator, also when they raise: a ready session stays ready. *)
Theorem operations_keep_ready :
  keeps_ready check_version
  /\ keeps_ready check_last_sync_block
  /\ (forall cctx, keeps_ready (commit_copy_context cctx))
  /\ (forall tctx, keeps_ready (commit_trx_context tctx))
  /\ keeps_ready drop_all_tables
  /\ keeps_ready prepare_tables
  /\ (forall id, translator_keeps_ready (set_block_irreversible id))
  /\ (forall key value, translator_keeps_ready (add_stat key value))
  /\ (forall key value, translator_keeps_ready (upd_stat key value))
  /\ (forall it, translator_keeps_ready (add_tokens it))
  /\ (forall tf, translator_keeps_ready (upd_token tf))
  /\ (forall dt, translator_keeps_ready (del_token dt))
  /\ (forall act, translator_keeps_ready (add_meta act))
  /\ (forall nd : newdomain permission_def,
        translator_keeps_ready (add_domain permission_to_variant json_to_string nd))
  /\ (forall ud : updatedomain permission_def,
        translator_keeps_ready (upd_domain permission_to_variant json_to_string ud))
  /\ (forall ng : newgroup group,
        translator_keeps_ready
          (add_group group_to_variant variant_at json_to_string group_key ng))
  /\ (forall ug : updategroup group,
        translator_keeps_ready (upd_group group_to_variant variant_at json_to_string ug))
  /\ (forall nf : newfungible permission_def,
        translator_keeps_ready (add_fungible permission_to_variant json_to_string nf))
  /\ (forall uf : updfungible permission_def,
        translator_keeps_ready (upd_fungible permission_to_variant json_to_string uf)).
Proof.
  split.
  { unfold check_version. cbv zeta.
    apply keeps_ready_bind; [apply keeps_ready_read_stat | intros [rc v]].
    apply keeps_ready_bind;
      [destruct (negb (truthy rc)); [apply keeps_ready_throw | apply keeps_ready_ret]
      | intros _].
    apply keeps_ready_bind; [apply keeps_ready_assert | intros _; apply keeps_ready_ret]. }
  split.
  { unfold check_last_sync_block. cbv zeta.
    apply keeps_ready_bind; [apply keeps_ready_read_stat | intros [rc v]].
    apply keeps_ready_bind;
      [destruct (negb (truthy rc)); [apply keeps_ready_throw | apply keeps_ready_ret]
      | intros _].
    apply keeps_ready_bind; [apply keeps_ready_get_latest_block_id | intros [rc2 id]].
    destruct (truthy rc2); [|apply keeps_ready_throw].
    apply keeps_ready_bind; [apply keeps_ready_assert | intros _].
    apply keeps_ready_bind; [intros p H; exact H | intros _; apply keeps_ready_ret]. }
  split.
  { exact keeps_ready_commit_copy_context. }
  split.
  { exact keeps_ready_commit_trx_context. }
  split.
  { unfold drop_all_tables, drop_table. cbv zeta.
    repeat (apply keeps_ready_bind;
            [apply keeps_ready_bind; [apply keeps_ready_exec | intros ?];
             apply keeps_ready_bind;
               [apply keeps_ready_assert | intros _; apply keeps_ready_ret]
            | intros _]).
    apply keeps_ready_ret. }
  split.
  { unfold prepare_tables. cbv zeta.
    apply keeps_ready_bind; [|intros _; apply keeps_ready_ret].
    generalize [create_stats_table; create_blocks_table; create_trxs_table;
                create_metas_table; create_actions_table; create_domains_table;
                create_tokens_table; create_groups_table; create_fungibles_table].
    intros stmts. induction stmts as [|stmt rest IH]; cbn [for_each_stmt].
    - apply keeps_ready_ret.
    - apply keeps_ready_bind; [apply keeps_ready_exec | intros r].
      apply keeps_ready_bind; [apply keeps_ready_assert | intros _; exact IH]. }
  repeat match goal with |- _ /\ _ => split end; intros;
    unfold set_block_irreversible, add_stat, upd_stat, add_tokens, upd_token, del_token,
      add_meta, add_domain, upd_domain, add_group, upd_group, add_fungible, upd_fungible;
    cbv zeta;
    repeat first
      [ apply translator_ret | apply translator_throw | apply translator_format
      | apply translator_on_pg;
        first [ apply keeps_ready_prepare_once; reflexivity
              | apply keeps_ready_prepare_meta_plans ]
      | apply translator_for_each_name; intros ?
      | apply translator_bind; [|intros ?]
      | match goal with
        | |- translator_keeps_ready (if ?c then _ else _) => destruct c
        end
      | match goal with
        | |- translator_keeps_ready (match ?c with _ => _ end) => destruct c
        end ].
Qed.

End TranslatorInvariants.

Lemma operations_keep_ready_witness :
  ready (fst (check_last_sync_block (fst (check_version synced)))).
Proof.
  pose proof (operations_keep_ready string string string text_of text_of first_of text_of
                text_of) as (V & S & _).
  apply S, V. split; [intros r; reflexivity | reflexivity].
Defined.

(** ** Numbers in keys *)

Lemma read_digits_acc (d : Decimal.uint) (acc : positive) :
  read_digits (Zpos acc) (NilEmpty.string_of_uint d) = Some (Zpos (Pos.of_uint_acc d acc)).
Proof.
  revert acc. induction d as [|d IH|d IH|d IH|d IH|d IH|d IH|d IH|d IH|d IH|d IH];
    intros acc; cbn [NilEmpty.string_of_uint read_digits Pos.of_uint_acc];
    [reflexivity|..];
    match goal with
    | |- context [digit_value ?c] =>
        let v := eval vm_compute in (digit_value c) in
        change (digit_value c) with v; cbv beta iota
    end;
    rewrite <- IH; f_equal; lia.
Qed.

Lemma read_digits_uint (d : Decimal.uint) :
  read_digits 0%Z (NilEmpty.string_of_uint d) = Some (Z.of_N (Pos.of_uint d)).
Proof.
  induction d as [|d IH|d IH|d IH|d IH|d IH|d IH|d IH|d IH|d IH|d IH];
    cbn [NilEmpty.string_of_uint read_digits Pos.of_uint];
    [reflexivity|..];
    match goal with
    | |- context [digit_value ?c] =>
        let v := eval vm_compute in (digit_value c) in
        change (digit_value c) with v; cbv beta iota
    end;
    [exact IH | apply read_digits_acc ..].
Qed.

(** The digits of a positive number: at least one, led by a digit. *)
Lemma digits_of_positive (p : positive) :
  exists c rest,
    NilZero.string_of_uint (Pos.to_uint p) = String c rest
    /\ NilEmpty.string_of_uint (Pos.to_uint p) = String c rest
    /\ Ascii.eqb c "-" = false /\ Ascii.eqb c "+" = false
    /\ read_digits 0%Z (String c rest) = Some (Zpos p).
Proof.
  pose proof (read_digits_uint (Pos.to_uint p)) as R.
  rewrite Unsigned.of_to in R.
  pose proof (Unsigned.to_uint_nonnil p) as N.
  unfold NilZero.string_of_uint.
  destruct (Pos.to_uint p) as [|d|d|d|d|d|d|d|d|d|d]; [now elim N|..];
    cbn [NilEmpty.string_of_uint] in *; do 2 eexists; repeat split; exact R.
Qed.

Lemma lexical_cast_fmt_d_range (n : Z) :
  lexical_cast_int64 (fmt_d n)
  = if in_int64 n then Some n else None.
Proof.
  unfold fmt_d. destruct n as [|p|p].
  - reflexivity.
  - cbn [Z.to_int NilZero.string_of_int].
    destruct (digits_of_positive p) as (c & rest & E & _ & M & P & R).
    rewrite E. unfold lexical_cast_int64. rewrite M, P, R. reflexivity.
  - cbn [Z.to_int NilZero.string_of_int].
    destruct (digits_of_positive p) as (c & rest & E & _ & M & P & R).
    rewrite E. unfold lexical_cast_int64.
    change (Ascii.eqb "-" "-") with true. cbv iota. rewrite R. reflexivity.
Qed.

(** X10.  The symbol id of a fungible survives the trip through the text of
    the key: in a ready state, for an action of the fungible domain whose key
    is the decimal text of a 64-bit integer, [add_meta] appends the insert
    line and the update of the fungibles row with that very text as symbol
    id; when the integer is outside the 64-bit range the conversion raises
    after the insert line, and no update line is appended. *)
Theorem add_meta_fungible_by_id (p : pg) (tctx : trx_context) (name : string)
        (am : addmeta) (sym_id : Z) :
  ready p ->
  exists p',
    add_meta (mkAction name N128_fungible (fmt_d sym_id) am) (p, tctx)
    = if in_int64 sym_id
      then ((p', mkTrx (trx_buf_ tctx ++ meta_insert_line am
                        ++ owner_line "amf_plan" (fmt_d sym_id))), Ok PG_OK)
      else ((p', mkTrx (trx_buf_ tctx ++ meta_insert_line am)), Throw bad_lexical_cast).
Proof.
  intros Hr.
  destruct (add_meta_run p tctx (mkAction name N128_fungible (fmt_d sym_id) am) Hr)
    as (p' & _ & _ & _ & E).
  exists p'. rewrite E. cbv zeta. cbn [act_domain act_key act_data trx_buf_].
  change (String.eqb N128_fungible N128_fungible) with true. cbv iota.
  rewrite lexical_cast_fmt_d_range.
  destruct (in_int64 sym_id); [now rewrite append_assoc | reflexivity].
Qed.

Lemma add_meta_fungible_by_id_witness :
  exists p',
    add_meta (mkAction "addmeta" N128_fungible (fmt_d (2 ^ 63))
                (mkAddMeta "logo" "png" "creator"))
             (synced, new_trx_context)
    = ((p', mkTrx (trx_buf_ new_trx_context
                   ++ meta_insert_line (mkAddMeta "logo" "png" "creator"))),
       Throw bad_lexical_cast).
Proof.
  apply (add_meta_fungible_by_id synced new_trx_context "addmeta"
           (mkAddMeta "logo" "png" "creator") (2 ^ 63)).
  apply connected_ready.
Defined.

(** ** Translators never execute anything *)

Lemma prepares_only_ret {A} (a : A) : prepares_only (ret a).
Proof. intros p. exists []. cbn. now rewrite app_nil_r. Qed.

Lemma prepares_only_assert (cond : bool) (e : exception) :
  prepares_only (@EVT_ASSERT pg cond e).
Proof. intros p. exists []. unfold EVT_ASSERT. destruct cond; cbn; now rewrite app_nil_r. Qed.

Lemma prepares_only_bind {A B} (m : M pg A) (k : A -> M pg B) :
  prepares_only m -> (forall a, prepares_only (k a)) -> prepares_only (bind m k).
Proof.
  intros Hm Hk p. destruct (Hm p) as (r1 & E1 & F1). unfold bind.
  destruct (m p) as [p1 [a|e]]; cbn [fst snd] in *.
  - destruct (Hk a p1) as (r2 & E2 & F2). exists (r1 ++ r2)%list.
    rewrite E2, E1, app_assoc, forallb_app, F1, F2. now split.
  - now exists r1.
Qed.

Lemma prepares_only_prepare (name sql : string) : prepares_only (prepare name sql).
Proof.
  unfold prepare. apply prepares_only_bind; [|intros r; apply prepares_only_assert].
  intros p. exists [ReqPrepare name sql]. unfold on_conn, PQprepare. cbv zeta.
  destruct (server_accepts (conn_ p) _), (lookup name (prepared (conn_ p)));
    split; reflexivity.
Qed.

Lemma prepares_only_call_once (flag : string) (body : M pg unit) :
  prepares_only body -> prepares_only (call_once flag body).
Proof.
  intros Hb p. unfold call_once. destruct (flag_set flag p).
  - exists []. cbn. now rewrite app_nil_r.
  - destruct (Hb p) as (r & E & F). exists r.
    destruct (body p) as [p1 [a|e]]; cbn [fst] in *; now split.
Qed.

Lemma registers_on_pg {A} (m : M pg A) : prepares_only m -> registers_only (on_pg m).
Proof.
  intros Hm s. destruct (Hm (fst s)) as (r & E & F). exists r.
  unfold on_pg. destruct (m (fst s)). cbn [fst] in *. now split.
Qed.

Lemma registers_ret {A} (a : A) : registers_only (ret a).
Proof. intros s. exists []. cbn. now rewrite app_nil_r. Qed.

Lemma registers_throw {A} (e : exception) : registers_only (@throw _ A e).
Proof. intros s. exists []. cbn. now rewrite app_nil_r. Qed.

Lemma registers_format (text : string) : registers_only (format_to_trx_buf text).
Proof. intros s. exists []. cbn. now rewrite app_nil_r. Qed.

Lemma registers_bind {A B} (m : M (pg * trx_context) A) (k : A -> M (pg * trx_context) B) :
  registers_only m -> (forall a, registers_only (k a)) -> registers_only (bind m k).
Proof.
  intros Hm Hk s. destruct (Hm s) as (r1 & E1 & F1). unfold bind.
  destruct (m s) as [s1 [a|e]]; cbn [fst snd] in *.
  - destruct (Hk a s1) as (r2 & E2 & F2). exists (r1 ++ r2)%list.
    rewrite E2, E1, app_assoc, forallb_app, F1, F2. now split.
  - now exists r1.
Qed.

Lemma registers_for_each_name (names : list name128)
      (body : name128 -> M (pg * trx_context) unit) :
  (forall name, registers_only (body name)) -> registers_only (for_each_name names body).
Proof.
  intros Hb. induction names as [|n names IH]; cbn [for_each_name].
  - apply registers_ret.
  - apply registers_bind; [apply Hb | intros _; exact IH].
Qed.

Section TranslatorTraffic.

Variable variant : Type.
Variable permission_def : Type.
Variable group : Type.
Variable permission_to_variant : permission_def -> variant.
Variable group_to_variant : group -> variant.
Variable variant_at : variant -> string -> variant.
Variable json_to_string : variant -> string.
Variable group_key : group -> string.

(** X11.  No translator executes anything: whatever the action, the state of
    the session and the answers of the server, and also when it raises, the
    only requests a translator sends are registrations of statements. *)
Theorem translators_only_register :
  (forall id, registers_only (set_block_irreversible id))
  /\ (forall key value, registers_only (add_stat key value))
  /\ (forall key value, registers_only (upd_stat key value))
  /\ (forall it, registers_only (add_tokens it))
  /\ (forall tf, registers_only (upd_token tf))
  /\ (forall dt, registers_only (del_token dt))
  /\ (forall act, registers_only (add_meta act))
  /\ (forall nd : newdomain permission_def,
        registers_only (add_domain permission_to_variant json_to_string nd))
  /\ (forall ud : updatedomain permission_def,
        registers_only (upd_domain permission_to_variant json_to_string ud))
  /\ (forall ng : newgroup group,
        registers_only (add_group group_to_variant variant_at json_to_string group_key ng))
  /\ (forall ug : updategroup group,
        registers_only (upd_group group_to_variant variant_at json_to_string ug))
  /\ (forall nf : newfungible permission_def,
        registers_only (add_fungible permission_to_variant json_to_string nf))
  /\ (forall uf : updfungible permission_def,
        registers_only (upd_fungible permission_to_variant json_to_string uf)).
Proof.
  repeat match goal with |- _ /\ _ => split end; intros;
    unfold set_block_irreversible, add_stat, upd_stat, add_tokens, upd_token, del_token,
      add_meta, add_domain, upd_domain, add_group, upd_group, add_fungible, upd_fungible;
    cbv zeta;
    repeat first
      [ apply registers_ret | apply registers_throw | apply registers_format
      | apply registers_on_pg; unfold PREPARE_SQL_ONCE, prepare_meta_plans;
        apply prepares_only_call_once;
        repeat first [ apply prepares_only_prepare
                     | apply prepares_only_bind; [|intros ?] ]
      | apply registers_for_each_name; intros ?
      | apply registers_bind; [|intros ?]
      | match goal with |- registers_only (if ?c then _ else _) => destruct c end
      | match goal with |- registers_only (match ?c with _ => _ end) => destruct c end ].
Qed.

End TranslatorTraffic.

(** ** The version gate on texts that extend one another *)

Lemma ascii_compare_refl (c : ascii) : Ascii.compare c c = Eq.
Proof. unfold Ascii.compare. apply N.compare_refl. Qed.

Lemma compare_extension (a s : string) : String.compare (a ++ s) a <> Lt.
Proof.
  induction a as [|c a IH]; cbn [append String.compare].
  - now destruct s.
  - now rewrite ascii_compare_refl.
Qed.

Lemma compare_proper_prefix (a : string) (c : ascii) (s : string) :
  String.compare a (a ++ String c s) = Lt.
Proof.
  induction a as [|x a IH]; cbn [append String.compare]; [reflexivity|].
  now rewrite ascii_compare_refl.
Qed.

(** X12.  The version gate compares texts: a stored version that extends the
    running one passes, and a stored version that is a proper beginning of the
    running one is refused as older. *)
Theorem check_version_on_extensions (p : pg) (cur_ver rest : string) (c : ascii) :
  ready p -> stat_value p "version" = Some cur_ver ->
  (cur_ver = pg_version ++ rest -> snd (check_version p) = Ok PG_OK)
  /\ (pg_version = cur_ver ++ String c rest ->
      snd (check_version p) = Throw postgres_version_exception).
Proof.
  intros Hr Hv. destruct (check_version_run p Hr) as (p1 & _ & E).
  rewrite Hv in E. rewrite E. unfold String.ltb. split; intros H.
  - rewrite H. pose proof (compare_extension pg_version rest) as N.
    now destruct (String.compare (pg_version ++ rest) pg_version).
  - rewrite H at 1. now rewrite compare_proper_prefix.
Qed.

Lemma check_version_on_extensions_witness :
  snd (check_version (connected [("version", "1.0.0-rc1")] [])) = Ok PG_OK
  /\ snd (check_version (connected [("version", "1.0")] []))
     = Throw postgres_version_exception.
Proof.
  split.
  - apply (proj1 (check_version_on_extensions
                    (connected [("version", "1.0.0-rc1")] []) "1.0.0-rc1" "-rc1" "x"
                    (connected_ready _ _) eq_refl)).
    reflexivity.
  - apply (proj2 (check_version_on_extensions
                    (connected [("version", "1.0")] []) "1.0" "0" "."
                    (connected_ready _ _) eq_refl)).
    reflexivity.
Defined.

(** ** Update lines read back *)

Lemma no_quote_array_text (l : list string) :
  forallb no_quote l = true -> no_quote (array_text l) = true.
Proof.
  intros H. unfold array_text. rewrite !no_quote_append.
  assert (C : no_quote (String.concat "," (map (fun v => DQUOTE ++ v ++ DQUOTE) l)) = true).
  { induction l as [|x l IH]; [reflexivity|].
    cbn [forallb] in H. apply andb_prop in H as [Hx Hl]. specialize (IH Hl).
    cbn [map String.concat].
    destruct (map (fun v => DQUOTE ++ v ++ DQUOTE) l) as [|y m] eqn:E.
    - rewrite !no_quote_append, Hx. reflexivity.
    - rewrite !no_quote_append, Hx, IH. reflexivity. }
  rewrite C. reflexivity.
Qed.

(** Regroup the appends of the text a translator formats. *)
Ltac retext :=
  match goal with
  | E : context [format_to_trx_buf ?line] |- context [format_to_trx_buf ?t] =>
      replace t with line by same_text
  end.

(** X13.  The lines of the update translators carry their values in the order
    of the parameters of the statement each registers: for values without a
    quote, the line of [upd_stat] reads back as the new value then the key,
    the line of [upd_token] as the owner array then the token id, and the
    lines of [del_token] and [set_block_irreversible] as the token id and the
    block id. *)
Theorem update_lines_read_back (p : pg) (tctx : trx_context) (key value id : string)
        (tf : transfer) (dt : destroytoken) :
  ready p ->
  forallb no_quote [key; value; id; tf_domain tf; tf_name tf; dt_domain dt; dt_name dt]
  = true ->
  forallb no_quote (tf_to tf) = true ->
  (exists p' line,
      upd_stat key value (p, tctx) = ((p', mkTrx (trx_buf_ tctx ++ line)), Ok PG_OK)
      /\ lookup "us_plan" (prepared (conn_ p'))
         = Some "UPDATE stats SET value = $1 WHERE key = $2"
      /\ parse_execute line = Some ("us_plan", [value; key]))
  /\ (exists p' line,
         upd_token tf (p, tctx) = ((p', mkTrx (trx_buf_ tctx ++ line)), Ok PG_OK)
         /\ lookup "tf_plan" (prepared (conn_ p'))
            = Some "UPDATE tokens SET(owner) = ($1) WHERE id = $2;"
         /\ parse_execute line
            = Some ("tf_plan", [array_text (tf_to tf); tf_domain tf ++ ":" ++ tf_name tf]))
  /\ (exists p' line,
         del_token dt (p, tctx) = ((p', mkTrx (trx_buf_ tctx ++ line)), Ok PG_OK)
         /\ parse_execute line = Some ("dt_plan", [dt_domain dt ++ ":" ++ dt_name dt]))
  /\ (exists p' line,
         set_block_irreversible id (p, tctx)
         = ((p', mkTrx (trx_buf_ tctx ++ line)), Ok PG_OK)
         /\ lookup "sbi_plan" (prepared (conn_ p'))
            = Some "UPDATE blocks SET pending = false WHERE block_id = $1"
         /\ parse_execute line = Some ("sbi_plan", [id])).
Proof.
  intros Hr Hq Ho. cbn [forallb] in Hq. rewrite !andb_true_iff in Hq.
  destruct Hq as (Qk & Qv & Qi & Qtd & Qtn & Qdd & Qdn & _).
  repeat match goal with |- _ /\ _ => split end.
  - destruct (translate_one_line "us_plan" "UPDATE stats SET value = $1 WHERE key = $2"
                (execute_line "us_plan" [value; key] (";" ++ LF)) p tctx eq_refl Hr)
      as (p' & E & _ & _ & L).
    exists p', (execute_line "us_plan" [value; key] (";" ++ LF)).
    split; [|split; [exact L|]].
    + unfold upd_stat. retext. exact E.
    + apply parse_execute_line; [reflexivity | discriminate | | now left].
      cbn [forallb]. now rewrite Qv, Qk.
  - destruct (translate_one_line "tf_plan" "UPDATE tokens SET(owner) = ($1) WHERE id = $2;"
                (execute_line "tf_plan"
                   [array_text (tf_to tf); tf_domain tf ++ ":" ++ tf_name tf] ";")
                p tctx eq_refl Hr)
      as (p' & E & _ & _ & L).
    exists p', (execute_line "tf_plan"
                  [array_text (tf_to tf); tf_domain tf ++ ":" ++ tf_name tf] ";").
    split; [|split; [exact L|]].
    + unfold upd_token. rewrite owners_text_array. retext. exact E.
    + apply parse_execute_line; [reflexivity | discriminate | | now right].
      cbn [forallb]. rewrite (no_quote_array_text _ Ho), !no_quote_append, Qtd, Qtn.
      reflexivity.
  - destruct (translate_one_line "dt_plan"
                ("UPDATE tokens SET(owner) = ('{" ++ DQUOTE
                 ++ "EVT00000000000000000000000000000000000000000000000000"
                 ++ DQUOTE ++ "}') WHERE id = $1;")
                (execute_line "dt_plan" [dt_domain dt ++ ":" ++ dt_name dt] ";")
                p tctx eq_refl Hr)
      as (p' & E & _ & _ & L).
    exists p', (execute_line "dt_plan" [dt_domain dt ++ ":" ++ dt_name dt] ";").
    split.
    + unfold del_token. retext. exact E.
    + apply parse_execute_line; [reflexivity | discriminate | | now right].
      cbn [forallb]. rewrite !no_quote_append, Qdd, Qdn. reflexivity.
  - destruct (translate_one_line "sbi_plan"
                "UPDATE blocks SET pending = false WHERE block_id = $1"
                (execute_line "sbi_plan" [id] (";" ++ LF)) p tctx eq_refl Hr)
      as (p' & E & _ & _ & L).
    exists p', (execute_line "sbi_plan" [id] (";" ++ LF)).
    split; [|split; [exact L|]].
    + unfold set_block_irreversible. retext. exact E.
    + apply parse_execute_line; [reflexivity | discriminate | | now left].
      cbn [forallb]. now rewrite Qi.
Qed.

Lemma update_lines_read_back_witness :
  exists p' line,
    upd_stat "last_sync_block_id" "00000002bb" (synced, new_trx_context)
    = ((p', mkTrx (trx_buf_ new_trx_context ++ line)), Ok PG_OK)
    /\ lookup "us_plan" (prepared (conn_ p'))
       = Some "UPDATE stats SET value = $1 WHERE key = $2"
    /\ parse_execute line = Some ("us_plan", ["00000002bb"; "last_sync_block_id"]).
Proof.
  apply (update_lines_read_back synced new_trx_context "last_sync_block_id" "00000002bb"
           "00000002bb" (mkTransfer "dom" "t1" ["EVT6alice"; "EVT6bob"] "memo")
           (mkDestroyToken "dom" "t1")).
  - apply connected_ready.
  - reflexivity.
  - reflexivity.
Defined.

(** ** Initialising the stats table *)

(** In a ready state a [PREPARE_SQL_ONCE] site sends its registration unless
    its flag has fired, and the flag has fired afterwards. *)
Lemma prepare_once_sends (name sql : string) (p : pg) :
  own_site name sql = true -> ready p ->
  exists p', PREPARE_SQL_ONCE name sql p = (p', Ok tt)
             /\ ready p'
             /\ flag_set ("__" ++ name ++ "_flag") p' = true
             /\ wire (conn_ p') = (wire (conn_ p) ++ registration name sql p)%list.
Proof.
  intros Hown Hr.
  destruct (prepare_once_ready name sql p Hown Hr) as (p' & E & R & _).
  exists p'. split; [exact E|]. split; [exact R|].
  destruct Hr as [Hh Hc].
  pose proof (once_consistent_site p _ _ _ Hc (own_site_listed _ _ Hown)) as Hl.
  unfold registration.
  unfold PREPARE_SQL_ONCE, call_once in E.
  destruct (flag_set ("__" ++ name ++ "_flag") p) eqn:Hflag.
  - injection E as <-. split; [exact Hflag | now rewrite app_nil_r].
  - unfold prepare, bind, on_conn, PQprepare in E. rewrite Hh, Hl in E.
    cbn [PQresultStatus status_eqb EVT_ASSERT ret set_conn fst snd] in E.
    injection E as <-. split.
    + unfold flag_set, raise_flag. cbn [once_flags existsb].
      now rewrite String.eqb_refl.
    + reflexivity.
Qed.

(** X14.  Initialising the stats table is one batch: in a ready state
    [prepare_stats] registers the insert statement if it is not registered
    yet, then submits the two lines (the running version, and an empty id of
    the last synchronised block) in a single request, and returns [PG_OK]. *)
Theorem prepare_stats_one_batch (p : pg) :
  ready p ->
  exists p',
    prepare_stats p = (p', Ok PG_OK)
    /\ ready p'
    /\ wire (conn_ p')
       = (wire (conn_ p)
          ++ registration "as_plan" "INSERT INTO stats VALUES($1, $2, now(), now())" p
          ++ [ReqExec (stat_line "version" pg_version
                       ++ stat_line "last_sync_block_id" "")])%list.
Proof.
  intros Hr.
  destruct (prepare_once_sends "as_plan" "INSERT INTO stats VALUES($1, $2, now(), now())"
              p eq_refl Hr) as (p1 & E1 & R1 & F1 & W1).
  destruct (prepare_once_sends "as_plan" "INSERT INTO stats VALUES($1, $2, now(), now())"
              p1 eq_refl R1) as (p2 & E2 & R2 & F2 & W2).
  unfold registration in W2. rewrite F1, app_nil_r in W2.
  assert (A1 : add_stat "version" pg_version (p, new_trx_context)
               = ((p1, mkTrx (stat_line "version" pg_version)), Ok PG_OK)).
  { unfold add_stat, bind, on_pg. cbn [fst snd]. rewrite E1. reflexivity. }
  assert (A2 : add_stat "last_sync_block_id" "" (p1, mkTrx (stat_line "version" pg_version))
               = ((p2, mkTrx (stat_line "version" pg_version
                              ++ stat_line "last_sync_block_id" "")), Ok PG_OK)).
  { unfold add_stat, bind, on_pg. cbn [fst snd]. rewrite E2. reflexivity. }
  assert (A3 : commit (p2, mkTrx (stat_line "version" pg_version
                                  ++ stat_line "last_sync_block_id" ""))
               = ((set_conn p2 (sent (conn_ p2)
                                  (ReqExec (stat_line "version" pg_version
                                            ++ stat_line "last_sync_block_id" ""))),
                   mkTrx (stat_line "version" pg_version
                          ++ stat_line "last_sync_block_id" "")), Ok tt)).
  { unfold commit, commit_trx_context. cbn [fst snd trx_buf_].
    change (String.length (stat_line "version" pg_version
                           ++ stat_line "last_sync_block_id" "") =? 0)%nat with false.
    cbv iota zeta. unfold bind, on_conn, PQexec. cbv zeta.
    rewrite (proj1 R2). reflexivity. }
  eexists. split; [|split].
  - unfold prepare_stats. cbv zeta. unfold bind at 1. rewrite A1.
    unfold bind at 1. rewrite A2. unfold bind at 1. rewrite A3. reflexivity.
  - cbn [fst]. now apply ready_sent.
  - cbn [fst set_conn conn_ sent wire]. rewrite W2, W1, <- app_assoc. reflexivity.
Qed.

Lemma prepare_stats_one_batch_witness :
  exists p',
    prepare_stats uninitialized = (p', Ok PG_OK)
    /\ ready p'
    /\ wire (conn_ p')
       = (wire (conn_ uninitialized)
          ++ registration "as_plan" "INSERT INTO stats VALUES($1, $2, now(), now())"
               uninitialized
          ++ [ReqExec (stat_line "version" pg_version
                       ++ stat_line "last_sync_block_id" "")])%list.
Proof. apply (prepare_stats_one_batch uninitialized). apply connected_ready. Defined.

(** ** Flushing does not empty a buffer *)

Lemma commit_trx_context_run (tctx : trx_context) (p : pg) :
  healthy (conn_ p) -> String.prefix "COPY " (trx_buf_ tctx) = false ->
  snd (commit_trx_context tctx p) = Ok tt
  /\ wire (conn_ (fst (commit_trx_context tctx p)))
     = (wire (conn_ p) ++ trx_requests tctx)%list.
Proof.
  intros Hh Hc. unfold commit_trx_context, trx_requests.
  destruct (String.length (trx_buf_ tctx) =? 0)%nat.
  - cbn. now rewrite app_nil_r.
  - cbv zeta. unfold bind, on_conn, PQexec. cbv zeta. rewrite Hh, Hc. now cbn.
Qed.

(** X15.  Neither flush empties its buffers: with a server that answers,
    flushing the same copy context, or the same statement log, a second time
    sends the same requests once more. *)
Theorem flush_leaves_buffers (p : pg) (cctx : copy_context) (tctx : trx_context) :
  ready p -> String.prefix "COPY " (trx_buf_ tctx) = false ->
  (snd ((commit_copy_context cctx ;;; commit_copy_context cctx) p) = Ok tt
   /\ wire (conn_ (fst ((commit_copy_context cctx ;;; commit_copy_context cctx) p)))
      = (wire (conn_ p) ++ flush_requests cctx ++ flush_requests cctx)%list)
  /\ (snd ((commit_trx_context tctx ;;; commit_trx_context tctx) p) = Ok tt
      /\ wire (conn_ (fst ((commit_trx_context tctx ;;; commit_trx_context tctx) p)))
         = (wire (conn_ p) ++ trx_requests tctx ++ trx_requests tctx)%list).
Proof.
  intros Hr Hc. split.
  - pose proof (keeps_ready_commit_copy_context cctx p Hr) as R1.
    pose proof (commit_copy_context_healthy cctx p (proj1 Hr)) as O1.
    destruct (commit_copy_context_sends cctx p) as (s1 & W1 & _ & F1).
    unfold bind. destruct (commit_copy_context cctx p) as [p1 r1].
    cbn [fst snd] in *. subst r1. rewrite (F1 tt eq_refl) in W1.
    pose proof (commit_copy_context_healthy cctx p1 (proj1 R1)) as O2.
    destruct (commit_copy_context_sends cctx p1) as (s2 & W2 & _ & F2).
    split; [exact O2|]. rewrite W2, (F2 tt O2), W1, <- app_assoc. reflexivity.
  - pose proof (keeps_ready_commit_trx_context tctx p Hr) as R1.
    destruct (commit_trx_context_run tctx p (proj1 Hr) Hc) as (O1 & W1).
    unfold bind. destruct (commit_trx_context tctx p) as [p1 r1].
    cbn [fst snd] in *. subst r1.
    destruct (commit_trx_context_run tctx p1 (proj1 R1) Hc) as (O2 & W2).
    split; [exact O2|]. rewrite W2, W1, <- app_assoc. reflexivity.
Qed.

Lemma flush_leaves_buffers_witness :
  wire (conn_ (fst ((commit_trx_context (mkTrx (stat_line "k" "v"))
                     ;;; commit_trx_context (mkTrx (stat_line "k" "v"))) synced)))
  = [ReqExec (stat_line "k" "v"); ReqExec (stat_line "k" "v")].
Proof.
  exact (proj2 (proj2 (flush_leaves_buffers synced new_copy_context
                         (mkTrx (stat_line "k" "v")) (connected_ready _ _) eq_refl))).
Defined.
